(** * Orchestration core of the AI app builder: a shallow embedding

    The development follows the two Python files that implement the core:
    [workflow_engine.py] (class [WorkflowEngine]) and
    [ai_app_builder_workflow.py] (classes [AIAgent] and [GrandOrchestrator]).

    Python data is embedded as the inductive type [value]; dictionaries are
    association lists in insertion order, because iteration order is
    observable ([dict.items()], document order of handlers, [str] of a dict).
    Code that can raise returns a [result]; code that mutates the objects it
    is handed is written in a state-and-error monad over those objects. *)

From Stdlib Require Import String Ascii List ZArith Bool Lia DecimalString.
Import ListNotations.
Open Scope string_scope.
Set Warnings "-register-all".

(** ** Python values and built-in operations *)

Module Py.

(** Data as [json.load] and the orchestrator build it. Numbers are the
    integers (JSON floats are outside the model); a character of a text is
    a code point below 256 (Python's [str] restricted to Latin-1).
    [VDefaultDict] is [collections.defaultdict(int)], which the orchestrator
    stores under ['module_test_retries']. *)
Inductive value : Type :=
| VNone
| VBool (b : bool)
| VInt (z : Z)
| VStr (s : string)
| VList (l : list value)
| VDict (d : list (string * value))
| VDefaultDict (d : list (string * value)).

Definition dict := list (string * value).

Inductive exn : Type :=
| KeyError
| TypeError
| AttributeError
| NotImplementedError
| Exception (msg : string).

Inductive result (A : Type) : Type :=
| Ok (a : A)
| Raise (e : exn).
Arguments Ok {A} a.
Arguments Raise {A} e.

(** [d.get(k)] on the entries of a dictionary. *)
Fixpoint lookup (k : string) (d : dict) : option value :=
  match d with
  | [] => None
  | (k', v) :: rest => if String.eqb k k' then Some v else lookup k rest
  end.

(** [d[k] = v]: an existing key keeps its position, a new key goes last. *)
Fixpoint assoc_set (k : string) (v : value) (d : dict) : dict :=
  match d with
  | [] => [(k, v)]
  | (k', v') :: rest =>
      if String.eqb k k' then (k', v) :: rest else (k', v') :: assoc_set k v rest
  end.

(** [isinstance(v, dict)], giving the entries. *)
Definition as_dict (v : value) : option dict :=
  match v with
  | VDict d | VDefaultDict d => Some d
  | _ => None
  end.

(** Writes the entries back into a dictionary of the same class. *)
Definition with_entries (v : value) (d : dict) : value :=
  match v with
  | VDefaultDict _ => VDefaultDict d
  | _ => VDict d
  end.

(** Truth value of [v], as [if v:] and [not v] test it. *)
Definition truthy (v : value) : bool :=
  match v with
  | VNone => false
  | VBool b => b
  | VInt z => negb (Z.eqb z 0)
  | VStr s => negb (String.eqb s "")
  | VList l => match l with [] => false | _ => true end
  | VDict d | VDefaultDict d => match d with [] => false | _ => true end
  end.

(** [bool] is a subclass of [int]: [True == 1]. *)
Definition as_number (v : value) : option Z :=
  match v with
  | VBool b => Some (if b then 1%Z else 0%Z)
  | VInt z => Some z
  | _ => None
  end.

(** [a == b]. Lists compare element by element; dictionaries (of either
    class) compare as sets of entries: same size and every key of [a] in [b]
    with an equal value. *)
Fixpoint py_eq (a b : value) : bool :=
  match a with
  | VNone => match b with VNone => true | _ => false end
  | VBool _ | VInt _ =>
      match as_number a, as_number b with
      | Some x, Some y => Z.eqb x y
      | _, _ => false
      end
  | VStr s => match b with VStr t => String.eqb s t | _ => false end
  | VList l =>
      match b with
      | VList m =>
          (fix go (l m : list value) : bool :=
             match l, m with
             | [], [] => true
             | x :: l', y :: m' => py_eq x y && go l' m'
             | _, _ => false
             end) l m
      | _ => false
      end
  | VDict d | VDefaultDict d =>
      match as_dict b with
      | Some e =>
          Nat.eqb (length d) (length e) &&
          (fix go (d : dict) : bool :=
             match d with
             | [] => true
             | (k, v) :: d' =>
                 match lookup k e with
                 | Some w => py_eq v w && go d'
                 | None => false
                 end
             end) d
      | None => false
      end
  end.

(** [v is None]. *)
Definition py_eq_none (v : value) : bool :=
  match v with VNone => true | _ => false end.

(** [v.get(k, default)]; only dictionaries have [get]. *)
Definition py_get (v : value) (k : string) (default : value) : result value :=
  match as_dict v with
  | Some d => Ok (match lookup k d with Some x => x | None => default end)
  | None => Raise AttributeError
  end.

(** [v[k]] for a string [k]. The second component is the container after
    the access: a [defaultdict(int)] inserts [0] under an absent key. *)
Definition py_getitem (v : value) (k : string) : result (value * value) :=
  match v with
  | VDict d =>
      match lookup k d with
      | Some x => Ok (x, v)
      | None => Raise KeyError
      end
  | VDefaultDict d =>
      match lookup k d with
      | Some x => Ok (x, v)
      | None => Ok (VInt 0, VDefaultDict (assoc_set k (VInt 0) d))
      end
  | _ => Raise TypeError
  end.

(** [v[k] = x] for a string [k]. *)
Definition py_setitem (v : value) (k : string) (x : value) : result value :=
  match as_dict v with
  | Some d => Ok (with_entries v (assoc_set k x d))
  | None => Raise TypeError
  end.

(** [k in v] for a string [k], where the source guards it with
    [isinstance(v, dict)]. *)
Definition dict_has (v : value) (k : string) : bool :=
  match as_dict v with
  | Some d => match lookup k d with Some _ => true | None => false end
  | None => false
  end.

(** [for x in v]: the elements a [for] loop visits. *)
Definition py_iter (v : value) : result (list value) :=
  match v with
  | VList l => Ok l
  | VDict d | VDefaultDict d => Ok (map (fun kv => VStr (fst kv)) d)
  | VStr s => Ok (map (fun c => VStr (String c "")) (list_ascii_of_string s))
  | _ => Raise TypeError
  end.

(** [v.copy()] (shallow; the model shares nothing, so it is the identity).
    Scalars and strings have no [copy]. *)
Definition py_copy (v : value) : result value :=
  match v with
  | VList _ | VDict _ | VDefaultDict _ => Ok v
  | _ => Raise AttributeError
  end.

(** [v[:8]], as the log lines slice context ids; only the fact that it is
    defined matters. *)
Definition py_slice8 (v : value) : result unit :=
  match v with
  | VStr _ | VList _ => Ok tt
  | _ => Raise TypeError
  end.

(** A context id used as a dictionary key. Keys of the model are strings;
    lists and dictionaries are unhashable. *)
Definition py_key (v : value) : result string :=
  match v with
  | VStr s => Ok s
  | _ => Raise TypeError
  end.

(** [s.split('.')]. *)
Fixpoint split_on (sep : ascii) (s : string) : list string :=
  match s with
  | EmptyString => [EmptyString]
  | String c r =>
      if Ascii.eqb c sep then EmptyString :: split_on sep r
      else match split_on sep r with
           | h :: t => String c h :: t
           | [] => [String c EmptyString]
           end
  end.

Definition split_dot (s : string) : list string := split_on "."%char s.

(** *** [str] and [repr] *)

Definition string_of_Z (z : Z) : string := NilZero.string_of_int (Z.to_int z).

Fixpoint contains_char (c : ascii) (s : string) : bool :=
  match s with
  | EmptyString => false
  | String c' r => Ascii.eqb c c' || contains_char c r
  end.

Definition hex_digit (n : nat) : ascii :=
  match n with
  | 0 => "0" | 1 => "1" | 2 => "2" | 3 => "3" | 4 => "4" | 5 => "5"
  | 6 => "6" | 7 => "7" | 8 => "8" | 9 => "9" | 10 => "a" | 11 => "b"
  | 12 => "c" | 13 => "d" | 14 => "e" | _ => "f"
  end%char.

(** One character inside [repr(s)]: the backslash and the quote are
    escaped, [\n], [\r] and [\t] have their letters, every other character
    that is not printable (the control characters, [\x7f] to [\xa0] and
    the soft hyphen [\xad]) is written [\xhh]. *)
Definition escape_char (quote c : ascii) : string :=
  let n := nat_of_ascii c in
  if Ascii.eqb c "\"%char then "\\"
  else if Ascii.eqb c quote then String "\"%char (String c "")
  else if Nat.eqb n 10 then "\n"
  else if Nat.eqb n 13 then "\r"
  else if Nat.eqb n 9 then "\t"
  else if Nat.ltb n 32 || (Nat.leb 127 n && Nat.leb n 160) || Nat.eqb n 173 then
    String "\"%char (String "x"%char
      (String (hex_digit (n / 16)) (String (hex_digit (n mod 16)) "")))
  else String c "".

Fixpoint escape_string (quote : ascii) (s : string) : string :=
  match s with
  | EmptyString => EmptyString
  | String c r => escape_char quote c ++ escape_string quote r
  end.

(** The double quote character. *)
Definition double_quote : ascii := ascii_of_nat 34.

(** [repr(s)] of a string: single quotes unless the text has a single quote
    and no double quote. *)
Definition repr_str (s : string) : string :=
  let quote :=
    if contains_char "'"%char s && negb (contains_char double_quote s)
    then double_quote else "'"%char in
  String quote (escape_string quote s ++ String quote "").

Fixpoint join (sep : string) (l : list string) : string :=
  match l with
  | [] => ""
  | [x] => x
  | x :: rest => x ++ sep ++ join sep rest
  end.

Fixpoint py_repr (v : value) : string :=
  match v with
  | VNone => "None"
  | VBool b => if b then "True" else "False"
  | VInt z => string_of_Z z
  | VStr s => repr_str s
  | VList l => "[" ++ join ", " (map py_repr l) ++ "]"
  | VDict d =>
      "{" ++ join ", " (map (fun kv => repr_str (fst kv) ++ ": " ++ py_repr (snd kv)) d) ++ "}"
  | VDefaultDict d =>
      "defaultdict(<class 'int'>, {" ++
      join ", " (map (fun kv => repr_str (fst kv) ++ ": " ++ py_repr (snd kv)) d) ++ "})"
  end.

(** [str(v)]. *)
Definition py_str (v : value) : string :=
  match v with
  | VStr s => s
  | _ => py_repr v
  end.

(** *** Attributes of data

    [getattr(v, part, None)] on a value of a built-in class finds the
    attributes of the class (CPython 3.11): its methods and the names every
    object has. Two of them are [None] themselves, [list.__hash__] and
    [NoneType.__doc__], and are left out. *)

Definition object_attributes : list string :=
  [ "__class__"; "__delattr__"; "__dir__"; "__eq__"; "__format__"; "__ge__";
    "__getattribute__"; "__getstate__"; "__gt__"; "__init__";
    "__init_subclass__"; "__le__"; "__lt__"; "__ne__"; "__new__";
    "__reduce__"; "__reduce_ex__"; "__repr__"; "__setattr__"; "__sizeof__";
    "__str__"; "__subclasshook__" ].

Definition str_attributes : list string :=
  [ "__add__"; "__contains__"; "__doc__"; "__getitem__"; "__getnewargs__";
    "__hash__"; "__iter__"; "__len__"; "__mod__"; "__mul__"; "__rmod__";
    "__rmul__"; "capitalize"; "casefold"; "center"; "count"; "encode";
    "endswith"; "expandtabs"; "find"; "format"; "format_map"; "index";
    "isalnum"; "isalpha"; "isascii"; "isdecimal"; "isdigit"; "isidentifier";
    "islower"; "isnumeric"; "isprintable"; "isspace"; "istitle"; "isupper";
    "join"; "ljust"; "lower"; "lstrip"; "maketrans"; "partition";
    "removeprefix"; "removesuffix"; "replace"; "rfind"; "rindex"; "rjust";
    "rpartition"; "rsplit"; "rstrip"; "split"; "splitlines"; "startswith";
    "strip"; "swapcase"; "title"; "translate"; "upper"; "zfill" ].

(** [bool] is a subclass of [int] and adds no name. *)
Definition int_attributes : list string :=
  [ "__abs__"; "__add__"; "__and__"; "__bool__"; "__ceil__"; "__divmod__";
    "__doc__"; "__float__"; "__floor__"; "__floordiv__"; "__getnewargs__";
    "__hash__"; "__index__"; "__int__"; "__invert__"; "__lshift__";
    "__mod__"; "__mul__"; "__neg__"; "__or__"; "__pos__"; "__pow__";
    "__radd__"; "__rand__"; "__rdivmod__"; "__rfloordiv__"; "__rlshift__";
    "__rmod__"; "__rmul__"; "__ror__"; "__round__"; "__rpow__";
    "__rrshift__"; "__rshift__"; "__rsub__"; "__rtruediv__"; "__rxor__";
    "__sub__"; "__truediv__"; "__trunc__"; "__xor__"; "as_integer_ratio";
    "bit_count"; "bit_length"; "conjugate"; "denominator"; "from_bytes";
    "imag"; "numerator"; "real"; "to_bytes" ].

Definition list_attributes : list string :=
  [ "__add__"; "__class_getitem__"; "__contains__"; "__delitem__"; "__doc__";
    "__getitem__"; "__iadd__"; "__imul__"; "__iter__"; "__len__"; "__mul__";
    "__reversed__"; "__rmul__"; "__setitem__"; "append"; "clear"; "copy";
    "count"; "extend"; "index"; "insert"; "pop"; "remove"; "reverse"; "sort" ].

Definition dict_attributes : list string :=
  [ "__class_getitem__"; "__contains__"; "__delitem__"; "__doc__";
    "__getitem__"; "__ior__"; "__iter__"; "__len__"; "__or__";
    "__reversed__"; "__ror__"; "__setitem__"; "clear"; "copy"; "fromkeys";
    "get"; "items"; "keys"; "pop"; "popitem"; "setdefault"; "update";
    "values" ].

Definition attributes (v : value) : list string :=
  (object_attributes ++
   match v with
   | VNone => ["__bool__"; "__hash__"]
   | VBool _ | VInt _ => int_attributes
   | VStr _ => str_attributes
   | VList _ => list_attributes
   | VDict _ => dict_attributes
   | VDefaultDict _ => dict_attributes ++ ["__copy__"; "__missing__"; "default_factory"]
   end)%list.

(** [getattr(v, part, None) is not None]. *)
Definition getattr_finds (v : value) (part : string) : bool :=
  existsb (String.eqb part) (attributes v).

End Py.

(** ** A state-and-error monad

    Python code that mutates the objects it was handed and may raise.
    An exception aborts the run: what was written before it is not
    observed. *)

Module Monad.
Import Py.

Definition M (S A : Type) : Type := S -> result (A * S).

Definition ret {S A} (a : A) : M S A := fun s => Ok (a, s).

Definition bind {S A B} (m : M S A) (f : A -> M S B) : M S B :=
  fun s =>
    match m s with
    | Ok (a, s') => f a s'
    | Raise e => Raise e
    end.

Definition raise {S A} (e : exn) : M S A := fun _ => Raise e.

Definition lift {S A} (r : result A) : M S A :=
  fun s => match r with Ok a => Ok (a, s) | Raise e => Raise e end.

Definition get {S} : M S S := fun s => Ok (s, s).

Definition put {S} (s : S) : M S unit := fun _ => Ok (tt, s).

Definition modify {S} (f : S -> S) : M S unit := fun s => Ok (tt, f s).

End Monad.

Declare Scope monad_scope.
Delimit Scope monad_scope with monad.
Notation "x <- m ;; k" := (Monad.bind m (fun x => k))
  (at level 100, m at next level, right associativity) : monad_scope.
Notation "m ;;; k" := (Monad.bind m (fun _ => k))
  (at level 100, right associativity) : monad_scope.
Notation "' p <- m ;; k" := (Monad.bind m (fun x => match x with p => k end))
  (at level 100, p pattern, m at next level, right associativity) : monad_scope.

(** ** workflow_engine.py *)

Module WorkflowEngine.
Import Py Monad.
Open Scope monad_scope.

(** The two objects [process_event] is handed: [event_data] and
    [project_state]. Subscripting may write to them (see [py_getitem]). *)
Definition store : Type := value * value.

Inductive source : Type := EventData | ProjectState.

Definition read (w : source) (s : store) : value :=
  match w with EventData => fst s | ProjectState => snd s end.

Definition write (w : source) (v : value) (s : store) : store :=
  match w with EventData => (v, snd s) | ProjectState => (fst s, v) end.

(** [_load_config]: the parsed document, or [None] when the file is missing
    or is not JSON. Gives the ['events'] dictionary of the configuration the
    engine keeps; every failure degrades to the empty rule table. *)
Definition _load_config (document : option value) : dict :=
  match document with
  | Some (VDict d | VDefaultDict d) =>
      match lookup "events" d with
      | Some (VDict events | VDefaultDict events) => events
      | _ => []
      end
  | _ => []
  end.

(** The container [v] with the object under [k] replaced by its version
    after a nested access. *)
Definition store_item (v : value) (k : string) (item : value) : value :=
  match as_dict v with
  | Some d => with_entries v (assoc_set k item d)
  | None => v
  end.

(** The lookup loop of [_check_conditions]:
    [for part in parts: current_data = current_data[part]].
    [None] stands for the [KeyError] or [TypeError] the caller catches; the
    second component is the walked object after the accesses. *)
Fixpoint walk (parts : list string) (cur : value) : option value * value :=
  match parts with
  | [] => (Some cur, cur)
  | part :: rest =>
      match py_getitem cur part with
      | Ok (item, cur') =>
          let '(r, item') := walk rest item in (r, store_item cur' part item')
      | Raise _ => (None, cur)
      end
  end.

(** One condition group: [for key, expected_value in condition_value.items()]. *)
Fixpoint check_pairs (w : source) (pairs : dict) : M store bool :=
  match pairs with
  | [] => ret true
  | (key, expected_value) :: rest =>
      s <- get ;;
      let '(r, root) := walk (split_dot key) (read w s) in
      put (write w root s) ;;;
      match r with
      | Some current_data =>
          if negb (py_eq current_data expected_value) then ret false
          else check_pairs w rest
      | None => ret false
      end
  end.

(** [for condition_type, condition_value in conditions.items()]. *)
Fixpoint check_groups (groups : dict) : M store bool :=
  match groups with
  | [] => ret true
  | (condition_type, condition_value) :: rest =>
      let group (w : source) :=
        match as_dict condition_value with
        | None => ret false
        | Some pairs =>
            ok <- check_pairs w pairs ;;
            if ok then check_groups rest else ret false
        end in
      if String.eqb condition_type "event_data" then group EventData
      else if String.eqb condition_type "project_state" then group ProjectState
      else ret false
  end.

Definition _check_conditions (conditions : value) : M store bool :=
  if negb (truthy conditions) then ret true
  else match as_dict conditions with
       | Some groups => check_groups groups
       | None => raise AttributeError
       end.

(** [for status in module_statuses.values()] with its [break]. *)
Fixpoint all_completed (statuses : dict) : bool :=
  match statuses with
  | [] => true
  | (_, status) :: rest =>
      if negb (py_eq status (VStr "completed")) then false
      else all_completed rest
  end.

Definition _evaluate_condition (action_config project_state : value) : result bool :=
  match py_get action_config "condition_type" VNone with
  | Raise e => Raise e
  | Ok condition_type =>
      match py_get action_config "params" (VDict []) with
      | Raise e => Raise e
      | Ok _ =>
          if py_eq condition_type (VStr "all_modules_completed") then
            match py_get project_state "code_modules_status" (VDict []) with
            | Raise e => Raise e
            | Ok module_statuses =>
                if negb (truthy module_statuses) then Ok false
                else match as_dict module_statuses with
                     | Some statuses => Ok (all_completed statuses)
                     | None => Raise AttributeError
                     end
            end
          else Ok false
      end
  end.

(** Reading a configuration object: [action['type']]. Configuration comes
    from [json.load], so the access writes nothing. *)
Definition config_item (v : value) (k : string) : result value :=
  match py_getitem v k with
  | Ok (x, _) => Ok x
  | Raise e => Raise e
  end.

(** [executable_action]: the copy of the action with the event and the
    state attached. *)
Definition executable_action (action : value) (s : store) : result value :=
  match py_copy action with
  | Raise e => Raise e
  | Ok copy =>
      match py_setitem copy "_event_data" (fst s) with
      | Raise e => Raise e
      | Ok copy1 => py_setitem copy1 "_project_state" (snd s)
      end
  end.

(** [for action in config_actions] of [process_event]; [actions_to_execute]
    is the list collected so far. *)
Fixpoint collect_actions (config_actions : list value) (actions_to_execute : list value)
  : M store (list value) :=
  match config_actions with
  | [] => ret actions_to_execute
  | action :: rest =>
      ty <- lift (config_item action "type") ;;
      if py_eq ty (VStr "check_condition") then
        s <- get ;;
        condition_met <- lift (_evaluate_condition action (snd s)) ;;
        if negb condition_met then ret actions_to_execute
        else collect_actions rest actions_to_execute
      else
        s <- get ;;
        executable <- lift (executable_action action s) ;;
        collect_actions rest (actions_to_execute ++ [executable])
  end.

(** The body of [if conditions_met:]: the actions of the matched handler. *)
Definition matched_actions (handler : value) : M store (list value) :=
  config_actions <- lift (py_get handler "actions" (VList [])) ;;
  actions <- lift (py_iter config_actions) ;;
  collect_actions actions [].

(** [self._check_conditions(handler.get('conditions', {}), event_data,
    project_state)]. *)
Definition conditions_met (handler : value) : M store bool :=
  conditions <- lift (py_get handler "conditions" (VDict [])) ;;
  _check_conditions conditions.

(** [for handler in event_handlers] of [process_event], with its [break]. *)
Fixpoint scan_handlers (event_handlers : list value) : M store (list value) :=
  match event_handlers with
  | [] => ret []
  | handler :: rest =>
      met <- conditions_met handler ;;
      if met then matched_actions handler else scan_handlers rest
  end.

(** [self.workflow_config.get('events', {}).get(event_type, [])]. *)
Definition event_handlers (events : dict) (event_type : string) : value :=
  match lookup event_type events with
  | Some hs => hs
  | None => VList []
  end.

Definition process_event (events : dict) (event_type : string) : M store (list value) :=
  handlers <- lift (py_iter (event_handlers events event_type)) ;;
  scan_handlers handlers.

(** *** Template substitution *)

(** [\w] of the token pattern, which is a [str] pattern: the underscore
    and every character that is alphanumeric for Python. Below 256 these
    are the ASCII letters and digits, the Latin-1 letters (all of
    [\xc0]-[\xff] but the two signs [\xd7] and [\xf7], and the three
    letters [\xaa], [\xb5], [\xba]) and the Latin-1 numbers (the
    superscripts [\xb2], [\xb3], [\xb9] and the fractions
    [\xbc]-[\xbe]). *)
Definition is_word (c : ascii) : bool :=
  let n := nat_of_ascii c in
  (Nat.leb 48 n && Nat.leb n 57) || (Nat.leb 65 n && Nat.leb n 90) ||
  (Nat.leb 97 n && Nat.leb n 122) || Nat.eqb n 95 ||
  Nat.eqb n 170 || Nat.eqb n 181 || Nat.eqb n 186 ||
  Nat.eqb n 178 || Nat.eqb n 179 || Nat.eqb n 185 ||
  (Nat.leb 188 n && Nat.leb n 190) ||
  (Nat.leb 192 n && Nat.leb n 214) || (Nat.leb 216 n && Nat.leb n 246) ||
  Nat.leb 248 n.

(** [[\w\.]]. *)
Definition is_path_char (c : ascii) : bool := is_word c || Ascii.eqb c "."%char.

(** The longest run of path characters at the head of [s], and the rest. *)
Fixpoint span_path (s : string) : string * string :=
  match s with
  | EmptyString => (EmptyString, EmptyString)
  | String c r =>
      if is_path_char c then let '(run, rest) := span_path r in (String c run, rest)
      else (EmptyString, s)
  end.

Fixpoint strip_prefix (p s : string) : option string :=
  match p with
  | EmptyString => Some s
  | String a p' =>
      match s with
      | EmptyString => None
      | String b s' => if Ascii.eqb a b then strip_prefix p' s' else None
      end
  end.

(** [name\.([\w\.]+)\}\}] at the head of [s]. The run is greedy; giving
    characters back never helps, since a path character is not a brace. *)
Definition match_after (name s : string) : option string :=
  match strip_prefix (name ++ ".") s with
  | None => None
  | Some s2 =>
      let '(key_path, s3) := span_path s2 in
      match key_path with
      | EmptyString => None
      | _ => match strip_prefix "}}" s3 with
             | Some _ => Some key_path
             | None => None
             end
      end
  end.

Fixpoint match_alternatives (names : list string) (s : string) : option (string * string) :=
  match names with
  | [] => None
  | name :: more =>
      match match_after name s with
      | Some key_path => Some (name, key_path)
      | None => match_alternatives more s
      end
  end.

(** [\{\{(n1|n2)\.([\w\.]+)\}\}] at the head of [s]: the two groups. *)
Definition match_token (names : list string) (s : string) : option (string * string) :=
  match strip_prefix "{{" s with
  | None => None
  | Some s1 => match_alternatives names s1
  end.

(** [f"{{{{{source}.{key_path}}}}}"]. *)
Definition token (source key_path : string) : string :=
  "{{" ++ source ++ "." ++ key_path ++ "}}".

(** [re.findall]: leftmost matches, scanning on after each one. [skip]
    counts the characters of the last match still to pass. *)
Fixpoint findall_from (names : list string) (skip : nat) (s : string)
  : list (string * string) :=
  match s with
  | EmptyString => []
  | String _ r =>
      match skip with
      | S k => findall_from names k r
      | O =>
          match match_token names s with
          | Some (source, key_path) =>
              (source, key_path)
                :: findall_from names (String.length (token source key_path) - 1) r
          | None => findall_from names 0 r
          end
      end
  end.

Definition findall (names : list string) (s : string) : list (string * string) :=
  findall_from names 0 s.

(** [s.replace(old, new)] for a non-empty [old]. *)
Fixpoint replace_from (old new : string) (skip : nat) (s : string) : string :=
  match s with
  | EmptyString => EmptyString
  | String c r =>
      match skip with
      | S k => replace_from old new k r
      | O =>
          if String.prefix old s
          then new ++ replace_from old new (String.length old - 1) r
          else String c (replace_from old new 0 r)
      end
  end.

Fixpoint interleave (new s : string) : string :=
  match s with
  | EmptyString => new
  | String c r => new ++ String c (interleave new r)
  end.

Definition py_replace (old new s : string) : string :=
  match old with
  | EmptyString => interleave new s
  | _ => replace_from old new 0 s
  end.

Section Substitute.

(** What the lookup loop and the final [str] make of a value that is not
    a dictionary once [getattr] has found the first of [parts] on it. What
    is found is an object of the interpreter and no data (a bound method,
    whose [str] shows an address, a class, a docstring), so this part of
    the run is a parameter: the text, [None] when the loop stops at
    [None], or the exception raised. It is consulted for no other
    lookup. *)
Variable getattr_walk : value -> list string -> result (option string).

(** The lookup loop of [_substitute_template] with the final [str]:
    [None] when the loop stopped at [None]. A dictionary is read with
    [get]; on any other value [getattr(value, part, None)] gives [None]
    unless [part] names one of its attributes. *)
Fixpoint walk_template (parts : list string) (v : value) : result (option string) :=
  match parts with
  | [] => Ok (Some (py_str v))
  | part :: rest =>
      match as_dict v with
      | Some d =>
          match lookup part d with
          | None | Some VNone => Ok None
          | Some item => walk_template rest item
          end
      | None => if getattr_finds v part then getattr_walk v parts else Ok None
      end
  end.

(** The text that replaces a token, with the [try]/[except] around the
    loop. *)
Definition replacement (source_data : value) (key_path : string) : string :=
  match walk_template (split_dot key_path) source_data with
  | Ok (Some text) => text
  | Ok None => "N/A"
  | Raise _ => "ERROR_SUBSTITUTING"
  end.

(** One [for match in re.findall(...)] loop over [output]. *)
Definition substitute_pass (names : list string) (source_data : value)
  (output : string) : string :=
  fold_left
    (fun output m =>
       py_replace (token (fst m) (snd m)) (replacement source_data (snd m)) output)
    (findall names output) output.

Definition substitute_string (template : string) (event_data project_state : value)
  : string :=
  substitute_pass ["state"; "project_state"] project_state
    (substitute_pass ["event"; "result"] event_data template).

Fixpoint _substitute_template (template event_data project_state : value) : value :=
  match template with
  | VStr s => VStr (substitute_string s event_data project_state)
  | VDict d | VDefaultDict d =>
      VDict ((fix items (d : dict) : dict :=
                match d with
                | [] => []
                | (k, v) :: rest =>
                    (k, _substitute_template v event_data project_state) :: items rest
                end) d)
  | VList l =>
      VList ((fix elements (l : list value) : list value :=
                match l with
                | [] => []
                | item :: rest =>
                    _substitute_template item event_data project_state :: elements rest
                end) l)
  | _ => template
  end.

End Substitute.

End WorkflowEngine.

(** ** ai_app_builder_workflow.py *)

Module Workflow.
Import Py Monad WorkflowEngine.
Open Scope monad_scope.

(** A message dictionary. Messages the orchestrator delivers to an inbox
    carry no ['message_id'] and no ['recipient']; the timestamp is never
    read and is left out. *)
Record message : Type := {
  message_id : option string;
  sender : string;
  recipient : option string;
  type : string;
  content : value;
  context_id : value
}.

(** An [AIAgent]: its identity, its inbox and its private knowledge base. *)
Record agent : Type := {
  name : string;
  inbox : list message;
  knowledge_base : value
}.

(** A message queued for the human. *)
Record human_message : Type := {
  human_type : value;
  human_content : value;
  human_options : value;
  human_context_id : value
}.

(** A [_log] line: who printed it, the constant text and the interpolated
    values. *)
Record log_entry : Type := {
  origin : string;
  line : string;
  data : list value
}.

(** A [GrandOrchestrator] with its agents. [uuid_count] is the number of
    identifiers drawn from [uuid.uuid4] so far. *)
Record orchestrator : Type := {
  workflow_events : dict;
  agents : list agent;
  project_state : value;
  internal_message_queue : list message;
  human_inbox : list human_message;
  human_outbox : list (value * value);
  uuid_count : nat;
  log : list log_entry
}.

Definition set_agents (o : orchestrator) (x : list agent) : orchestrator :=
  {| workflow_events := workflow_events o; agents := x;
     project_state := project_state o;
     internal_message_queue := internal_message_queue o;
     human_inbox := human_inbox o; human_outbox := human_outbox o;
     uuid_count := uuid_count o; log := log o |}.

Definition set_project_state (o : orchestrator) (x : value) : orchestrator :=
  {| workflow_events := workflow_events o; agents := agents o;
     project_state := x;
     internal_message_queue := internal_message_queue o;
     human_inbox := human_inbox o; human_outbox := human_outbox o;
     uuid_count := uuid_count o; log := log o |}.

Definition set_internal_message_queue (o : orchestrator) (x : list message)
  : orchestrator :=
  {| workflow_events := workflow_events o; agents := agents o;
     project_state := project_state o;
     internal_message_queue := x;
     human_inbox := human_inbox o; human_outbox := human_outbox o;
     uuid_count := uuid_count o; log := log o |}.

Definition set_human_inbox (o : orchestrator) (x : list human_message)
  : orchestrator :=
  {| workflow_events := workflow_events o; agents := agents o;
     project_state := project_state o;
     internal_message_queue := internal_message_queue o;
     human_inbox := x; human_outbox := human_outbox o;
     uuid_count := uuid_count o; log := log o |}.

Definition set_human_outbox (o : orchestrator) (x : list (value * value))
  : orchestrator :=
  {| workflow_events := workflow_events o; agents := agents o;
     project_state := project_state o;
     internal_message_queue := internal_message_queue o;
     human_inbox := human_inbox o; human_outbox := x;
     uuid_count := uuid_count o; log := log o |}.

Definition set_uuid_count (o : orchestrator) (x : nat) : orchestrator :=
  {| workflow_events := workflow_events o; agents := agents o;
     project_state := project_state o;
     internal_message_queue := internal_message_queue o;
     human_inbox := human_inbox o; human_outbox := human_outbox o;
     uuid_count := x; log := log o |}.

Definition set_log (o : orchestrator) (x : list log_entry) : orchestrator :=
  {| workflow_events := workflow_events o; agents := agents o;
     project_state := project_state o;
     internal_message_queue := internal_message_queue o;
     human_inbox := human_inbox o; human_outbox := human_outbox o;
     uuid_count := uuid_count o; log := x |}.

Definition find_agent (agent_name : string) (l : list agent) : option agent :=
  find (fun a => String.eqb (name a) agent_name) l.

Fixpoint update_agent (agent_name : string) (f : agent -> agent) (l : list agent)
  : list agent :=
  match l with
  | [] => []
  | a :: rest =>
      if String.eqb (name a) agent_name then f a :: rest
      else a :: update_agent agent_name f rest
  end.

(** What [process_task] did: it returned a value, or raised an exception;
    [not_implemented] tells [NotImplementedError] from the others, [text]
    is [str(e)]. *)
Inductive outcome : Type :=
| Returned (result_content : value)
| Raised (not_implemented : bool) (text : string).

Definition type_name (v : value) : string :=
  match v with
  | VNone => "NoneType"
  | VBool _ => "bool"
  | VInt _ => "int"
  | VStr _ => "str"
  | VList _ => "list"
  | VDict _ => "dict"
  | VDefaultDict _ => "collections.defaultdict"
  end.

(** [str(e)] of the [TypeError] that [v['task_name'] = x] raises. *)
Definition item_assignment_error (v : value) : string :=
  match v with
  | VList _ => "list indices must be integers or slices, not str"
  | _ => "'" ++ type_name v ++ "' object does not support item assignment"
  end.

(** The state a fresh orchestrator gives [project_state]. *)
Definition initial_project_state : value :=
  VDict [ ("status", VStr "Idle");
          ("current_phase", VStr "Initiation");
          ("pending_human_approval_context", VNone);
          ("app_idea", VNone);
          ("concept_brief", VNone);
          ("technical_blueprint", VNone);
          ("tech_stack_proposal", VNone);
          ("ui_ux_prototype_url", VNone);
          ("design_guidelines", VNone);
          ("code_modules_status", VDict []);
          ("test_results", VDict []);
          ("module_test_retries", VDefaultDict []);
          ("deployment_retries", VInt 0);
          ("final_app_url", VNone);
          ("selected_deployment_target", VNone);
          ("current_task_contexts", VDict []);
          ("escalated_issues", VDict []) ].

Definition new_agent (agent_name : string) : agent :=
  {| name := agent_name; inbox := []; knowledge_base := VDict [] |}.

(** [GrandOrchestrator.__init__], given the rule table the engine loaded. *)
Definition __init__ (events : dict) : orchestrator :=
  {| workflow_events := events;
     agents := map new_agent
                 [ "Dream Weaver"; "Master Builder"; "Aesthetic Artist";
                   "Code Sage"; "Quality Guardian"; "Deployment Master" ];
     project_state := initial_project_state;
     internal_message_queue := [];
     human_inbox := [];
     human_outbox := [];
     uuid_count := 0;
     log := [ {| origin := "Orchestrator";
                 line := "Grand Orchestrator initialized. Ready to build!";
                 data := [] |} ] |}.

(** [update_state] along a path: the new object, or which of the two
    errors is logged. *)
Inductive update_result : Type :=
| Updated (d : value)
| KeyNotFound (key : string)
| ParentNotDict.

(** [_update_project_state] on the object [d]: the loop over [keys[:-1]]
    and the final write, rebuilding the objects on the way back.
    ([split] never gives the empty list.) *)
Fixpoint update_path (keys : list string) (x : value) (d : value) : update_result :=
  match keys with
  | [] => ParentNotDict
  | [last_key] =>
      match as_dict d with
      | Some e => Updated (with_entries d (assoc_set last_key x e))
      | None => ParentNotDict
      end
  | key :: rest =>
      match as_dict d with
      | Some e =>
          match lookup key e with
          | Some child =>
              match update_path rest x child with
              | Updated child' => Updated (with_entries d (assoc_set key child' e))
              | failure => failure
              end
          | None => KeyNotFound key
          end
      | None => KeyNotFound key
      end
  end.

Section Orchestration.

(** See [WorkflowEngine.Substitute]. *)
Variable getattr_walk : value -> list string -> result (option string).

(** [str(uuid.uuid4())]: the [n]-th identifier drawn. *)
Variable uuid4 : nat -> string.

(** [process_task] of the agent called [name] on its knowledge base and
    the task content: what happened and the knowledge base afterwards. *)
Variable process_task : string -> value -> value -> outcome * value.

Definition _log (who text : string) (values : list value) : M orchestrator unit :=
  modify (fun o =>
    set_log o (log o ++ [ {| origin := who; line := text; data := values |} ])).

Definition fresh_uuid : M orchestrator string :=
  o <- get ;;
  put (set_uuid_count o (S (uuid_count o))) ;;;
  ret (uuid4 (uuid_count o)).

(** *** AIAgent *)

Definition receive_message (agent_name : string) (m : message) : M orchestrator unit :=
  modify (fun o =>
    set_agents o
      (update_agent agent_name
         (fun a => {| name := name a; inbox := inbox a ++ [m];
                      knowledge_base := knowledge_base a |})
         (agents o))) ;;;
  _log agent_name "Received message from '{}' (Type: '{}'). Queued."
    [VStr (sender m); VStr (type m)].

(** [GrandOrchestrator.route_internal_message]. *)
Definition route_internal_message (m : message) : M orchestrator unit :=
  modify (fun o => set_internal_message_queue o (internal_message_queue o ++ [m])).

(** [send_message] of an agent whose orchestrator is set. *)
Definition send_message (agent_name recipient_name message_type : string)
  (body ctx : value) : M orchestrator unit :=
  id <- fresh_uuid ;;
  route_internal_message
    {| message_id := Some id; sender := agent_name;
       recipient := Some recipient_name; type := message_type;
       content := body; context_id := ctx |}.

Definition set_inbox (agent_name : string) (l : list message) : M orchestrator unit :=
  modify (fun o =>
    set_agents o
      (update_agent agent_name
         (fun a => {| name := name a; inbox := l;
                      knowledge_base := knowledge_base a |})
         (agents o))).

Definition set_knowledge_base (agent_name : string) (kb : value) : M orchestrator unit :=
  modify (fun o =>
    set_agents o
      (update_agent agent_name
         (fun a => {| name := name a; inbox := inbox a; knowledge_base := kb |})
         (agents o))).

Definition failed_content (task_name : value) (text : string) : value :=
  VDict [ ("task_name", task_name); ("status", VStr "failed");
          ("message", VStr text) ].

(** [process_pending_tasks] of the agent [a]. *)
Definition process_pending_tasks_of (a : agent) : M orchestrator unit :=
  match inbox a with
  | [] => ret tt
  | m :: rest =>
      set_inbox (name a) rest ;;;
      if String.eqb (type m) "task" then
        let task_content := content m in
        task_name <- lift (py_get task_content "task_name" (VStr "Unnamed Task")) ;;
        let ctx := context_id m in
        lift (py_slice8 ctx) ;;;
        _log (name a) "Processing task: {} (Context: {})" [task_name; ctx] ;;;
        let '(done, kb) := process_task (name a) (knowledge_base a) task_content in
        set_knowledge_base (name a) kb ;;;
        match done with
        | Returned result_content =>
            match py_setitem result_content "task_name" task_name with
            | Ok result_content' =>
                send_message (name a) "Orchestrator" "result" result_content' ctx
            | Raise _ =>
                _log (name a) "ERROR processing task '{}' (Context: {}): {}"
                  [task_name; ctx; VStr (item_assignment_error result_content)] ;;;
                send_message (name a) "Orchestrator" "status_update"
                  (failed_content task_name
                     ("Task failed due to exception: "
                        ++ item_assignment_error result_content)) ctx
            end
        | Raised true _ =>
            _log (name a) "ERROR: process_task not implemented for {}."
              [VStr (name a)] ;;;
            send_message (name a) "Orchestrator" "status_update"
              (failed_content task_name
                 ("Task failed: " ++ name a ++ " has no process_task implementation."))
              ctx
        | Raised false text =>
            _log (name a) "ERROR processing task '{}' (Context: {}): {}"
              [task_name; ctx; VStr text] ;;;
            send_message (name a) "Orchestrator" "status_update"
              (failed_content task_name ("Task failed due to exception: " ++ text))
              ctx
        end
      else if String.eqb (type m) "feedback" then
        description <- lift (py_get (content m) "description" (VStr "No description")) ;;
        lift (py_slice8 (context_id m)) ;;;
        _log (name a) "Received feedback: {} (Context: {})"
          [description; context_id m]
      else ret tt
  end.

(** [agent_obj.process_pending_tasks()] for the agent registered under
    [agent_name]. *)
Definition process_pending_tasks (agent_name : string) : M orchestrator unit :=
  o <- get ;;
  match find_agent agent_name (agents o) with
  | Some a => process_pending_tasks_of a
  | None => ret tt
  end.

(** *** GrandOrchestrator *)

Definition orchestrator_name : string := "Orchestrator".

(** [context_id[:8] if context_id else 'N/A'] inside a log line. *)
Definition slice_if_truthy (ctx : value) : result unit :=
  if truthy ctx then py_slice8 ctx else Ok tt.

Definition send_to_human (message_type body options ctx : value)
  : M orchestrator unit :=
  modify (fun o =>
    set_human_inbox o
      (human_inbox o ++
         [ {| human_type := message_type; human_content := body;
              human_options := (if truthy options then options else VList []);
              human_context_id := ctx |} ])) ;;;
  (if py_eq message_type (VStr "QUESTION") || py_eq message_type (VStr "CRITICAL_ISSUE")
      || py_eq message_type (VStr "INSTRUCTION")
   then
     o <- get ;;
     state <- lift (py_setitem (project_state o) "pending_human_approval_context" ctx) ;;
     put (set_project_state o state)
   else ret tt) ;;;
  lift (slice_if_truthy ctx) ;;;
  _log orchestrator_name "Queued message for human (Type: {}, Context: {})."
    [message_type; ctx].

Definition _update_project_state (path : string) (x : value) : M orchestrator unit :=
  o <- get ;;
  match update_path (split_dot path) x (project_state o) with
  | Updated state =>
      _log orchestrator_name "Updating state: project_state['{}'] = {}"
        [VStr path; x] ;;;
      modify (fun o => set_project_state o state)
  | KeyNotFound key =>
      _log orchestrator_name
        "ERROR: Invalid path '{}' for state update. Could not find key '{}'."
        [VStr path; VStr key]
  | ParentNotDict =>
      _log orchestrator_name
        "ERROR: Invalid path '{}' for state update. Parent element is not a dictionary."
        [VStr path]
  end.

(** [agent_name not in self.agents]: the registered agent, if any. Lists
    and dictionaries are unhashable. *)
Definition registered (agent_name : value) (o : orchestrator) : result (option agent) :=
  match agent_name with
  | VStr s => Ok (find_agent s (agents o))
  | VList _ | VDict _ | VDefaultDict _ => Raise TypeError
  | _ => Ok None
  end.

Definition _delegate_task (agent_name task_name body ctx : value)
  : M orchestrator unit :=
  o <- get ;;
  found <- lift (registered agent_name o) ;;
  match found with
  | None =>
      send_to_human (VStr "ERROR")
        (VStr ("Orchestrator failed to delegate task '" ++ py_str task_name
                 ++ "': Agent '" ++ py_str agent_name ++ "' not found."))
        VNone ctx ;;;
      _log orchestrator_name
        "ERROR: Attempted to delegate task '{}' to unknown agent '{}'."
        [task_name; agent_name]
  | Some a =>
      ctx <- (if negb (truthy ctx) then
                id <- fresh_uuid ;;
                _log orchestrator_name
                  "Generated new context_id {} for task {} delegation."
                  [VStr id; task_name] ;;;
                ret (VStr id)
              else ret ctx) ;;
      o <- get ;;
      contexts <- lift (config_item (project_state o) "current_task_contexts") ;;
      key <- lift (py_key ctx) ;;
      contexts' <- lift (py_setitem contexts key
                           (VDict [ ("task_name", task_name); ("agent", agent_name);
                                    ("original_content", body) ])) ;;
      state <- lift (py_setitem (project_state o) "current_task_contexts" contexts') ;;
      put (set_project_state o state) ;;;
      copy <- lift (py_copy body) ;;
      task_payload <- lift (py_setitem copy "task_name" task_name) ;;
      receive_message (name a)
        {| message_id := None; sender := orchestrator_name; recipient := None;
           type := "task"; content := task_payload; context_id := ctx |} ;;;
      lift (py_slice8 ctx) ;;;
      _log orchestrator_name "Delegated '{}' task to {} (Context: {})."
        [task_name; agent_name; ctx]
  end.

(** The retry counter a delegation to [agent_name] under [ctx] reads:
    [project_state['module_test_retries'][ctx]] for the Quality Guardian,
    [project_state['deployment_retries']] otherwise. *)
Definition current_retries (agent_name ctx : value) : M orchestrator value :=
  o <- get ;;
  if py_eq agent_name (VStr "Quality Guardian") then
    '(retries, state) <- lift (py_getitem (project_state o) "module_test_retries") ;;
    key <- lift (py_key ctx) ;;
    '(count, retries') <- lift (py_getitem retries key) ;;
    state' <- lift (py_setitem state "module_test_retries" retries') ;;
    put (set_project_state o state') ;;;
    ret count
  else
    '(count, state) <- lift (py_getitem (project_state o) "deployment_retries") ;;
    put (set_project_state o state) ;;;
    ret count.

Definition execute_update_state (action event_data : value) : M orchestrator unit :=
  path <- lift (py_get action "path" VNone) ;;
  value_template <- lift (py_get action "value" VNone) ;;
  match path, value_template with
  | VNone, _ | _, VNone =>
      _log orchestrator_name "WARNING: Malformed update_state action: {}" [action]
  | _, _ =>
      o <- get ;;
      let x := _substitute_template getattr_walk value_template event_data
                 (project_state o) in
      match path with
      | VStr p => _update_project_state p x
      | _ => raise AttributeError
      end
  end.

Definition execute_send_human_message (action event_data : value)
  : M orchestrator unit :=
  message_type <- lift (py_get action "message_type" VNone) ;;
  content_template <- lift (py_get action "content" VNone) ;;
  options_template <- lift (py_get action "options" (VList [])) ;;
  context_id_template <- lift (py_get action "context_id" VNone) ;;
  if truthy message_type && negb (py_eq_none content_template) then
    o <- get ;;
    let subst t := _substitute_template getattr_walk t event_data (project_state o) in
    let body := subst content_template in
    let options := subst options_template in
    let ctx := if truthy context_id_template then subst context_id_template
               else VNone in
    ctx <- (if negb (truthy ctx) then
              event_ctx <- lift (py_get event_data "context_id" VNone) ;;
              if truthy event_ctx then ret event_ctx else ret ctx
            else ret ctx) ;;
    ctx <- (if negb (truthy ctx) then id <- fresh_uuid ;; ret (VStr id)
            else ret ctx) ;;
    send_to_human message_type body options ctx
  else
    _log orchestrator_name "WARNING: Malformed send_human_message action: {}" [action].

Definition is_retryable (agent_name : value) : bool :=
  py_eq agent_name (VStr "Quality Guardian")
  || py_eq agent_name (VStr "Deployment Master").

(** The context id of a delegation: the template's, the event's when the
    action asks for it and the event has one, or else a new one. *)
Definition choose_context_id (action event_data templated task_name : value)
  : M orchestrator value :=
  use_event <- lift (py_get action "use_event_context_id" (VBool false)) ;;
  delegated <-
    (if truthy use_event then
       event_ctx <- lift (py_get event_data "context_id" VNone) ;;
       if truthy event_ctx then ret event_ctx else ret templated
     else ret templated) ;;
  if negb (truthy delegated) then
    id <- fresh_uuid ;;
    lift (py_slice8 (VStr id)) ;;;
    _log orchestrator_name "Generated new context_id {} for delegated task {}"
      [VStr id; task_name] ;;;
    ret (VStr id)
  else ret delegated.

(** [content['retry_attempt'] = current_retries] for the two agents that
    retry. *)
Definition add_retry_attempt (agent_name body ctx : value) : M orchestrator value :=
  if is_retryable agent_name then
    count <- current_retries agent_name ctx ;;
    body' <- lift (py_setitem body "retry_attempt" count) ;;
    _log orchestrator_name "Added retry_attempt {} to task content for {}."
      [count; agent_name] ;;;
    ret body'
  else ret body.

Definition execute_delegate_task (action event_data : value) : M orchestrator unit :=
  agent_name <- lift (py_get action "agent" VNone) ;;
  task_name <- lift (py_get action "task" VNone) ;;
  content_template <- lift (py_get action "content" (VDict [])) ;;
  context_id_template <- lift (py_get action "context_id" VNone) ;;
  if truthy agent_name && truthy task_name then
    o <- get ;;
    let subst t := _substitute_template getattr_walk t event_data (project_state o) in
    let body := subst content_template in
    let templated := if truthy context_id_template then subst context_id_template
                     else VNone in
    delegated <- choose_context_id action event_data templated task_name ;;
    body <- add_retry_attempt agent_name body delegated ;;
    _delegate_task agent_name task_name body delegated
  else
    _log orchestrator_name "WARNING: Malformed delegate_task action: {}" [action].

Definition execute_action (action event_data : value) : M orchestrator unit :=
  action_type <- lift (py_get action "type" VNone) ;;
  if py_eq action_type (VStr "update_state") then
    execute_update_state action event_data
  else if py_eq action_type (VStr "send_human_message") then
    execute_send_human_message action event_data
  else if py_eq action_type (VStr "delegate_task") then
    execute_delegate_task action event_data
  else
    _log orchestrator_name
      "WARNING: Unknown action type received from workflow engine: {}. Action: {}"
      [action_type; action].

Fixpoint execute_each (actions : list value) (event_data : value)
  : M orchestrator unit :=
  match actions with
  | [] => ret tt
  | action :: rest =>
      execute_action action event_data ;;; execute_each rest event_data
  end.

Definition _execute_actions (actions : list value) (event_data : value)
  : M orchestrator unit :=
  match actions with
  | [] => _log orchestrator_name "No actions prescribed by the workflow engine." []
  | _ =>
      _log orchestrator_name "Executing {} actions..."
        [VInt (Z.of_nat (length actions))] ;;;
      execute_each actions event_data
  end.

(** [self.workflow_engine.process_event(event_type, event_data,
    self.project_state)]: the actions and the event object afterwards. *)
Definition engine_process_event (event_type : string) (event_data : value)
  : M orchestrator (list value * value) :=
  fun o =>
    match process_event (workflow_events o) event_type (event_data, project_state o) with
    | Ok (actions, (event_data', state)) =>
        Ok ((actions, event_data'), set_project_state o state)
    | Raise e => Raise e
    end.

Definition _process_orchestrator_message (m : message) : M orchestrator unit :=
  if String.eqb (type m) "result" || String.eqb (type m) "status_update" then
    let event_data :=
      VDict [ ("sender", VStr (sender m)); ("type", VStr (type m));
              ("content", content m); ("context_id", context_id m) ] in
    '(actions, event_data') <- engine_process_event "agent_result" event_data ;;
    _execute_actions actions event_data'
  else ret tt.

(** The [while] loop of [_process_internal_messages]; [budget] is what is
    left of the ten messages a cycle may take. *)
Fixpoint process_internal_loop (budget processed_count : nat) : M orchestrator nat :=
  match budget with
  | O => ret processed_count
  | S budget' =>
      o <- get ;;
      match internal_message_queue o with
      | [] => ret processed_count
      | m :: rest =>
          put (set_internal_message_queue o rest) ;;;
          match recipient m with
          | None => raise KeyError
          | Some to =>
              if String.eqb to orchestrator_name then
                lift (py_slice8 (context_id m)) ;;;
                _log orchestrator_name
                  "Processing message for Orchestrator from '{}' (Type: '{}', Context: {})."
                  [VStr (sender m); VStr (type m); context_id m] ;;;
                _process_orchestrator_message m
              else
                match find_agent to (agents o) with
                | Some a =>
                    receive_message (name a) m ;;;
                    _log orchestrator_name "Routed message to '{}' (Type: '{}')."
                      [VStr to; VStr (type m)]
                | None =>
                    _log orchestrator_name
                      "ERROR: Internal message with unknown recipient '{}'."
                      [VStr to]
                end
          end ;;;
          process_internal_loop budget' (S processed_count)
      end
  end.

Definition _process_internal_messages : M orchestrator unit :=
  processed_count <- process_internal_loop 10 0 ;;
  match processed_count with
  | O => ret tt
  | _ => _log orchestrator_name "Processed {} internal messages."
           [VInt (Z.of_nat processed_count)]
  end.

Definition get_human_input (response ctx : value) : M orchestrator unit :=
  o <- get ;;
  final_context_id <-
    match ctx with
    | VNone => lift (config_item (project_state o) "pending_human_approval_context")
    | _ => ret ctx
    end ;;
  lift (slice_if_truthy final_context_id) ;;;
  _log orchestrator_name "Received human input for context {}: '{}'."
    [final_context_id; response] ;;;
  pending <- lift (config_item (project_state o) "pending_human_approval_context") ;;
  (if py_eq pending final_context_id then
     state <- lift (py_setitem (project_state o) "pending_human_approval_context" VNone) ;;
     modify (fun o => set_project_state o state)
   else ret tt) ;;;
  let event_data := VDict [ ("response", response); ("context_id", final_context_id) ] in
  '(actions, event_data') <- engine_process_event "human_input" event_data ;;
  _execute_actions actions event_data'.

Definition start_app_development (user_idea : value) : M orchestrator unit :=
  _log orchestrator_name "Hello! Let's build your app '{}'. Starting workflow..."
    [user_idea] ;;;
  o <- get ;;
  state <- lift (py_setitem (project_state o) "app_idea" user_idea) ;;
  put (set_project_state o state) ;;;
  '(actions, _) <- engine_process_event "start" (VDict [("user_idea", user_idea)]) ;;
  _execute_actions actions (VDict [("user_idea", user_idea)]).

(** The [while] loop over [human_outbox] in [run_simulation_cycle];
    [budget] is what is left of the five inputs a cycle may take. *)
Fixpoint human_input_loop (budget processed : nat) : M orchestrator nat :=
  match budget with
  | O => ret processed
  | S budget' =>
      o <- get ;;
      match human_outbox o with
      | [] => ret processed
      | (response, ctx) :: rest =>
          put (set_human_outbox o rest) ;;;
          lift (slice_if_truthy ctx) ;;;
          _log orchestrator_name "Processing human input from outbox: '{}' (Context: {})"
            [response; ctx] ;;;
          get_human_input response ctx ;;;
          human_input_loop budget' (S processed)
      end
  end.

Fixpoint agents_loop (names : list string) : M orchestrator unit :=
  match names with
  | [] => ret tt
  | agent_name :: rest => process_pending_tasks agent_name ;;; agents_loop rest
  end.

Definition run_simulation_cycle : M orchestrator unit :=
  _log orchestrator_name "--- Running Simulation Cycle ---" [] ;;;
  o <- get ;;
  (match human_outbox o with
   | [] => ret tt
   | _ =>
       processed <- human_input_loop 5 0 ;;
       match processed with
       | O => ret tt
       | _ => _log orchestrator_name "Processed {} human inputs from outbox."
                [VInt (Z.of_nat processed)]
       end
   end) ;;;
  _log orchestrator_name "Agents processing tasks..." [] ;;;
  o <- get ;;
  agents_loop (map name (agents o)) ;;;
  _log orchestrator_name "Agent task processing cycle complete." [] ;;;
  _log orchestrator_name "Orchestrator processing internal messages..." [] ;;;
  _process_internal_messages ;;;
  _log orchestrator_name "Orchestrator internal message processing complete." [] ;;;
  o <- get ;;
  lift (config_item (project_state o) "pending_human_approval_context") ;;;
  _log orchestrator_name "--- Cycle End ---" [].

End Orchestration.

End Workflow.

(** ** Vocabulary of the statements *)

Module Spec.
Import Py Monad WorkflowEngine Workflow.

(** *** Handler selection *)

(** Every handler of the list, checked in turn, has its conditions
    evaluate to false; the second store is the one the checks leave. *)
Inductive all_rejected : list value -> store -> store -> Prop :=
| rejected_nil : forall s, all_rejected [] s s
| rejected_cons : forall handler rest s s1 s2,
    conditions_met handler s = Ok (false, s1) ->
    all_rejected rest s1 s2 ->
    all_rejected (handler :: rest) s s2.

(** [action['type'] == 'check_condition']. *)
Definition is_check_condition (action : value) : Prop :=
  exists ty,
    config_item action "type" = Ok ty /\ py_eq ty (VStr "check_condition") = true.

(** The loop over the actions went through the whole list without
    stopping, from [acc] to [out]: every [check_condition] on the way held,
    every other action was copied to the output. *)
Inductive collected : list value -> list value -> store -> list value -> Prop :=
| collected_nil : forall acc s, collected [] acc s acc
| collected_skip : forall action rest acc s out,
    is_check_condition action ->
    _evaluate_condition action (snd s) = Ok true ->
    collected rest acc s out ->
    collected (action :: rest) acc s out
| collected_add : forall action rest acc s out ty executable,
    config_item action "type" = Ok ty ->
    py_eq ty (VStr "check_condition") = false ->
    executable_action action s = Ok executable ->
    collected rest (acc ++ [executable]) s out ->
    collected (action :: rest) acc s out.

(** A module-status map that counts as completed. *)
Definition completed_map (statuses : dict) : Prop :=
  statuses <> [] /\ Forall (fun kv => snd kv = VStr "completed") statuses.

(** *** Dotted paths *)

(** [d[p1][p2]...] through dictionaries, read without writing. *)
Fixpoint resolve (parts : list string) (cur : value) : option value :=
  match parts with
  | [] => Some cur
  | part :: rest =>
      match as_dict cur with
      | Some d =>
          match lookup part d with
          | Some item => resolve rest item
          | None => None
          end
      | None => None
      end
  end.

(** The two paths part ways at some segment. *)
Definition diverges (p q : list string) : Prop :=
  exists common a b p' q',
    p = (common ++ a :: p')%list /\ q = (common ++ b :: q')%list /\ a <> b.

(** No access of the walk falls on an absent key of a [defaultdict]. *)
Fixpoint quiet (parts : list string) (cur : value) : bool :=
  match parts with
  | [] => true
  | part :: rest =>
      match cur with
      | VDict d =>
          match lookup part d with Some item => quiet rest item | None => true end
      | VDefaultDict d =>
          match lookup part d with Some item => quiet rest item | None => false end
      | _ => true
      end
  end.

(** *** Conditions as a conjunction *)

Definition pair_holds (data : value) (kv : string * value) : bool :=
  match resolve (split_dot (fst kv)) data with
  | Some x => py_eq x (snd kv)
  | None => false
  end.

Definition group_source (condition_type : string) : option source :=
  if String.eqb condition_type "event_data" then Some EventData
  else if String.eqb condition_type "project_state" then Some ProjectState
  else None.

Definition group_holds (s : store) (g : string * value) : bool :=
  match group_source (fst g), as_dict (snd g) with
  | Some w, Some pairs => forallb (pair_holds (read w s)) pairs
  | _, _ => false
  end.

Definition conditions_hold (groups : dict) (s : store) : bool :=
  forallb (group_holds s) groups.

Definition group_quiet (s : store) (g : string * value) : bool :=
  match group_source (fst g), as_dict (snd g) with
  | Some w, Some pairs =>
      forallb (fun kv => quiet (split_dot (fst kv)) (read w s)) pairs
  | _, _ => true
  end.

(** *** Templates *)

(** Text without an opening brace. *)
Definition brace_free (s : string) : Prop := contains_char "{"%char s = false.

Fixpoint all_path_chars (s : string) : bool :=
  match s with
  | EmptyString => true
  | String c r => is_path_char c && all_path_chars r
  end.

(** A non-empty run of [[\w\.]]. *)
Definition is_key_path (s : string) : Prop := s <> "" /\ all_path_chars s = true.

Definition event_names : list string := ["event"; "result"].
Definition state_names : list string := ["state"; "project_state"].

(** A template string cut into plain text and tokens. *)
Inductive segment : Type :=
| Text (s : string)
| Token (source key_path : string).

Definition render_segment (g : segment) : string :=
  match g with
  | Text s => s
  | Token source key_path => token source key_path
  end.

(** The template string the segments spell. *)
Fixpoint render (segments : list segment) : string :=
  match segments with
  | [] => ""
  | g :: rest => render_segment g ++ render rest
  end.

(** The beginning of a token: [{{name.]. *)
Definition opener (name : string) : string := "{{" ++ name ++ ".".

(** One of the two strings is a prefix of the other. *)
Fixpoint compatible (a b : string) : bool :=
  match a, b with
  | String x a', String y b' => Ascii.eqb x y && compatible a' b'
  | _, _ => true
  end.

(** [s], read after the beginning of a token, can still become one: it is
    a run of path characters, or a path and then the closing braces or the
    first of them. *)
Definition may_follow (s : string) : bool :=
  let '(run, rest) := span_path s in
  match rest with
  | EmptyString => true
  | _ => negb (String.eqb run "") && compatible rest "}}"
  end.

(** Some text after [u] makes a token of [name] begin where [u] begins. *)
Definition may_begin (u name : string) : bool :=
  match strip_prefix (opener name) u with
  | Some s => may_follow s
  | None => compatible u (opener name)
  end.

(** No token begins in [s], whatever text follows [s]: [s] holds no token
    and does not end with the beginning of one. *)
Fixpoint token_free (s : string) : bool :=
  match s with
  | EmptyString => true
  | String _ r =>
      negb (existsb (may_begin s) (event_names ++ state_names)) && token_free r
  end.

(** [source in names]. *)
Definition is_in (names : list string) (source : string) : bool :=
  existsb (String.eqb source) names.

Definition same_token (a p : string) (t : string * string) : bool :=
  String.eqb (fst t) a && String.eqb (snd t) p.

(** The tokens a pass over [names] finds, in order. *)
Definition active_tokens (names : list string) (segments : list segment)
  : list (string * string) :=
  flat_map (fun g => match g with
                     | Token source key_path =>
                         if is_in names source then [(source, key_path)] else []
                     | Text _ => []
                     end) segments.

Section Segments.
Variable getattr_walk : value -> list string -> result (option string).

(** One pass: the tokens of [names] become the text read from [data]. *)
Definition resolve_segment (names : list string) (data : value) (g : segment)
  : segment :=
  match g with
  | Token source key_path =>
      if is_in names source then Text (replacement getattr_walk data key_path) else g
  | Text _ => g
  end.

(** No token begins in plain text; a token has one of the four names, a
    proper path, and, for the names of the pass, a replacement in which no
    token begins. *)
Definition well_formed (names : list string) (data : value) (g : segment) : Prop :=
  match g with
  | Text s => token_free s = true
  | Token source key_path =>
      In source (event_names ++ state_names) /\ is_key_path key_path /\
      (is_in names source = true ->
       token_free (replacement getattr_walk data key_path) = true)
  end.

(** The string in the middle of a pass: the tokens in [done] are replaced. *)
Definition partial_segment (data : value) (done : list (string * string))
  (g : segment) : segment :=
  match g with
  | Token source key_path =>
      if existsb (same_token source key_path) done
      then Text (replacement getattr_walk data key_path) else g
  | Text _ => g
  end.

(** What the two passes are to make of a cut template. *)
Definition resolved_segment (event_data project_state : value) (g : segment)
  : string :=
  match g with
  | Text s => s
  | Token source key_path =>
      if is_in event_names source
      then replacement getattr_walk event_data key_path
      else replacement getattr_walk project_state key_path
  end.

Fixpoint resolved (event_data project_state : value) (segments : list segment)
  : string :=
  match segments with
  | [] => ""
  | g :: rest =>
      resolved_segment event_data project_state g
      ++ resolved event_data project_state rest
  end.

(** The cut is the one the two passes make: the plain text is plain (no
    token begins in it), a token has one of the four names and a proper
    path, and no token begins in the text that replaces it. *)
Definition resolvable (event_data project_state : value) (g : segment) : Prop :=
  match g with
  | Text s => token_free s = true
  | Token source key_path =>
      is_key_path key_path /\
      ((In source event_names /\
        token_free (replacement getattr_walk event_data key_path) = true) \/
       (In source state_names /\
        token_free (replacement getattr_walk project_state key_path) = true))
  end.

End Segments.

(** Every segment is found in a map and is not null: the walk ends on [w]. *)
Inductive reaches : list string -> value -> value -> Prop :=
| reaches_here : forall v, reaches [] v v
| reaches_step : forall part rest v d item w,
    as_dict v = Some d -> lookup part d = Some item -> item <> VNone ->
    reaches rest item w -> reaches (part :: rest) v w.

(** Some segment is missing from its map, or null. *)
Inductive stops : list string -> value -> Prop :=
| stops_missing : forall part rest v d,
    as_dict v = Some d -> lookup part d = None -> stops (part :: rest) v
| stops_null : forall part rest v d,
    as_dict v = Some d -> lookup part d = Some VNone -> stops (part :: rest) v
| stops_later : forall part rest v d item,
    as_dict v = Some d -> lookup part d = Some item -> item <> VNone ->
    stops rest item -> stops (part :: rest) v.

(** The walk comes to [w], which is not a map, with the segments [parts]
    still to look up. *)
Inductive leaves_maps : list string -> value -> value -> list string -> Prop :=
| leaves_here : forall part rest v,
    as_dict v = None -> leaves_maps (part :: rest) v v (part :: rest)
| leaves_later : forall part rest v d item w parts,
    as_dict v = Some d -> lookup part d = Some item -> item <> VNone ->
    leaves_maps rest item w parts -> leaves_maps (part :: rest) v w parts.

(** *** Delegation and retries *)

(** The retry counter of a context, read without writing. *)
Definition retry_counter (state : value) (agent_name ctx : string) : option value :=
  match as_dict state with
  | None => None
  | Some s =>
      if String.eqb agent_name "Quality Guardian" then
        match lookup "module_test_retries" s with
        | Some (VDefaultDict r) =>
            Some (match lookup ctx r with Some x => x | None => VInt 0 end)
        | Some (VDict r) => lookup ctx r
        | _ => None
        end
      else lookup "deployment_retries" s
  end.

(** The shape [__init__] gives the state: the retry ledger and the context
    ledger are in place. *)
Definition ready (state : value) : Prop :=
  exists s retries contexts deployment,
    state = VDict s /\
    lookup "module_test_retries" s = Some (VDefaultDict retries) /\
    lookup "current_task_contexts" s = Some (VDict contexts) /\
    lookup "deployment_retries" s = Some deployment.

(** Between [o] and [o'] one task was put at the end of the inbox of
    [agent_name], under the context [c]. *)
Definition delivered (o o' : orchestrator) (agent_name c : string) (payload : dict)
  : Prop :=
  exists a a' m,
    find_agent agent_name (agents o) = Some a /\
    find_agent agent_name (agents o') = Some a' /\
    inbox a' = (inbox a ++ [m])%list /\
    type m = "task" /\ sender m = "Orchestrator" /\ context_id m = VStr c /\
    as_dict (content m) = Some payload.

(** [action.get('content', {})]. *)
Definition content_template (fields : dict) : value :=
  match lookup "content" fields with Some t => t | None => VDict [] end.

(** The context [c] was never seen by the retry ledger: it has no entry in
    [module_test_retries]. *)
Definition unseen (state : value) (c : string) : Prop :=
  exists s retries,
    state = VDict s /\
    lookup "module_test_retries" s = Some (VDefaultDict retries) /\
    lookup c retries = None.

(** The global counter [deployment_retries] stands at [count]. *)
Definition deployment_retries (state : value) (count : value) : Prop :=
  exists s, state = VDict s /\ lookup "deployment_retries" s = Some count.

(** The lines logged between [o] and [o'], with who logged them. *)
Definition cycle_lines (o o' : orchestrator) : list (string * string) :=
  map (fun e => (origin e, line e)) (skipn (length (log o)) (log o')).

(** A [status_update] content that reports a failure. *)
Definition is_failure (v : value) : Prop :=
  exists fields, v = VDict fields /\ lookup "status" fields = Some (VStr "failed").

End Spec.

(** ** Concrete rule tables, events and orchestrators *)

Module Example.
Import Py Monad WorkflowEngine Workflow Spec.

(** A supply of identifiers and a handler that always succeeds. *)
Definition uuid4 (n : nat) : string := "uuid-" ++ string_of_Z (Z.of_nat n).

(** A stand-in for the interpreter's own text of an attribute found on
    data. No path of the examples below names an attribute of the value it
    comes to, so none of them consults it. *)
Definition attribute_text (v : value) (parts : list string) : result (option string) :=
  Ok (Some ("<attribute " ++ join "." parts ++ " of " ++ type_name v ++ " object>")).

Definition completes (_ : string) (kb _ : value) : outcome * value :=
  (Returned (VDict [("status", VStr "completed")]), kb).

Definition set_status (text : string) : value :=
  VDict [("type", VStr "update_state"); ("path", VStr "status"); ("value", VStr text)].

(** Three handlers for one event kind: the first asks for a failed
    result, the other two both match a completed one. *)
Definition failed_handler : value :=
  VDict [ ("conditions",
           VDict [("event_data", VDict [("content.status", VStr "failed")])]);
          ("actions", VList [set_status "QA failed"]) ].

Definition first_handler : value :=
  VDict [ ("conditions",
           VDict [ ("event_data", VDict [("content.status", VStr "completed")]);
                   ("project_state", VDict [("current_phase", VStr "Initiation")]) ]);
          ("actions", VList [set_status "First"]) ].

Definition second_handler : value :=
  VDict [ ("conditions", VDict []); ("actions", VList [set_status "Second"]) ].

Definition rules : dict :=
  [("agent_result", VList [failed_handler; first_handler; second_handler])].

Definition completed_event : value :=
  VDict [ ("sender", VStr "Code Sage"); ("type", VStr "result");
          ("content", VDict [("status", VStr "completed")]);
          ("context_id", VStr "ctx-1") ].

Definition completed_store : store := (completed_event, initial_project_state).

(** An action list with a check in the middle. *)
Definition check_modules : value :=
  VDict [("type", VStr "check_condition"); ("condition_type", VStr "all_modules_completed")].

Definition attached (action : dict) (s : store) : value :=
  VDict (action ++ [("_event_data", fst s); ("_project_state", snd s)]).

Definition state_with_modules (statuses : dict) : value :=
  VDict [("code_modules_status", VDict statuses)].

(** A delegation that reuses the context of the event. *)
Definition retry_tests : value :=
  VDict [ ("type", VStr "delegate_task"); ("agent", VStr "Quality Guardian");
          ("task", VStr "run_tests");
          ("content", VDict [("module_name", VStr "{{event.content.module_name}}")]);
          ("use_event_context_id", VBool true) ].

Definition failed_event : value :=
  VDict [ ("sender", VStr "Quality Guardian"); ("type", VStr "result");
          ("content", VDict [("status", VStr "failed"); ("module_name", VStr "auth")]);
          ("context_id", VStr "ctx-1") ].

(** A state in which the tests of the context [ctx-1] were retried twice. *)
Definition retried_state : value :=
  match initial_project_state with
  | VDict s => VDict (assoc_set "module_test_retries" (VDefaultDict [("ctx-1", VInt 2)]) s)
  | v => v
  end.

Definition retried : orchestrator := set_project_state (__init__ []) retried_state.

(** A deployment retry counted by the rules, and a deployment delegated
    without a context of its own. *)
Definition count_deployment_retry : value :=
  VDict [ ("type", VStr "update_state"); ("path", VStr "deployment_retries");
          ("value", VInt 1) ].

Definition deploy : value :=
  VDict [ ("type", VStr "delegate_task"); ("agent", VStr "Deployment Master");
          ("task", VStr "deploy"); ("content", VDict [("target", VStr "cloud")]) ].

(** An orchestrator whose Code Sage has one task queued. *)
Definition queued_task : message :=
  {| message_id := None; sender := "Orchestrator"; recipient := None;
     type := "task";
     content := VDict [("module_name", VStr "auth"); ("task_name", VStr "implement")];
     context_id := VStr "ctx-1" |}.

Definition code_sage : agent :=
  {| name := "Code Sage"; inbox := [queued_task]; knowledge_base := VDict [] |}.

Definition busy : orchestrator :=
  set_agents (__init__ [])
    (update_agent "Code Sage" (fun _ => code_sage) (agents (__init__ []))).

(** The same task sent without a context id, as [send_message] does by
    default. *)
Definition task_without_context : message :=
  {| message_id := Some "m-1"; sender := "Dream Weaver"; recipient := Some "Code Sage";
     type := "task";
     content := VDict [("module_name", VStr "auth"); ("task_name", VStr "implement")];
     context_id := VNone |}.

Definition stuck : orchestrator :=
  set_agents (__init__ [])
    (update_agent "Code Sage"
       (fun a => {| name := name a; inbox := [task_without_context];
                    knowledge_base := knowledge_base a |})
       (agents (__init__ []))).

(** A rule table whose only handler delegates, on a human input, a task to
    the Code Sage; and an orchestrator with one human response pending. *)
Definition human_rules : dict :=
  [("human_input",
    VList [VDict [("actions",
                   VList [VDict [ ("type", VStr "delegate_task");
                                  ("agent", VStr "Code Sage");
                                  ("task", VStr "implement");
                                  ("use_event_context_id", VBool true) ]])]])].

Definition awaiting : orchestrator :=
  set_human_outbox (__init__ human_rules) [(VStr "go ahead", VStr "ctx-1")].

(** A notice with an event token and a state token. *)
Definition notice : list segment :=
  [Text "Module "; Token "event" "content.module_name";
   Text " failed QA, see "; Token "state" "final_app_url"; Text "."].

(** A template with braces of its own, a placeholder that is no token,
    and a token whose value is a map. *)
Definition report : list segment :=
  [Text "{'result': "; Token "result" "content"; Text ", 'site': {{site}}}"].

(** An event whose note holds the text of a state token. *)
Definition quoting_event : value :=
  VDict [ ("content", VDict [("note", VStr "see {{state.status}}")]);
          ("context_id", VStr "ctx-1") ].

End Example.

(** ** String methods *)

Module Text.
Import Py WorkflowEngine.

(** [c.isspace()] for a character below 256: the ASCII blanks and
    separators, the next-line control [\x85] and the no-break space
    [\xa0]. *)
Definition is_space (c : ascii) : bool :=
  let n := nat_of_ascii c in
  (Nat.leb 9 n && Nat.leb n 13) || (Nat.leb 28 n && Nat.leb n 31) || Nat.eqb n 32 ||
  Nat.eqb n 133 || Nat.eqb n 160.

Fixpoint lstrip_with (p : ascii -> bool) (s : string) : string :=
  match s with
  | EmptyString => EmptyString
  | String c r => if p c then lstrip_with p r else s
  end.

Fixpoint rstrip_with (p : ascii -> bool) (s : string) : string :=
  match s with
  | EmptyString => EmptyString
  | String c r =>
      match rstrip_with p r with
      | EmptyString => if p c then EmptyString else String c EmptyString
      | kept => String c kept
      end
  end.

(** [s.strip()]. *)
Definition strip (s : string) : string := lstrip_with is_space (rstrip_with is_space s).

(** [s.strip('.')]. *)
Definition strip_dots (s : string) : string :=
  lstrip_with (Ascii.eqb ".") (rstrip_with (Ascii.eqb ".") s).

(** The capital letters below 256 are [A]-[Z] and [\xc0]-[\xde] without
    the sign [\xd7]; the small letter is 32 further. *)
Definition lower_char (c : ascii) : ascii :=
  let n := nat_of_ascii c in
  if (Nat.leb 65 n && Nat.leb n 90) || (Nat.leb 192 n && Nat.leb n 214)
     || (Nat.leb 216 n && Nat.leb n 222)
  then ascii_of_nat (n + 32) else c.

(** [s.lower()]. *)
Fixpoint lower (s : string) : string :=
  match s with
  | EmptyString => EmptyString
  | String c r => String (lower_char c) (lower r)
  end.

(** [s.startswith(p)]. *)
Definition startswith (p s : string) : bool := String.prefix p s.

(** [s.replace(old, new, 1)]. *)
Fixpoint replace_first (old new s : string) : string :=
  match strip_prefix old s with
  | Some rest => new ++ rest
  | None =>
      match s with
      | EmptyString => EmptyString
      | String c r => String c (replace_first old new r)
      end
  end.

(** [bool(s)] of a string. *)
Definition nonempty (s : string) : bool := negb (String.eqb s "").

Definition newline : ascii := ascii_of_nat 10.

(** [s.split('\n')]. *)
Definition lines (s : string) : list string := split_on newline s.

(** [[x.strip() for x in s.split(',') if x.strip()]]. *)
Definition comma_parts (s : string) : list string :=
  filter nonempty (map strip (split_on "," s)).

(** The text before and after the first occurrence of [sep] in [s]. *)
Fixpoint partition (sep s : string) : option (string * string) :=
  match strip_prefix sep s with
  | Some rest => Some (EmptyString, rest)
  | None =>
      match s with
      | EmptyString => None
      | String c r =>
          match partition sep r with
          | Some (before, rest) => Some (String c before, rest)
          | None => None
          end
      end
  end.

(** [sub in s] for strings. *)
Definition occurs (sub s : string) : bool :=
  match partition sub s with Some _ => true | None => false end.

(** [s] without its last character, when that is [c]. *)
Fixpoint drop_final (c : ascii) (s : string) : option string :=
  match s with
  | EmptyString => None
  | String a EmptyString => if Ascii.eqb a c then Some EmptyString else None
  | String a r =>
      match drop_final c r with
      | Some kept => Some (String a kept)
      | None => None
      end
  end.

End Text.

(** ** The agents' parsers (ai_app_builder_workflow.py)

    An agent's [process_task] asks the language model for a text and reads
    its answer line by line. The call to the model is outside the model of
    the code: [process_task] is given what [generate_response_with_llm]
    returned, or the exception it raised. What an agent prints is given as
    the list of its [_log] lines. *)

Module Agents.
Import Py WorkflowEngine Workflow Text.

Definition warn (who text : string) (values : list value) : log_entry :=
  {| origin := who; line := text; data := values |}.

(** *** The knowledge base of an agent *)

(** [update_knowledge_base]: [self.knowledge_base[key] = value]. *)
Definition update_knowledge_base (a : agent) (key : string) (x : value) : result agent :=
  match py_setitem (knowledge_base a) key x with
  | Ok kb => Ok {| name := name a; inbox := inbox a; knowledge_base := kb |}
  | Raise e => Raise e
  end.

(** [get_knowledge]: [self.knowledge_base.get(key)]. *)
Definition get_knowledge (a : agent) (key : string) : result value :=
  py_get (knowledge_base a) key VNone.

(** *** Dream Weaver *)

Module DreamWeaver.

Record concept : Type := {
  purpose : string;
  target_users : string;
  features : list string;
  monetization_strategy : string
}.

(** The body of [for line in lines]; [features_section] is the flag. *)
Definition parse_line (acc : concept * bool) (raw : string) : concept * bool :=
  let '(c, features_section) := acc in
  let line := strip raw in
  if startswith "Purpose:" line then
    let purpose_text := strip (py_replace "Purpose:" "" line) in
    ((if nonempty purpose_text
      then {| purpose := purpose_text; target_users := target_users c;
              features := features c;
              monetization_strategy := monetization_strategy c |}
      else c), false)
  else if startswith "Target Users:" line then
    ({| purpose := purpose c;
        target_users := strip (py_replace "Target Users:" "" line);
        features := features c;
        monetization_strategy := monetization_strategy c |}, false)
  else if startswith "Features:" line then (c, true)
  else if startswith "- " line && features_section then
    let feature := strip (py_replace "- " "" line) in
    ((if nonempty feature
      then {| purpose := purpose c; target_users := target_users c;
              features := (features c ++ [feature])%list;
              monetization_strategy := monetization_strategy c |}
      else c), features_section)
  else if startswith "Monetization Strategy:" line then
    ({| purpose := purpose c; target_users := target_users c;
        features := features c;
        monetization_strategy :=
          strip (py_replace "Monetization Strategy:" "" line) |}, false)
  else acc.

Definition initial (user_idea_fallback : string) : concept :=
  {| purpose := strip_dots user_idea_fallback;
     target_users := "Various users.";
     features := [];
     monetization_strategy := "Undefined." |}.

(** The two fallbacks after the loop. *)
Definition finish (user_idea_fallback : string) (c : concept)
  : concept * list log_entry :=
  let '(fs, warnings) :=
    match features c with
    | [] => (["Basic Functionality"; "User Interface"],
             [warn "Dream Weaver"
                "WARNING: No features parsed from LLM response. Using fallback features."
                []])
    | fs => (fs, [])
    end in
  ({| purpose :=
        (if startswith "an innovative app to enhance" (lower (purpose c))
         then strip_dots user_idea_fallback ++ " App Concept"
         else purpose c);
      target_users := target_users c;
      features := fs;
      monetization_strategy := monetization_strategy c |}, warnings).

(** [_parse_llm_concept_response]: the concept and what was logged. *)
Definition _parse_llm_concept_response (response_text user_idea_fallback : string)
  : concept * list log_entry :=
  finish user_idea_fallback
    (fst (fold_left parse_line (lines response_text)
            (initial user_idea_fallback, false))).

(** The dictionary the method returns. *)
Definition to_value (c : concept) : value :=
  VDict [ ("purpose", VStr (purpose c));
          ("target_users", VStr (target_users c));
          ("features", VList (map VStr (features c)));
          ("monetization_strategy", VStr (monetization_strategy c)) ].

End DreamWeaver.

(** *** Master Builder *)

Module MasterBuilder.

Record blueprint : Type := {
  architecture_type : string;
  modules : list string;
  api_specs_summary : string;
  security_considerations : list string
}.

(** [tech_stack["backend"]] and [tech_stack["frontend"]]; the third entry
    is ['database'] resp. ['styling']. *)
Record layer : Type := {
  language : string;
  framework : string;
  third : string
}.

Record tech_stack : Type := {
  backend : layer;
  frontend : layer;
  cloud_provider : string;
  ci_cd_tool : string
}.

Inductive section : Type := NoSection | InBlueprint | InTechStack.

Definition undefined_layer : layer :=
  {| language := "Undefined"; framework := "Undefined"; third := "Undefined" |}.

(** The three branches on [len(parts)]; with no part the entry stays. *)
Definition layer_of (parts : list string) (old : layer) : layer :=
  match parts with
  | a :: b :: c :: _ => {| language := a; framework := b; third := c |}
  | [a; b] => {| language := a; framework := b; third := "Undefined" |}
  | [a] => {| language := a; framework := "Undefined"; third := "Undefined" |}
  | [] => old
  end.

Definition blueprint_line (line : string) (b : blueprint) : blueprint :=
  let low := lower line in
  if startswith "architecture type:" low then
    {| architecture_type := strip (replace_first "Architecture Type:" "" line);
       modules := modules b; api_specs_summary := api_specs_summary b;
       security_considerations := security_considerations b |}
  else if startswith "modules:" low then
    {| architecture_type := architecture_type b;
       modules := firstn 10 (comma_parts (strip (replace_first "Modules:" "" line)));
       api_specs_summary := api_specs_summary b;
       security_considerations := security_considerations b |}
  else if startswith "api specs summary:" low then
    {| architecture_type := architecture_type b; modules := modules b;
       api_specs_summary := strip (replace_first "API Specs Summary:" "" line);
       security_considerations := security_considerations b |}
  else if startswith "security considerations:" low then
    {| architecture_type := architecture_type b; modules := modules b;
       api_specs_summary := api_specs_summary b;
       security_considerations :=
         firstn 10
           (comma_parts (strip (replace_first "Security Considerations:" "" line))) |}
  else b.

Definition tech_stack_line (line : string) (t : tech_stack) : tech_stack :=
  let low := lower line in
  if startswith "backend:" low then
    {| backend := layer_of (comma_parts (replace_first "Backend:" "" line)) (backend t);
       frontend := frontend t; cloud_provider := cloud_provider t;
       ci_cd_tool := ci_cd_tool t |}
  else if startswith "frontend:" low then
    {| backend := backend t;
       frontend := layer_of (comma_parts (replace_first "Frontend:" "" line)) (frontend t);
       cloud_provider := cloud_provider t; ci_cd_tool := ci_cd_tool t |}
  else if startswith "cloud provider:" low then
    {| backend := backend t; frontend := frontend t;
       cloud_provider := strip (replace_first "Cloud Provider:" "" line);
       ci_cd_tool := ci_cd_tool t |}
  else if startswith "ci/cd tool:" low then
    {| backend := backend t; frontend := frontend t;
       cloud_provider := cloud_provider t;
       ci_cd_tool := strip (replace_first "CI/CD Tool:" "" line) |}
  else t.

(** The body of [for line in lines]. *)
Definition parse_line (acc : blueprint * tech_stack * section) (raw : string)
  : blueprint * tech_stack * section :=
  let '(b, t, current_section) := acc in
  let line := strip raw in
  if startswith "blueprint:" (lower line) then (b, t, InBlueprint)
  else if startswith "tech stack:" (lower line) then (b, t, InTechStack)
  else match current_section with
       | InBlueprint => (blueprint_line line b, t, current_section)
       | InTechStack => (b, tech_stack_line line t, current_section)
       | NoSection => acc
       end.

Definition initial : blueprint * tech_stack * section :=
  ({| architecture_type := "Undefined"; modules := [];
      api_specs_summary := "Undefined"; security_considerations := [] |},
   {| backend := undefined_layer; frontend := undefined_layer;
      cloud_provider := "Undefined"; ci_cd_tool := "Undefined" |},
   NoSection).

(** The two fallbacks after the loop. *)
Definition finish (b : blueprint) (t : tech_stack)
  : blueprint * tech_stack * list log_entry :=
  let '(b', w1) :=
    match modules b with
    | [] => ({| architecture_type := architecture_type b;
                modules := ["CoreService"];
                api_specs_summary := api_specs_summary b;
                security_considerations := security_considerations b |},
             [warn "Master Builder"
                "WARNING: No modules parsed from LLM response. Using fallback module."
                []])
    | _ => (b, [])
    end in
  if String.eqb (language (backend t)) "Undefined"
     && String.eqb (language (frontend t)) "Undefined"
  then (b',
        {| backend := {| language := "Python"; framework := "Flask";
                         third := "SQLite" |};
           frontend := {| language := "HTML"; framework := "None"; third := "CSS" |};
           cloud_provider := cloud_provider t; ci_cd_tool := ci_cd_tool t |},
        (w1 ++ [warn "Master Builder"
                  "WARNING: No tech stack parsed from LLM response. Using fallback tech stack."
                  []])%list)
  else (b', t, w1).

(** [_parse_llm_architecture_response]: the blueprint, the tech stack and
    what was logged. *)
Definition _parse_llm_architecture_response (response_text : string)
  : blueprint * tech_stack * list log_entry :=
  let '(b, t, _) := fold_left parse_line (lines response_text) initial in
  finish b t.

Definition blueprint_value (b : blueprint) : value :=
  VDict [ ("architecture_type", VStr (architecture_type b));
          ("modules", VList (map VStr (modules b)));
          ("api_specs_summary", VStr (api_specs_summary b));
          ("security_considerations",
           VList (map VStr (security_considerations b))) ].

Definition layer_value (third_key : string) (l : layer) : value :=
  VDict [ ("language", VStr (language l)); ("framework", VStr (framework l));
          (third_key, VStr (third l)) ].

Definition tech_stack_value (t : tech_stack) : value :=
  VDict [ ("backend", layer_value "database" (backend t));
          ("frontend", layer_value "styling" (frontend t));
          ("cloud_provider", VStr (cloud_provider t));
          ("ci_cd_tool", VStr (ci_cd_tool t)) ].

End MasterBuilder.

(** *** Quality Guardian *)

Module QualityGuardian.

Record report_state : Type := {
  status : string;
  bugs : list value;
  performance_notes : string;
  security_notes : string;
  in_bugs : bool;
  logged : list log_entry
}.

(** [re.match(r"^- Description: (.*?)\. Severity: (.*?)\. Module: (.*?)\.$", line)]
    on a line without a newline: the three groups. The lazy groups end at
    the first separator; a later separator cannot help, since what follows
    it is an end of the same line. *)
Definition match_bug (line : string) : option (string * string * string) :=
  match strip_prefix "- Description: " line with
  | None => None
  | Some r1 =>
      match partition ". Severity: " r1 with
      | None => None
      | Some (description, r2) =>
          match partition ". Module: " r2 with
          | None => None
          | Some (severity, r3) =>
              match drop_final "." r3 with
              | Some module => Some (description, severity, module)
              | None => None
              end
          end
      end
  end.

Definition bug_value (groups : string * string * string) : value :=
  let '(description, severity, module) := groups in
  VDict [ ("description", VStr (strip description));
          ("severity", VStr (strip severity));
          ("module", VStr (strip module)) ].

(** The body of [for line in lines]. *)
Definition parse_line (st : report_state) (raw : string) : report_state :=
  let line := strip raw in
  let low := lower line in
  if startswith "status:" low then
    {| status := strip (replace_first "Status:" "" line); bugs := bugs st;
       performance_notes := performance_notes st;
       security_notes := security_notes st; in_bugs := in_bugs st;
       logged := logged st |}
  else if startswith "bugs found:" low then
    {| status := status st; bugs := bugs st;
       performance_notes := performance_notes st;
       security_notes := security_notes st; in_bugs := true;
       logged := logged st |}
  else if in_bugs st && startswith "- " line then
    match match_bug line with
    | Some groups =>
        {| status := status st; bugs := (bugs st ++ [bug_value groups])%list;
           performance_notes := performance_notes st;
           security_notes := security_notes st; in_bugs := in_bugs st;
           logged := logged st |}
    | None =>
        {| status := status st; bugs := bugs st;
           performance_notes := performance_notes st;
           security_notes := security_notes st; in_bugs := in_bugs st;
           logged := (logged st ++
                      [warn "Quality Guardian" "WARNING: Could not parse bug line: {}"
                         [VStr line]])%list |}
    end
  else if startswith "performance notes:" low then
    {| status := status st; bugs := bugs st;
       performance_notes := strip (replace_first "Performance Notes:" "" line);
       security_notes := security_notes st; in_bugs := false;
       logged := logged st |}
  else if startswith "security notes:" low then
    {| status := status st; bugs := bugs st;
       performance_notes := performance_notes st;
       security_notes := strip (replace_first "Security Notes:" "" line);
       in_bugs := false; logged := logged st |}
  else st.

(** "Ensure status reflects bugs found": the status reported and the line
    logged with it. *)
Definition settle (parsed : string) (found : list value) : string * list log_entry :=
  let parsed_status_valid :=
    String.eqb parsed "passed" || String.eqb parsed "failed_with_bugs" in
  let has_bugs := match found with [] => false | _ => true end in
  if has_bugs && (negb parsed_status_valid || negb (String.eqb parsed "failed_with_bugs"))
  then ("failed_with_bugs",
        [warn "Quality Guardian"
           "Status corrected to 'failed_with_bugs' due to bugs found: {}"
           [VList found]])
  else if negb has_bugs && parsed_status_valid && String.eqb parsed "failed_with_bugs"
  then ("passed",
        [warn "Quality Guardian"
           "Status corrected to 'passed' as no bugs were found despite LLM claiming failure."
           []])
  else if negb parsed_status_valid
  then ("failed",
        [warn "Quality Guardian"
           "WARNING: Unrecognized status '{}' from LLM. Defaulting to 'failed'."
           [VStr "failed"]])
  else (parsed, []).

(** [process_task]: the result content, the knowledge base afterwards and
    what was logged. *)
Definition process_task (generated : result string) (kb task_content : value)
  : result (value * value * list log_entry) :=
  match py_get task_content "task_name" VNone with
  | Raise e => Raise e
  | Ok task_name =>
      let get k default :=
        match py_get task_content k default with Ok x => x | Raise _ => default end in
      let code_ref := get "code_ref" (VStr "N/A") in
      let test_scope := get "test_scope" (VStr "unit") in
      let module_name := get "module_name" (VStr "unknown_module") in
      let retry_attempt := get "retry_attempt" (VInt 0) in
      let started :=
        warn "Quality Guardian" "Running {} tests on module '{}' ({}). Attempt: {}"
          [test_scope; module_name; code_ref; retry_attempt] in
      match generated with
      | Raise e => Raise e
      | Ok llm_response =>
          let st :=
            fold_left parse_line (lines llm_response)
              {| status := "passed"; bugs := []; performance_notes := "N/A";
                 security_notes := "N/A"; in_bugs := false; logged := [] |} in
          let '(final_status, corrected) := settle (status st) (bugs st) in
          let report :=
            VDict [ ("status", VStr final_status);
                    ("bugs_found", VList (bugs st));
                    ("performance_notes", VStr (performance_notes st));
                    ("security_notes", VStr (security_notes st));
                    ("test_scope", test_scope);
                    ("module_name", module_name) ] in
          match py_setitem kb
                  ("test_report_" ++ py_str module_name ++ "_" ++ py_str test_scope)
                  report with
          | Raise e => Raise e
          | Ok kb' =>
              Ok (VDict [ ("task_name", task_name); ("module_name", module_name);
                          ("status", VStr "completed"); ("test_report", report) ],
                  kb',
                  ([started] ++ logged st ++ corrected ++
                   [warn "Quality Guardian" "Testing completed for {} ({}). Status: {}"
                      [module_name; test_scope; VStr final_status]])%list)
          end
      end
  end.

End QualityGuardian.

(** *** Deployment Master *)

Module DeploymentMaster.

Record deployment : Type := {
  deployment_status : string;
  app_url : string;
  monitoring_url : string
}.

(** The body of [for line in lines]. *)
Definition parse_line (d : deployment) (raw : string) : deployment :=
  let line := strip raw in
  let low := lower line in
  if startswith "deployment status:" low then
    {| deployment_status := strip (replace_first "Deployment Status:" "" line);
       app_url := app_url d; monitoring_url := monitoring_url d |}
  else if startswith "app url:" low then
    {| deployment_status := deployment_status d;
       app_url := strip (replace_first "App URL:" "" line);
       monitoring_url := monitoring_url d |}
  else if startswith "monitoring dashboard url:" low then
    {| deployment_status := deployment_status d; app_url := app_url d;
       monitoring_url := strip (replace_first "Monitoring Dashboard URL:" "" line) |}
  else d.

(** [process_task]: the result content, the knowledge base afterwards and
    what was logged. *)
Definition process_task (generated : result string) (kb task_content : value)
  : result (value * value * list log_entry) :=
  match py_get task_content "task_name" VNone with
  | Raise e => Raise e
  | Ok task_name =>
      let get k default :=
        match py_get task_content k default with Ok x => x | Raise _ => default end in
      let app_package_ref := get "app_package_ref" (VStr "final_app_build.zip") in
      let deployment_target := get "deployment_target" (VStr "cloud") in
      let environment := get "environment" (VStr "prod") in
      let retry_attempt := get "retry_attempt" (VInt 0) in
      let started :=
        warn "Deployment Master" "Deploying '{}' to {} in {} environment. Attempt: {}"
          [app_package_ref; deployment_target; environment; retry_attempt] in
      match generated with
      | Raise e => Raise e
      | Ok llm_response =>
          let d :=
            fold_left parse_line (lines llm_response)
              {| deployment_status := "failure"; app_url := "N/A";
                 monitoring_url := "N/A" |} in
          let recognised :=
            String.eqb (deployment_status d) "success"
            || String.eqb (deployment_status d) "failure" in
          let final_status := if recognised then deployment_status d else "failure" in
          let unrecognised :=
            if recognised then []
            else [warn "Deployment Master"
                    "WARNING: Unrecognized deployment status '{}' from LLM. Defaulting to 'failure'."
                    [VStr (deployment_status d)]] in
          match py_setitem kb "last_deployment_url" (VStr (app_url d)) with
          | Raise e => Raise e
          | Ok kb' =>
              Ok (VDict [ ("task_name", task_name); ("status", VStr "completed");
                          ("deployment_status", VStr final_status);
                          ("app_url", VStr (app_url d));
                          ("monitoring_dashboard_url", VStr (monitoring_url d)) ],
                  kb',
                  ([started] ++ unrecognised ++
                   [if String.eqb final_status "failure"
                    then warn "Deployment Master" "Deployment failed." []
                    else warn "Deployment Master" "Deployment successful! App URL: {}"
                           [VStr (app_url d)]])%list)
          end
      end
  end.

End DeploymentMaster.

End Agents.
(** ** model_router.py

    Which model an agent talks to. The settings file is given as what
    [json.load] made of it, or [None] when there is no such file, it cannot
    be read or it is not JSON. [_load_settings] is memoised by
    [lru_cache(maxsize=1)]: it runs once, on the file as it is then. *)

Module ModelRouter.
Import Py WorkflowEngine Workflow Text.

Definition GLOBAL_PROVIDER_CONFIGS : dict :=
  [ ("lm_studio",
     VDict [ ("display_name", VStr "LM Studio (Local)");
             ("api_base", VStr "http://localhost:1234/v1");
             ("api_key", VStr "lm-studio") ]);
    ("openrouter",
     VDict [ ("display_name", VStr "OpenRouter");
             ("api_base", VStr "https://openrouter.ai/api/v1");
             ("api_key_env", VStr "OPENROUTER_API_KEY") ]);
    ("openai",
     VDict [ ("display_name", VStr "OpenAI");
             ("api_base", VStr "https://api.openai.com/v1");
             ("api_key_env", VStr "OPENAI_API_KEY") ]);
    ("ollama",
     VDict [ ("display_name", VStr "Ollama (Local)");
             ("api_base", VStr "http://localhost:11434/api") ]);
    ("lmdeploy",
     VDict [ ("display_name", VStr "LMDeploy (Local)");
             ("api_base", VStr "http://localhost:23333/v1") ]) ].

(** [_get_default_fallback_settings()["overrides"]["default"]]. *)
Definition default_override : value :=
  VDict [ ("provider", VStr "lm_studio");
          ("model", VStr "Mistral-Nemo-Instruct-12B");
          ("port", VInt 1234) ].

Definition _get_default_fallback_settings : value :=
  VDict [ ("provider", VStr "lm_studio");
          ("overrides", VDict [ ("default", default_override) ]) ].

(** [k in v] for a string [k]: a key of a dictionary, an element of a
    list, a part of a string. *)
Definition py_in (k : string) (v : value) : result bool :=
  match v with
  | VDict d | VDefaultDict d =>
      Ok (match lookup k d with Some _ => true | None => false end)
  | VList l => Ok (existsb (fun x => py_eq x (VStr k)) l)
  | VStr s => Ok (occurs k s)
  | _ => Raise TypeError
  end.

(** The [ValueError] of the structure check. *)
Definition malformed : exn :=
  Exception "Settings file is malformed: missing 'provider' or 'overrides' key.".

(** The body of [with open(SETTINGS_FILE, 'r') as f:] on the parsed
    settings; the default entry is written into the loaded object. *)
Definition checked_settings (settings : value) : result value :=
  match py_in "provider" settings with
  | Raise e => Raise e
  | Ok has_provider =>
      match (if has_provider then py_in "overrides" settings else Ok false) with
      | Raise e => Raise e
      | Ok false => Raise malformed
      | Ok true =>
          match config_item settings "overrides" with
          | Raise e => Raise e
          | Ok overrides =>
              match py_in "default" overrides with
              | Raise e => Raise e
              | Ok true => Ok settings
              | Ok false =>
                  match py_setitem overrides "default" default_override with
                  | Raise e => Raise e
                  | Ok overrides' => py_setitem settings "overrides" overrides'
                  end
              end
          end
      end
  end.

(** [_load_settings]: every failure gives the fallback settings. *)
Definition _load_settings (file : option value) : value :=
  match file with
  | None => _get_default_fallback_settings
  | Some settings =>
      match checked_settings settings with
      | Ok loaded => loaded
      | Raise _ => _get_default_fallback_settings
      end
  end.

(** The override used when neither the agent nor ['default'] has one. *)
Definition hardcoded_fallback : value :=
  VDict [ ("provider", VStr "lm_studio");
          ("model", VStr "Mistral-Nemo-Instruct-12B");
          ("port", VInt 1234) ].

(** [GLOBAL_PROVIDER_CONFIGS.get(effective_provider_name)]; a list or a
    dictionary is unhashable. *)
Definition provider_config (effective : value) : result (option (string * dict)) :=
  match effective with
  | VStr p =>
      Ok (match lookup p GLOBAL_PROVIDER_CONFIGS with
          | Some (VDict cfg) => Some (p, cfg)
          | _ => None
          end)
  | VList _ | VDict _ | VDefaultDict _ => Raise TypeError
  | _ => Ok None
  end.

Definition lm_studio_config : dict :=
  match lookup "lm_studio" GLOBAL_PROVIDER_CONFIGS with
  | Some (VDict cfg) => cfg
  | _ => []
  end.

Definition or_none (x : option value) : value :=
  match x with Some v => v | None => VNone end.

(** [type(v)] as an f-string shows it. *)
Definition class_text (v : value) : string := "<class '" ++ type_name v ++ "'>".

Section Router.

(** [os.getenv]. *)
Variable getenv : string -> option string.

Definition get_model_details_for_agent (settings : value) (agent_name : string)
  : result value :=
  match py_get settings "overrides" (VDict []) with
  | Raise e => Raise e
  | Ok overrides =>
      match as_dict overrides with
      | None =>
          Raise (Exception ("Expected 'overrides' to be a dict but got "
                              ++ class_text overrides ++ ": " ++ py_str overrides))
      | Some entries =>
          let agent_config :=
            match or_none (lookup agent_name entries) with
            | VNone =>
                match or_none (lookup "default" entries) with
                | VNone => hardcoded_fallback
                | config => config
                end
            | config => config
            end in
          match py_get agent_config "provider" VNone with
          | Raise e => Raise e
          | Ok named =>
              match (match named with
                     | VNone => py_get settings "provider" (VStr "lm_studio")
                     | _ => Ok named
                     end) with
              | Raise e => Raise e
              | Ok effective =>
                  match provider_config effective with
                  | Raise e => Raise e
                  | Ok found =>
                      let '(effective_provider_name, provider_base_config) :=
                        match found with
                        | Some known => known
                        | None => ("lm_studio", lm_studio_config)
                        end in
                      match config_item (VDict provider_base_config) "api_base" with
                      | Raise e => Raise e
                      | Ok base =>
                          let key := or_none (lookup "api_key" provider_base_config) in
                          let get k default :=
                            match py_get agent_config k default with
                            | Ok x => x
                            | Raise _ => default
                            end in
                          let model_name :=
                            match get "model" VNone with
                            | VNone => VStr "generic-model-fallback"
                            | m => m
                            end in
                          let routed : result (value * value) :=
                            if String.eqb effective_provider_name "lm_studio" then
                              let custom_port := get "port" VNone in
                              let custom_host := get "host" (VStr "localhost") in
                              Ok ((if truthy custom_port
                                   then VStr ("http://" ++ py_str custom_host ++ ":"
                                                ++ py_str custom_port ++ "/v1")
                                   else base), key)
                            else if existsb (String.eqb effective_provider_name)
                                      ["openrouter"; "openai"; "ollama"; "lmdeploy"]
                            then
                              let api_key_env_var :=
                                or_none (lookup "api_key_env" provider_base_config) in
                              if truthy api_key_env_var then
                                match api_key_env_var with
                                | VStr name =>
                                    Ok (base, match getenv name with
                                              | Some k => VStr k
                                              | None => VNone
                                              end)
                                | _ => Raise TypeError
                                end
                              else
                                Ok (base,
                                    match lookup "api_key" provider_base_config with
                                    | Some k => k
                                    | None => key
                                    end)
                            else Ok (base, key) in
                          match routed with
                          | Raise e => Raise e
                          | Ok (api_base, api_key) =>
                              Ok (VDict [ ("provider", VStr effective_provider_name);
                                          ("api_base", api_base);
                                          ("model_name", model_name);
                                          ("api_key", api_key) ])
                          end
                      end
                  end
              end
          end
      end
  end.

(** [sorted] on strings. *)
Fixpoint insert_sorted (x : string) (l : list string) : list string :=
  match l with
  | [] => [x]
  | y :: rest => if String.leb x y then x :: l else y :: insert_sorted x rest
  end.

Definition sorted (l : list string) : list string := fold_right insert_sorted [] l.

(** [GLOBAL_PROVIDER_CONFIGS.get(p, {}).get("display_name", p)]. *)
Definition display_name (provider : value) : value :=
  match provider with
  | VStr p =>
      match lookup p GLOBAL_PROVIDER_CONFIGS with
      | Some (VDict cfg) =>
          match lookup "display_name" cfg with Some n => n | None => provider end
      | _ => provider
      end
  | _ => provider
  end.

(** The row shown for an agent, from its model details. *)
Definition assignment (details : value) : result value :=
  match config_item details "provider" with
  | Raise e => Raise e
  | Ok provider =>
      match config_item details "model_name" with
      | Raise e => Raise e
      | Ok model =>
          match config_item details "api_base" with
          | Raise e => Raise e
          | Ok base =>
              Ok (VDict [ ("provider", display_name provider); ("model", model);
                          ("api_base", base) ])
          end
      end
  end.

(** [for agent_name in sorted(all_agent_names_in_settings)]. *)
Fixpoint assign_each (settings : value) (names : list string) (assignments : dict)
  : result dict :=
  match names with
  | [] => Ok assignments
  | agent_name :: rest =>
      if String.eqb agent_name "default" then assign_each settings rest assignments
      else
        match get_model_details_for_agent settings agent_name with
        | Raise e => Raise e
        | Ok details =>
            match assignment details with
            | Raise e => Raise e
            | Ok row => assign_each settings rest (assoc_set agent_name row assignments)
            end
        end
  end.

Definition fallback_row_name : string := "Default Fallback (Unassigned Agents)".

Definition list_agent_model_assignments (settings : value) : result value :=
  match config_item settings "overrides" with
  | Raise e => Raise e
  | Ok overrides =>
      match as_dict overrides with
      | None => Raise AttributeError
      | Some entries =>
          match assign_each settings (sorted (map fst entries)) [] with
          | Raise e => Raise e
          | Ok assignments =>
              match get_model_details_for_agent settings
                      "NON_EXISTENT_AGENT_TO_TRIGGER_DEFAULT_FALLBACK" with
              | Raise e => Raise e
              | Ok default_details =>
                  match assignment default_details with
                  | Raise e => Raise e
                  | Ok row => Ok (VDict (assoc_set fallback_row_name row assignments))
                  end
              end
          end
      end
  end.

End Router.

End ModelRouter.

(** ** run_gui.py

    The callback of the answer widgets. [st.rerun()], which redraws the
    page, is outside the model. *)

Module Gui.
Import Py Monad WorkflowEngine Workflow.
Open Scope monad_scope.

Section Callback.
Variable getattr_walk : value -> list string -> result (option string).
Variable uuid4 : nat -> string.
Variable process_task : string -> value -> value -> outcome * value.

(** [handle_user_response]. The inbox is a [collections.deque], whose
    [pop] takes no argument: [human_inbox.pop(i)] raises [TypeError]. *)
Definition handle_user_response (response ctx : value) : M orchestrator unit :=
  o <- get ;;
  (if truthy ctx then
     if existsb (fun prompt => py_eq (human_context_id prompt) ctx) (human_inbox o)
     then raise TypeError
     else ret tt
   else
     match human_inbox o with
     | [] => ret tt
     | _ :: rest => put (set_human_inbox o rest)
     end) ;;;
  get_human_input getattr_walk uuid4 response ctx ;;;
  run_simulation_cycle getattr_walk uuid4 process_task.

End Callback.

End Gui.

(** ** Vocabulary of the further statements *)

Module Terms.
Import Py Monad WorkflowEngine Workflow Text Agents ModelRouter.

(** A parsed item: not empty and without blanks around it. *)
Definition tidy (s : string) : Prop := s <> "" /\ strip s = s.

(** A parsed list: at most ten tidy items. *)
Definition bounded (l : list string) : Prop := Forall tidy l /\ length l <= 10.

(** No line of the answer carries one of the labels of a concept brief. *)
Definition unlabelled (response_text : string) : Prop :=
  Forall (fun raw =>
            let line := strip raw in
            startswith "Purpose:" line = false /\
            startswith "Target Users:" line = false /\
            startswith "Features:" line = false /\
            startswith "Monetization Strategy:" line = false)
         (lines response_text).

(** The settings give the agent no override of its own:
    [overrides.get(agent_name)] is [None]. *)
Definition unassigned (settings : value) (agent_name : string) : Prop :=
  forall overrides entries,
    py_get settings "overrides" (VDict []) = Ok overrides ->
    as_dict overrides = Some entries ->
    lookup agent_name entries = None \/ lookup agent_name entries = Some VNone.

(** Where the API key of a provider comes from: the dummy key of LM Studio,
    the environment for the two hosted providers, none for the others. *)
Definition key_for (getenv : string -> option string) (provider : string) : value :=
  let env name := match getenv name with Some k => VStr k | None => VNone end in
  if String.eqb provider "lm_studio" then VStr "lm-studio"
  else if String.eqb provider "openrouter" then env "OPENROUTER_API_KEY"
  else if String.eqb provider "openai" then env "OPENAI_API_KEY"
  else VNone.

(** The settings file cannot be used: it is missing or not JSON, or what
    was parsed is not a dictionary with the two main keys. *)
Definition unusable (file : option value) : Prop :=
  match file with
  | None => True
  | Some settings =>
      match as_dict settings with
      | None => True
      | Some d => lookup "provider" d = None \/ lookup "overrides" d = None
      end
  end.

(** [l'] is [l] with entries added at its end. *)
Definition appended {A : Type} (l l' : list A) : Prop := exists more, l' = (l ++ more)%list.

(** [l'] is what is left of [l] when entries were taken from its head. *)
Definition remainder {A : Type} (l l' : list A) : Prop :=
  exists taken, l = (taken ++ l')%list.

(** The same agent, with messages added at the end of its inbox. *)
Definition inbox_grows (a a' : agent) : Prop :=
  name a' = name a /\ knowledge_base a' = knowledge_base a /\
  appended (inbox a) (inbox a').

(** From [o] to [o'] nothing was taken away: the rule table, the internal
    queue and the human outbox are as they were, every agent has what it
    had in its inbox, and messages for the human, log lines and
    identifiers were only added. *)
Definition only_adds (o o' : orchestrator) : Prop :=
  workflow_events o' = workflow_events o /\
  internal_message_queue o' = internal_message_queue o /\
  human_outbox o' = human_outbox o /\
  Forall2 inbox_grows (agents o) (agents o') /\
  appended (human_inbox o) (human_inbox o') /\
  appended (log o) (log o') /\
  uuid_count o <= uuid_count o'.

(** What holds from [o] to [o'] across a whole cycle: the rule table and
    the agents registered are the same, the log and the identifiers drawn
    only grow, and the human outbox only loses entries from its head. *)
Definition cycle_keeps (o o' : orchestrator) : Prop :=
  workflow_events o' = workflow_events o /\
  map name (agents o') = map name (agents o) /\
  appended (log o) (log o') /\
  uuid_count o <= uuid_count o' /\
  remainder (human_outbox o) (human_outbox o').

(** Every run of [m] from [o] that returns ends in a state related to [o]. *)
Definition keeps {A : Type} (R : orchestrator -> orchestrator -> Prop)
  (o : orchestrator) (m : M orchestrator A) : Prop :=
  forall a o', m o = Ok (a, o') -> R o o'.

(** A row of the summary of assignments: the three entries shown. *)
Definition is_row (v : value) : Prop :=
  exists provider model base,
    v = VDict [ ("provider", provider); ("model", model); ("api_base", base) ].

(** The workflow configuration cannot be used: the file is missing or not
    JSON, or what was parsed has no dictionary under ['events']. *)
Definition unusable_config (document : option value) : Prop :=
  match document with
  | None => True
  | Some config =>
      match as_dict config with
      | None => True
      | Some d =>
          match lookup "events" d with
          | Some events => as_dict events = None
          | None => True
          end
      end
  end.

(** An action the orchestrator does not carry out: its type is not one of
    the three it knows, or an entry the type needs is missing. *)
Definition not_carried_out (fields : dict) : Prop :=
  let entry k := or_none (lookup k fields) in
  (entry "type" = VStr "update_state" /\
   (entry "path" = VNone \/ entry "value" = VNone)) \/
  (entry "type" = VStr "send_human_message" /\
   (truthy (entry "message_type") = false \/ entry "content" = VNone)) \/
  (entry "type" = VStr "delegate_task" /\
   (truthy (entry "agent") = false \/ truthy (entry "task") = false)) \/
  (entry "type" <> VStr "update_state" /\
   entry "type" <> VStr "send_human_message" /\
   entry "type" <> VStr "delegate_task").

(** [o] with one more line in its log. *)
Definition logged_once (o o' : orchestrator) : Prop :=
  exists entry, origin entry = "Orchestrator" /\ o' = set_log o (log o ++ [entry])%list.

(** A line that gives a deployment status, and the status it gives. *)
Definition status_line (raw given : string) : Prop :=
  startswith "deployment status:" (lower (strip raw)) = true /\
  strip (replace_first "Deployment Status:" "" (strip raw)) = given.

End Terms.

(** ** Vocabulary of the phases of a cycle *)

Module Phases.
Import Py Monad WorkflowEngine Workflow.

(** From [o] to [o'] lines were logged and nothing else was done. *)
Definition only_logs (o o' : orchestrator) : Prop :=
  exists more, o' = set_log o (log o ++ more)%list.

(** The same agent with the message at the head of its inbox taken; an
    empty inbox stays empty. *)
Definition took_one (a a' : agent) : Prop :=
  name a' = name a /\ inbox a' = tl (inbox a).

(** The agents of [o'] are those of [o] with the inboxes they had. *)
Definition same_inboxes (o o' : orchestrator) : Prop :=
  Forall2 (fun a a' => name a' = name a /\ inbox a' = inbox a) (agents o) (agents o').

(** The agents named in [names] took one message each, the others none. *)
Definition took_turns (names : list string) (l l' : list agent) : Prop :=
  Forall2 (fun a a' =>
             name a' = name a /\
             inbox a' = if existsb (String.eqb (name a)) names
                        then tl (inbox a) else inbox a) l l'.

End Phases.

(** ** Concrete answers, settings and orchestrators *)

Module Sample.
Import Py Monad WorkflowEngine Workflow Text Agents ModelRouter.

(** Lines joined by newlines, as a language model answers. *)
Fixpoint text_of (l : list string) : string :=
  match l with
  | [] => ""
  | [x] => x
  | x :: rest => x ++ String newline (text_of rest)
  end.

(** What [generate_response_with_llm] returns when the call failed. *)
Definition failed_call : string := "ERROR: LLM call failed: connection refused".

(** A test report with one bug, whose status line claims success. *)
Definition bug_report : string :=
  text_of [ "Status: passed"; "Bugs Found:";
            "- Description: Login fails. Severity: high. Module: auth.";
            "Performance Notes: Looks okay."; "Security Notes: None." ].

Definition test_task : value :=
  VDict [ ("task_name", VStr "run_tests"); ("module_name", VStr "auth");
          ("retry_attempt", VInt 1) ].

(** A deployment report with the label in small letters. *)
Definition deployed : string :=
  text_of [ "deployment status: success"; "App URL: https://app.example/ctx-1" ].

Definition deploy_task : value :=
  VDict [ ("task_name", VStr "deploy"); ("environment", VStr "prod") ].

(** Settings with a default and one agent on a hosted provider. *)
Definition settings : value :=
  VDict [ ("provider", VStr "openrouter");
          ("overrides",
           VDict [ ("default", VDict [ ("provider", VStr "lm_studio");
                                       ("model", VStr "local-model");
                                       ("port", VInt 4321) ]);
                   ("Code Sage", VDict [ ("provider", VStr "openai");
                                         ("model", VStr "gpt-4o") ]) ]) ].

Definition getenv (name : string) : option string :=
  if String.eqb name "OPENAI_API_KEY" then Some "sk-test" else None.

(** An orchestrator with one result waiting in the internal queue. *)
Definition reply : message :=
  {| message_id := Some "uuid-0"; sender := "Code Sage";
     recipient := Some "Orchestrator"; type := "result";
     content := VDict [("status", VStr "completed"); ("task_name", VStr "implement")];
     context_id := VStr "ctx-1" |}.

Definition replied : orchestrator := set_internal_message_queue (__init__ []) [reply].

(** An orchestrator whose Code Sage has a notice in its inbox. *)
Definition notice : message :=
  {| message_id := Some "uuid-0"; sender := "Orchestrator";
     recipient := Some "Code Sage"; type := "notice";
     content := VDict [("text", VStr "Build is green.")];
     context_id := VStr "ctx-1" |}.

Definition noted_sage : agent :=
  {| name := "Code Sage"; inbox := [notice]; knowledge_base := VDict [] |}.

Definition noted : orchestrator :=
  set_agents (__init__ [])
    (update_agent "Code Sage" (fun _ => noted_sage) (agents (__init__ []))).

(** An orchestrator with one question queued for the human. *)
Definition question : human_message :=
  {| human_type := VStr "QUESTION"; human_content := VStr "Approve the concept?";
     human_options := VList [VStr "yes"; VStr "no"];
     human_context_id := VStr "ctx-1" |}.

Definition asking : orchestrator := set_human_inbox (__init__ []) [question].

End Sample.

(** * Properties *)

Import Py Monad WorkflowEngine Workflow Spec.

(** Unfolds the monad operations, leaving the plain state-passing term. *)
Ltac munfold :=
  cbv beta iota delta [Monad.bind Monad.lift Monad.ret Monad.get Monad.put
                         Monad.modify Monad.raise].

(** ** Dictionaries *)

Lemma lookup_assoc_set_ne k k' v d :
  k <> k' -> lookup k (assoc_set k' v d) = lookup k d.
Proof.
  intros Hne. induction d as [|[k0 v0] d IH]; cbn [assoc_set lookup].
  - destruct (String.eqb_spec k k'); [contradiction|reflexivity].
  - destruct (String.eqb_spec k' k0); cbn [lookup].
    + destruct (String.eqb_spec k k0); [congruence|reflexivity].
    + destruct (String.eqb_spec k k0); [reflexivity|assumption].
Qed.

Lemma lookup_assoc_set_eq k v d : lookup k (assoc_set k v d) = Some v.
Proof.
  induction d as [|[k0 v0] d IH]; cbn [assoc_set lookup].
  - now rewrite String.eqb_refl.
  - destruct (String.eqb_spec k k0); cbn [lookup].
    + subst. now rewrite String.eqb_refl.
    + destruct (String.eqb_spec k k0); [contradiction|assumption].
Qed.

Lemma assoc_set_same k v d : lookup k d = Some v -> assoc_set k v d = d.
Proof.
  induction d as [|[k0 v0] d IH]; cbn [assoc_set lookup]; [discriminate|].
  destruct (String.eqb_spec k k0).
  - intros [= ->]. reflexivity.
  - intros H. now rewrite IH.
Qed.

Lemma as_dict_with_entries v d e :
  as_dict v = Some d -> as_dict (with_entries v e) = Some e.
Proof. destruct v; cbn; intros H; try discriminate H; reflexivity. Qed.

Lemma py_eq_str v s : py_eq v (VStr s) = true <-> v = VStr s.
Proof.
  destruct v; cbn; try (split; [discriminate|congruence]).
  split; [|intros [= ->]; apply String.eqb_refl].
  intros H. apply String.eqb_eq in H. congruence.
Qed.

Lemma truthy_str c : c <> "" -> truthy (VStr c) = true.
Proof.
  intros H. cbn [truthy]. destruct (String.eqb_spec c ""); [contradiction|reflexivity].
Qed.

(** ** The monad *)

Lemma bind_ok {S A B} (m : M S A) (f : A -> M S B) s a s' :
  m s = Ok (a, s') -> bind m f s = f a s'.
Proof. unfold bind. intros ->. reflexivity. Qed.

Lemma lift_ok {S A} (r : result A) (a : A) (s : S) : r = Ok a -> lift r s = Ok (a, s).
Proof. intros ->. reflexivity. Qed.

(** ** Handler selection *)

Section Selection.

Lemma scan_handlers_rejected pre : forall rest s s1,
  all_rejected pre s s1 ->
  scan_handlers (pre ++ rest) s = scan_handlers rest s1.
Proof.
  induction pre as [|h pre IH]; intros rest s s1 H; inversion H; subst.
  - reflexivity.
  - cbn [app scan_handlers]. erewrite bind_ok by eassumption. now apply IH.
Qed.

(** C1. First match wins. Let the handlers of the event kind be
    [pre ++ handler :: post], where every handler of [pre], checked in
    document order, is rejected and [handler] is the first whose conditions
    hold. Then [process_event] returns exactly the actions of [handler],
    and it does so whatever handlers follow it: they are not evaluated, so
    none of their actions can appear, also when their conditions hold too.
    When every handler is rejected, or the kind has no handlers, the result
    is the empty list. (Conditions are checked on the store as the earlier
    checks left it.) *)
Theorem process_event_first_match events event_type s hs :
  py_iter (event_handlers events event_type) = Ok hs ->
  (forall pre handler post s1 s2,
      hs = (pre ++ handler :: post)%list ->
      all_rejected pre s s1 ->
      conditions_met handler s1 = Ok (true, s2) ->
      process_event events event_type s = matched_actions handler s2 /\
      forall post',
        scan_handlers (pre ++ handler :: post')%list s = matched_actions handler s2) /\
  (forall s1, all_rejected hs s s1 -> process_event events event_type s = Ok ([], s1)) /\
  (lookup event_type events = None -> process_event events event_type s = Ok ([], s)).
Proof.
  intros Hhs.
  assert (Hpe : process_event events event_type s = scan_handlers hs s).
  { unfold process_event, bind, lift. rewrite Hhs. reflexivity. }
  rewrite Hpe. split; [|split].
  - intros pre handler post s1 s2 -> Hrej Hmet.
    assert (Hscan : forall post',
               scan_handlers (pre ++ handler :: post') s = matched_actions handler s2).
    { intros post'. rewrite (scan_handlers_rejected pre _ s s1 Hrej).
      cbn [scan_handlers]. erewrite bind_ok by eassumption. reflexivity. }
    split; [apply Hscan|exact Hscan].
  - intros s1 Hrej. rewrite <- (app_nil_r hs).
    rewrite (scan_handlers_rejected hs [] s s1 Hrej). reflexivity.
  - intros Hnone. unfold event_handlers in Hhs. rewrite Hnone in Hhs.
    cbn in Hhs. inversion Hhs. reflexivity.
Qed.

End Selection.

(** ** Inline conditions *)

Section InlineConditions.

Lemma collect_check_false check rest acc s :
  is_check_condition check ->
  _evaluate_condition check (snd s) = Ok false ->
  collect_actions (check :: rest) acc s = Ok (acc, s).
Proof.
  intros (ty & Hty & Heq) Hev. cbn [collect_actions].
  erewrite bind_ok by (apply lift_ok; eassumption). rewrite Heq.
  unfold bind at 1, get. unfold bind at 1. unfold lift at 1. rewrite Hev. reflexivity.
Qed.

Lemma collect_check_true check rest acc s :
  is_check_condition check ->
  _evaluate_condition check (snd s) = Ok true ->
  collect_actions (check :: rest) acc s = collect_actions rest acc s.
Proof.
  intros (ty & Hty & Heq) Hev. cbn [collect_actions].
  erewrite bind_ok by (apply lift_ok; eassumption). rewrite Heq.
  unfold bind at 1, get. unfold bind at 1. unfold lift at 1. rewrite Hev. reflexivity.
Qed.

Lemma collect_plain action rest acc s ty executable :
  config_item action "type" = Ok ty ->
  py_eq ty (VStr "check_condition") = false ->
  executable_action action s = Ok executable ->
  collect_actions (action :: rest) acc s = collect_actions rest (acc ++ [executable]) s.
Proof.
  intros Hty Heq Hex. cbn [collect_actions].
  erewrite bind_ok by (apply lift_ok; eassumption). rewrite Heq.
  unfold bind at 1, get. unfold bind at 1. unfold lift at 1. rewrite Hex. reflexivity.
Qed.

Lemma collect_through before : forall acc s out rest,
  collected before acc s out ->
  collect_actions (before ++ rest) acc s = collect_actions rest out s.
Proof.
  induction before as [|a before IH]; intros acc s out rest H; inversion H; subst.
  - reflexivity.
  - cbn [app]. rewrite collect_check_true by assumption. now apply IH.
  - cbn [app]. erewrite collect_plain by eassumption. now apply IH.
Qed.

Lemma config_item_setitem v k k' x v' :
  k <> k' -> py_setitem v k' x = Ok v' -> config_item v' k = config_item v k.
Proof.
  intros Hne. unfold py_setitem, config_item, py_getitem.
  destruct v; cbn; try discriminate; intros [= <-]; cbn;
    rewrite lookup_assoc_set_ne by assumption;
    destruct (lookup k d); reflexivity.
Qed.

Lemma executable_action_type action s executable :
  executable_action action s = Ok executable ->
  config_item executable "type" = config_item action "type".
Proof.
  unfold executable_action. destruct (py_copy action) as [copy|] eqn:Hc; [|discriminate].
  destruct (py_setitem copy "_event_data" (fst s)) as [c1|] eqn:H1; [|discriminate].
  intros H2.
  rewrite (config_item_setitem _ "type" "_project_state" _ _ ltac:(discriminate) H2).
  rewrite (config_item_setitem _ "type" "_event_data" _ _ ltac:(discriminate) H1).
  destruct action; cbn in Hc; try discriminate; now inversion Hc.
Qed.

Lemma collect_actions_no_check l : forall acc s out s',
  collect_actions l acc s = Ok (out, s') ->
  Forall (fun a => ~ is_check_condition a) acc ->
  Forall (fun a => ~ is_check_condition a) out.
Proof.
  induction l as [|a l IH]; intros acc s out s' H Hacc.
  - cbn in H. inversion H; subst. assumption.
  - cbn [collect_actions] in H. unfold bind at 1 in H. unfold lift at 1 in H.
    destruct (config_item a "type") as [ty|] eqn:Hty; [|discriminate].
    destruct (py_eq ty (VStr "check_condition")) eqn:Heq.
    + unfold bind at 1, get in H. unfold bind at 1 in H. unfold lift at 1 in H.
      destruct (_evaluate_condition a (snd s)) as [[|]|]; cbn in H; try discriminate.
      * eapply IH; eassumption.
      * inversion H; subst. assumption.
    + unfold bind at 1, get in H. unfold bind at 1 in H. unfold lift at 1 in H.
      destruct (executable_action a s) as [ex|] eqn:Hex; [|discriminate].
      eapply IH; [eassumption|]. apply Forall_app. split; [assumption|].
      constructor; [|constructor]. intros (ty' & Hty' & Heq').
      rewrite (executable_action_type _ _ _ Hex) in Hty'. congruence.
Qed.


End InlineConditions.

(** ** The built-in condition *)

Section BuiltinCondition.

Lemma all_completed_spec statuses :
  all_completed statuses = true <->
  Forall (fun kv => snd kv = VStr "completed") statuses.
Proof.
  induction statuses as [|[k v] l IH]; cbn [all_completed].
  - split; auto.
  - destruct (py_eq v (VStr "completed")) eqn:E; cbn [negb].
    + apply py_eq_str in E. subst. rewrite IH. split; intros H.
      * constructor; auto.
      * now inversion H.
    + split; [discriminate|]. intros H. inversion H as [|? ? Hv ?]; subst.
      cbn [snd] in Hv. subst v. cbn in E. discriminate.
Qed.

Lemma truthy_dict v d : as_dict v = Some d -> truthy v = negb (Nat.eqb (length d) 0).
Proof.
  destruct v; cbn; intros H; try discriminate H; inversion H; subst;
    destruct d; reflexivity.
Qed.

(** C8. [all_modules_completed] evaluates true iff the state's
    [code_modules_status] is a non-empty map whose every value equals
    ["completed"]. An absent or empty map gives false; so does any entry
    with another value; so does any other condition type. *)
Theorem all_modules_completed_iff action project_state :
  (_evaluate_condition action project_state = Ok true <->
   exists config state module_statuses statuses,
     as_dict action = Some config /\
     lookup "condition_type" config = Some (VStr "all_modules_completed") /\
     as_dict project_state = Some state /\
     lookup "code_modules_status" state = Some module_statuses /\
     as_dict module_statuses = Some statuses /\
     completed_map statuses) /\
  (forall config state,
      as_dict action = Some config -> as_dict project_state = Some state ->
      lookup "condition_type" config = Some (VStr "all_modules_completed") ->
      (lookup "code_modules_status" state = None \/
       exists module_statuses,
         lookup "code_modules_status" state = Some module_statuses /\
         as_dict module_statuses = Some []) ->
      _evaluate_condition action project_state = Ok false) /\
  (forall config state module_statuses statuses,
      as_dict action = Some config -> as_dict project_state = Some state ->
      lookup "condition_type" config = Some (VStr "all_modules_completed") ->
      lookup "code_modules_status" state = Some module_statuses ->
      as_dict module_statuses = Some statuses ->
      Exists (fun kv => snd kv <> VStr "completed") statuses ->
      _evaluate_condition action project_state = Ok false) /\
  (forall config,
      as_dict action = Some config ->
      lookup "condition_type" config <> Some (VStr "all_modules_completed") ->
      _evaluate_condition action project_state = Ok false).
Proof.
  unfold _evaluate_condition, py_get. split; [split|split; [|split]].
  - destruct (as_dict action) as [config|] eqn:Ha; [|discriminate].
    destruct (py_eq _ (VStr "all_modules_completed")) eqn:Ety; [|discriminate].
    apply py_eq_str in Ety.
    destruct (as_dict project_state) as [state|] eqn:Hs; [|discriminate].
    destruct (lookup "code_modules_status" state) as [ms|] eqn:Hms; [|discriminate].
    destruct (truthy ms) eqn:Ht; cbn [negb]; [|discriminate].
    destruct (as_dict ms) as [statuses|] eqn:Hd; [|discriminate].
    intros [= Hall]. exists config, state, ms, statuses.
    destruct (lookup "condition_type" config) eqn:Hct; [|discriminate]. subst.
    repeat split; auto.
    + intros ->. rewrite (truthy_dict _ _ Hd) in Ht. discriminate.
    + now apply all_completed_spec.
  - intros (config & state & ms & statuses & Ha & Hct & Hs & Hms & Hd & Hne & Hall).
    rewrite Ha, Hct, Hs, Hms. cbn [py_eq String.eqb Ascii.eqb Bool.eqb].
    rewrite (truthy_dict _ _ Hd), Hd. destruct statuses; [congruence|].
    cbn [length Nat.eqb negb]. f_equal. now apply all_completed_spec.
  - intros config state Ha Hs Hct H. rewrite Ha, Hct, Hs.
    cbn [py_eq String.eqb Ascii.eqb Bool.eqb].
    destruct H as [-> | (ms & -> & Hd)]; [reflexivity|].
    now rewrite (truthy_dict _ _ Hd).
  - intros config state ms statuses Ha Hs Hct Hms Hd Hex.
    rewrite Ha, Hct, Hs, Hms. cbn [py_eq String.eqb Ascii.eqb Bool.eqb].
    rewrite (truthy_dict _ _ Hd), Hd.
    destruct (Nat.eqb (length statuses) 0); cbn [negb]; [reflexivity|].
    f_equal. destruct (all_completed statuses) eqn:E; [|reflexivity].
    apply all_completed_spec in E. apply Exists_exists in Hex.
    destruct Hex as (kv & Hin & Hne). rewrite Forall_forall in E.
    specialize (E kv Hin). contradiction.
  - intros config Ha Hct. rewrite Ha.
    destruct (py_eq _ (VStr "all_modules_completed")) eqn:Ety; [|reflexivity].
    apply py_eq_str in Ety.
    destruct (lookup "condition_type" config); congruence.
Qed.

End BuiltinCondition.

(** ** Conditions as a conjunction *)

Section Conjunction.

Lemma walk_quiet parts : forall cur,
  quiet parts cur = true -> walk parts cur = (resolve parts cur, cur).
Proof.
  induction parts as [|part rest IH]; intros cur Hq; [reflexivity|].
  cbn [walk resolve]. destruct cur; cbn [py_getitem as_dict]; try reflexivity.
  - cbn [quiet] in Hq. destruct (lookup part d) as [item|] eqn:Hl; [|reflexivity].
    rewrite (IH item Hq). unfold store_item. cbn [as_dict with_entries].
    now rewrite assoc_set_same.
  - cbn [quiet] in Hq. destruct (lookup part d) as [item|] eqn:Hl; [|discriminate].
    rewrite (IH item Hq). unfold store_item. cbn [as_dict with_entries].
    now rewrite assoc_set_same.
Qed.

Lemma write_read w s : write w (read w s) s = s.
Proof. destruct w, s; reflexivity. Qed.

Lemma check_pairs_quiet w pairs : forall s,
  forallb (fun kv => quiet (split_dot (fst kv)) (read w s)) pairs = true ->
  check_pairs w pairs s = Ok (forallb (pair_holds (read w s)) pairs, s).
Proof.
  induction pairs as [|[key expected] pairs IH]; intros s Hq; [reflexivity|].
  cbn [forallb fst] in Hq. apply andb_prop in Hq as [Hq1 Hq2].
  cbn [check_pairs]. unfold bind at 1. unfold get at 1.
  rewrite (walk_quiet _ _ Hq1). unfold bind at 1. unfold put at 1.
  rewrite write_read. cbn [forallb]. unfold pair_holds at 1. cbn [fst snd].
  destruct (resolve (split_dot key) (read w s)) as [x|]; [|reflexivity].
  destruct (py_eq x expected); cbn [negb andb]; [|reflexivity].
  now apply IH.
Qed.

Lemma check_groups_quiet groups : forall s,
  forallb (group_quiet s) groups = true ->
  check_groups groups s = Ok (conditions_hold groups s, s).
Proof.
  induction groups as [|[ct cv] groups IH]; intros s Hq; [reflexivity|].
  cbn [forallb] in Hq. apply andb_prop in Hq as [Hq1 Hq2].
  unfold conditions_hold. cbn [forallb check_groups].
  unfold group_quiet, group_holds, group_source in *. cbn [fst snd] in *.
  destruct (String.eqb ct "event_data").
  - destruct (as_dict cv) as [pairs|]; [|reflexivity].
    unfold bind. rewrite (check_pairs_quiet _ _ _ Hq1).
    destruct (forallb (pair_holds (read EventData s)) pairs); cbn [andb]; [|reflexivity].
    now apply IH.
  - destruct (String.eqb ct "project_state"); [|reflexivity].
    destruct (as_dict cv) as [pairs|]; [|reflexivity].
    unfold bind. rewrite (check_pairs_quiet _ _ _ Hq1).
    destruct (forallb (pair_holds (read ProjectState s)) pairs); cbn [andb]; [|reflexivity].
    now apply IH.
Qed.

(** Where no lookup falls on an absent key of a [defaultdict], the check
    writes nothing and is the conjunction over the groups and their
    pairs. *)
Lemma conditions_are_a_conjunction conditions groups s :
  as_dict conditions = Some groups ->
  forallb (group_quiet s) groups = true ->
  _check_conditions conditions s = Ok (conditions_hold groups s, s).
Proof.
  intros Hd Hq. unfold _check_conditions. rewrite Hd.
  destruct (truthy conditions) eqn:Ht; cbn [negb].
  - now apply check_groups_quiet.
  - rewrite (truthy_dict _ _ Hd) in Ht. destruct groups; [reflexivity|discriminate].
Qed.

Lemma conditions_hold_spec groups s :
  conditions_hold groups s = true <->
  Forall (fun g =>
            exists w pairs,
              group_source (fst g) = Some w /\ as_dict (snd g) = Some pairs /\
              Forall (fun kv =>
                        exists x, resolve (split_dot (fst kv)) (read w s) = Some x /\
                                  py_eq x (snd kv) = true) pairs) groups.
Proof.
  unfold conditions_hold. rewrite forallb_forall, Forall_forall.
  split; intros H g Hin; specialize (H g Hin).
  - unfold group_holds in H. destruct (group_source (fst g)) as [w|]; [|discriminate].
    destruct (as_dict (snd g)) as [pairs|]; [|discriminate].
    exists w, pairs. repeat split. rewrite Forall_forall. intros kv Hkv.
    rewrite forallb_forall in H. specialize (H kv Hkv). unfold pair_holds in H.
    destruct (resolve _ _) as [x|]; [|discriminate]. eauto.
  - destruct H as (w & pairs & Hw & Hp & Hall). unfold group_holds. rewrite Hw, Hp.
    rewrite forallb_forall. intros kv Hkv. rewrite Forall_forall in Hall.
    destruct (Hall kv Hkv) as (x & Hx & Heq). unfold pair_holds. now rewrite Hx.
Qed.

(** C2, at the state a fresh orchestrator has. The condition asks that
    [module_test_retries.ctx-9] be [0]. The key ["ctx-9"] is absent from
    the map, yet the check succeeds: the map is a [defaultdict(int)], the
    subscript raises no [KeyError], answers [0] and inserts the key. *)
Theorem check_conditions_absent_retry_key :
  resolve ["module_test_retries"; "ctx-9"] initial_project_state = None /\
  _check_conditions
    (VDict [("project_state", VDict [("module_test_retries.ctx-9", VInt 0)])])
    (VDict [], initial_project_state)
  = Ok (true,
        (VDict [],
         store_item initial_project_state "module_test_retries"
           (VDefaultDict [("ctx-9", VInt 0)]))).
Proof. split; reflexivity. Qed.

End Conjunction.

(** ** Template substitution *)

Section Strings.

Lemma append_assoc (a b c : string) : (a ++ b) ++ c = a ++ (b ++ c).
Proof. induction a as [|x a IH]; cbn; [reflexivity|now rewrite IH]. Qed.

Lemma append_nil_r (a : string) : a ++ "" = a.
Proof. induction a as [|x a IH]; cbn; [reflexivity|now rewrite IH]. Qed.

Lemma brace_free_app a b : brace_free (a ++ b) <-> brace_free a /\ brace_free b.
Proof.
  unfold brace_free. induction a as [|x a IH]; cbn [String.append contains_char].
  - tauto.
  - destruct (Ascii.eqb "{" x); cbn [orb];
      [split; [intros H; discriminate H|intros [H _]; discriminate H]|].
    exact IH.
Qed.

Lemma path_char_not_brace c : is_path_char c = true -> Ascii.eqb "{" c = false.
Proof.
  destruct (Ascii.eqb_spec "{"%char c) as [<-|]; [|reflexivity]. vm_compute. discriminate.
Qed.

Lemma all_path_chars_brace_free p : all_path_chars p = true -> brace_free p.
Proof.
  unfold brace_free. induction p as [|c p IH]; cbn [all_path_chars contains_char];
    [reflexivity|].
  intros H. apply andb_prop in H as [Hc Hp]. rewrite (path_char_not_brace c Hc). cbn [orb]. auto.
Qed.

Lemma span_path_run p : forall tail,
  all_path_chars p = true ->
  span_path tail = ("", tail) ->
  span_path (p ++ tail) = (p, tail).
Proof.
  induction p as [|c p IH]; intros tail Hp Hr; cbn [String.append].
  - exact Hr.
  - cbn [all_path_chars] in Hp. apply andb_prop in Hp as [Hc Hp]. cbn [span_path].
    rewrite Hc. rewrite (IH tail Hp Hr). reflexivity.
Qed.

Lemma strip_prefix_app p s : strip_prefix p (p ++ s) = Some s.
Proof. induction p as [|c p IH]; cbn; [reflexivity|]. now rewrite Ascii.eqb_refl. Qed.

Lemma match_after_token name key_path rest :
  is_key_path key_path ->
  match_after name (name ++ "." ++ key_path ++ "}}" ++ rest) = Some key_path.
Proof.
  intros [Hne Hp]. unfold match_after.
  rewrite <- (append_assoc name "." _). rewrite strip_prefix_app.
  rewrite span_path_run by (auto; reflexivity).
  destruct key_path; [congruence|]. reflexivity.
Qed.

Lemma token_app source key_path rest :
  token source key_path ++ rest = "{{" ++ source ++ "." ++ key_path ++ "}}" ++ rest.
Proof.
  unfold token. rewrite !append_assoc. reflexivity.
Qed.

Lemma match_token_unfold names source key_path rest :
  match_token names (token source key_path ++ rest)
  = match_alternatives names (source ++ "." ++ key_path ++ "}}" ++ rest).
Proof.
  rewrite token_app. unfold match_token. now rewrite strip_prefix_app.
Qed.

Lemma match_token_event source key_path rest :
  In source event_names -> is_key_path key_path ->
  match_token event_names (token source key_path ++ rest) = Some (source, key_path).
Proof.
  intros Hs Hk. rewrite match_token_unfold.
  destruct Hs as [<-|[<-|[]]]; unfold event_names; cbn [match_alternatives].
  - now rewrite (match_after_token "event").
  - replace (match_after "event" _) with (@None string) by reflexivity.
    now rewrite (match_after_token "result").
Qed.

Lemma match_token_state source key_path rest :
  In source state_names -> is_key_path key_path ->
  match_token state_names (token source key_path ++ rest) = Some (source, key_path).
Proof.
  intros Hs Hk. rewrite match_token_unfold.
  destruct Hs as [<-|[<-|[]]]; unfold state_names; cbn [match_alternatives].
  - now rewrite (match_after_token "state").
  - replace (match_after "state" _) with (@None string) by reflexivity.
    now rewrite (match_after_token "project_state").
Qed.

Lemma match_token_other_state source key_path rest :
  In source state_names ->
  match_token event_names (token source key_path ++ rest) = None.
Proof.
  intros Hs. rewrite match_token_unfold.
  destruct Hs as [<-|[<-|[]]]; reflexivity.
Qed.

Lemma match_token_no_brace names c r :
  Ascii.eqb "{" c = false -> match_token names (String c r) = None.
Proof. intros H. unfold match_token. cbn [strip_prefix]. now rewrite H. Qed.

Lemma brace_free_cons c r :
  brace_free (String c r) <-> Ascii.eqb "{" c = false /\ brace_free r.
Proof.
  unfold brace_free. cbn [contains_char]. destruct (Ascii.eqb "{" c); cbn [orb].
  - split; [intros H; discriminate H|intros [H _]; discriminate H].
  - tauto.
Qed.

Lemma findall_brace_free names pre rest :
  brace_free pre -> findall_from names 0 (pre ++ rest) = findall_from names 0 rest.
Proof.
  induction pre as [|c pre IH]; intros H; cbn [String.append]; [reflexivity|].
  apply brace_free_cons in H as [Hc Hp]. cbn [findall_from].
  rewrite match_token_no_brace by assumption. auto.
Qed.

Lemma findall_skip names a : forall rest,
  findall_from names (String.length a) (a ++ rest) = findall_from names 0 rest.
Proof.
  induction a as [|c a IH]; intros rest; cbn [String.append String.length]; [reflexivity|].
  cbn [findall_from]. apply IH.
Qed.

Lemma token_cons source key_path :
  token source key_path = String "{" ("{" ++ source ++ "." ++ key_path ++ "}}").
Proof. reflexivity. Qed.

Lemma findall_at_token names source key_path rest :
  match_token names (token source key_path ++ rest) = Some (source, key_path) ->
  findall_from names 0 (token source key_path ++ rest)
  = (source, key_path) :: findall_from names 0 rest.
Proof.
  intros H. rewrite token_cons in *. cbn [String.append] in *.
  cbn [findall_from]. rewrite H. f_equal.
  rewrite token_cons.
  replace (String.length (String "{" ("{" ++ source ++ "." ++ key_path ++ "}}")) - 1)
    with (String.length ("{" ++ source ++ "." ++ key_path ++ "}}"))
    by (cbn [String.length]; lia).
  apply findall_skip.
Qed.

Lemma prefix_no_brace old c r :
  Ascii.eqb "{" c = false -> String.prefix (String "{" old) (String c r) = false.
Proof.
  intros H. cbn [String.prefix]. destruct (ascii_dec "{" c) as [<-|]; [|reflexivity].
  now rewrite Ascii.eqb_refl in H.
Qed.

Lemma replace_brace_free old new pre rest :
  brace_free pre ->
  replace_from (String "{" old) new 0 (pre ++ rest)
  = pre ++ replace_from (String "{" old) new 0 rest.
Proof.
  induction pre as [|c pre IH]; intros H; cbn [String.append]; [reflexivity|].
  apply brace_free_cons in H as [Hc Hp]. cbn [replace_from].
  rewrite prefix_no_brace by assumption. now rewrite IH.
Qed.

Lemma replace_skip old new a : forall rest,
  replace_from old new (String.length a) (a ++ rest) = replace_from old new 0 rest.
Proof.
  induction a as [|c a IH]; intros rest; cbn [String.append String.length]; [reflexivity|].
  cbn [replace_from]. apply IH.
Qed.

Lemma prefix_app old rest : String.prefix old (old ++ rest) = true.
Proof.
  induction old as [|c old IH]; cbn [String.append String.prefix];
    [destruct rest; reflexivity|].
  destruct (ascii_dec c c); [assumption|congruence].
Qed.

Lemma replace_at c old new rest :
  replace_from (String c old) new 0 (String c old ++ rest)
  = new ++ replace_from (String c old) new 0 rest.
Proof.
  pose proof (prefix_app (String c old) rest) as H.
  cbn [String.append] in *. cbn [replace_from]. rewrite H. f_equal.
  replace (String.length (String c old) - 1) with (String.length old)
    by (cbn [String.length]; lia).
  apply replace_skip.
Qed.

Lemma findall_step_none names c r :
  match_token names (String c r) = None ->
  findall_from names 0 (String c r) = findall_from names 0 r.
Proof. intros H. cbn [findall_from]. now rewrite H. Qed.

Lemma prefix_cancel x : forall y z, String.prefix (x ++ y) (x ++ z) = String.prefix y z.
Proof.
  induction x as [|c x IH]; intros y z; cbn [String.append]; [reflexivity|].
  cbn [String.prefix]. destruct (ascii_dec c c); [apply IH|congruence].
Qed.

Lemma path_char_not_close c : is_path_char c = true -> c <> "}"%char.
Proof. intros H ->. vm_compute in H. discriminate. Qed.

Lemma prefix_key_path p : forall q rest,
  all_path_chars p = true -> all_path_chars q = true ->
  String.prefix (p ++ "}}") (q ++ "}}" ++ rest) = true -> p = q.
Proof.
  induction p as [|c p IH]; intros q rest Hp Hq H.
  - destruct q as [|d q]; [reflexivity|].
    cbn [all_path_chars] in Hq. apply andb_prop in Hq as [Hd _].
    cbn [String.append String.prefix] in H.
    destruct (ascii_dec "}" d) as [<-|]; [|discriminate].
    now apply path_char_not_close in Hd.
  - cbn [all_path_chars] in Hp. apply andb_prop in Hp as [Hc Hp].
    destruct q as [|d q]; cbn [String.append String.prefix] in H.
    + destruct (ascii_dec c "}") as [->|]; [|discriminate].
      now apply path_char_not_close in Hc.
    + cbn [all_path_chars] in Hq. apply andb_prop in Hq as [Hd Hq].
      destruct (ascii_dec c d) as [->|]; [|discriminate].
      f_equal. exact (IH q rest Hp Hq H).
Qed.

Lemma prefix_token a p b q rest :
  In a (event_names ++ state_names) -> In b (event_names ++ state_names) ->
  is_key_path p -> is_key_path q ->
  String.prefix (token a p) (token b q ++ rest) = true -> a = b /\ p = q.
Proof.
  intros Ha Hb [_ Hp] [_ Hq] H. rewrite token_app in H.
  unfold token in H. rewrite (prefix_cancel "{{") in H.
  assert (Hab : a = b).
  { cbn in Ha, Hb.
    destruct Ha as [<-|[<-|[<-|[<-|[]]]]]; destruct Hb as [<-|[<-|[<-|[<-|[]]]]];
      try reflexivity; cbn in H; discriminate H. }
  subst b. split; [reflexivity|].
  rewrite (prefix_cancel a) in H. rewrite (prefix_cancel ".") in H.
  eapply prefix_key_path; eassumption.
Qed.

Lemma name_brace_free a : In a (event_names ++ state_names) -> brace_free a.
Proof. cbn. intros [<-|[<-|[<-|[<-|[]]]]]; reflexivity. Qed.

Lemma token_tail_brace_free a p :
  In a (event_names ++ state_names) -> is_key_path p ->
  brace_free (a ++ "." ++ p ++ "}}").
Proof.
  intros Ha [_ Hp]. apply brace_free_app. split; [now apply name_brace_free|].
  apply (brace_free_app "."). split; [reflexivity|].
  apply brace_free_app. split; [now apply all_path_chars_brace_free|reflexivity].
Qed.

Lemma second_char_not_brace a p old rest :
  In a (event_names ++ state_names) ->
  String.prefix (String "{" (String "{" old)) ("{" ++ a ++ "." ++ p ++ "}}" ++ rest) = false.
Proof.
  cbn. intros [<-|[<-|[<-|[<-|[]]]]]; reflexivity.
Qed.

(** [replace] passes over another token. *)
Lemma replace_other_token a p b q new rest :
  In a (event_names ++ state_names) -> In b (event_names ++ state_names) ->
  is_key_path p -> is_key_path q ->
  (a, p) <> (b, q) ->
  replace_from (token a p) new 0 (token b q ++ rest)
  = token b q ++ replace_from (token a p) new 0 rest.
Proof.
  intros Ha Hb Hp Hq Hne.
  assert (Hpre : String.prefix (token a p) (token b q ++ rest) = false).
  { destruct (String.prefix (token a p) (token b q ++ rest)) eqn:E; [|reflexivity].
    destruct (prefix_token a p b q rest Ha Hb Hp Hq E) as [-> ->]. congruence. }
  pose proof (second_char_not_brace b q (a ++ "." ++ p ++ "}}") rest Hb) as Hsnd.
  pose proof (token_tail_brace_free b q Hb Hq) as Hfree.
  rewrite (token_app b q rest) in *.
  change ("{{" ++ b ++ "." ++ q ++ "}}" ++ rest)
    with (String "{" ("{" ++ b ++ "." ++ q ++ "}}" ++ rest)) in *.
  rewrite (token_cons a p) in *.
  cbn [replace_from]. rewrite Hpre.
  change ("{" ++ b ++ "." ++ q ++ "}}" ++ rest)
    with (String "{" (b ++ "." ++ q ++ "}}" ++ rest)) in *.
  cbn [replace_from].
  change (String "{" ("{" ++ a ++ "." ++ p ++ "}}"))
    with (String "{" (String "{" (a ++ "." ++ p ++ "}}"))) in *.
  rewrite Hsnd.
  assert (E : (b ++ "." ++ q ++ "}}") ++ rest = b ++ "." ++ q ++ "}}" ++ rest)
    by (rewrite !append_assoc; reflexivity).
  rewrite <- E. rewrite replace_brace_free by assumption.
  rewrite token_app, !append_assoc. reflexivity.
Qed.

Lemma match_token_other_event source key_path rest :
  In source event_names ->
  match_token state_names (token source key_path ++ rest) = None.
Proof.
  intros Hs. rewrite match_token_unfold.
  destruct Hs as [<-|[<-|[]]]; reflexivity.
Qed.

(** *** Text in which no token begins *)

Lemma strip_prefix_compatible p : forall u rest t,
  strip_prefix p (u ++ rest) = Some t -> compatible u p = true.
Proof.
  induction p as [|a p IH]; intros u rest t H; [destruct u; reflexivity|].
  destruct u as [|b u]; [reflexivity|].
  cbn [String.append strip_prefix] in H. cbn [compatible].
  rewrite Ascii.eqb_sym. destruct (Ascii.eqb a b); [|discriminate H].
  cbn [andb]. eapply IH. exact H.
Qed.

Lemma strip_prefix_append p q s :
  strip_prefix (p ++ q) s
  = match strip_prefix p s with Some t => strip_prefix q t | None => None end.
Proof.
  revert s. induction p as [|a p IH]; intros s; [reflexivity|].
  cbn [String.append strip_prefix]. destruct s as [|b s]; [reflexivity|].
  destruct (Ascii.eqb a b); [apply IH|reflexivity].
Qed.

Lemma strip_prefix_inv p : forall s t, strip_prefix p s = Some t -> s = p ++ t.
Proof.
  induction p as [|a p IH]; intros s t H; cbn [strip_prefix] in H.
  - now injection H as <-.
  - destruct s as [|b s]; [discriminate H|].
    destruct (Ascii.eqb_spec a b) as [<-|]; [|discriminate H].
    cbn [String.append]. f_equal. now apply IH.
Qed.

Lemma span_path_stops s : forall run r rest,
  span_path s = (run, r) -> r <> "" -> span_path (s ++ rest) = (run, r ++ rest).
Proof.
  induction s as [|c s IH]; intros run r rest H Hr; cbn [span_path] in H.
  - injection H as <- <-. congruence.
  - cbn [String.append span_path]. destruct (is_path_char c) eqn:Hc.
    + destruct (span_path s) as [run' r'] eqn:Hs. injection H as <- <-.
      now rewrite (IH run' r' rest eq_refl Hr).
    + injection H as <- <-. cbn [String.append]. reflexivity.
Qed.

(** A token of [name] that begins where [u] does shows in [u]. *)
Lemma match_after_may_begin name u rest s1 key_path :
  strip_prefix "{{" (u ++ rest) = Some s1 ->
  match_after name s1 = Some key_path ->
  may_begin u name = true.
Proof.
  intros Hopen Hmatch. unfold match_after in Hmatch.
  destruct (strip_prefix (name ++ ".") s1) as [s2|] eqn:Hname; [|discriminate Hmatch].
  assert (Hfull : strip_prefix (opener name) (u ++ rest) = Some s2).
  { unfold opener. rewrite strip_prefix_append, Hopen. exact Hname. }
  unfold may_begin. destruct (strip_prefix (opener name) u) as [s|] eqn:Hu.
  - apply strip_prefix_inv in Hu. subst u.
    rewrite append_assoc, strip_prefix_app in Hfull. injection Hfull as <-.
    unfold may_follow. destruct (span_path s) as [run r] eqn:Hs.
    destruct r as [|c r]; [reflexivity|].
    rewrite (span_path_stops s run (String c r) rest Hs) in Hmatch by discriminate.
    destruct run as [|x run]; [discriminate Hmatch|]. cbn [String.eqb negb andb].
    destruct (strip_prefix "}}" (String c r ++ rest)) as [t|] eqn:Hclose;
      [|discriminate Hmatch].
    eapply strip_prefix_compatible. exact Hclose.
  - eapply strip_prefix_compatible. exact Hfull.
Qed.

Lemma match_alternatives_some names : forall s name key_path,
  match_alternatives names s = Some (name, key_path) ->
  In name names /\ match_after name s = Some key_path.
Proof.
  induction names as [|n names IH]; intros s name key_path H; [discriminate H|].
  cbn [match_alternatives] in H. destruct (match_after n s) as [k|] eqn:Hn.
  - injection H as <- <-. split; [now left|assumption].
  - destruct (IH _ _ _ H) as [Hin Hm]. split; [now right|assumption].
Qed.

Lemma token_free_cons c r :
  token_free (String c r) = true ->
  (forall name, In name (event_names ++ state_names) ->
                may_begin (String c r) name = false) /\
  token_free r = true.
Proof.
  cbn [token_free]. intros H. apply andb_prop in H as [Hhere Hrest].
  split; [|exact Hrest]. intros name Hin.
  destruct (may_begin (String c r) name) eqn:Hb; [|reflexivity].
  apply negb_true_iff in Hhere.
  assert (Hex : existsb (may_begin (String c r)) (event_names ++ state_names) = true)
    by (apply existsb_exists; eauto).
  congruence.
Qed.

Lemma match_token_free names c r rest :
  (forall name, In name names -> In name (event_names ++ state_names)) ->
  (forall name, In name (event_names ++ state_names) ->
                may_begin (String c r) name = false) ->
  match_token names (String c r ++ rest) = None.
Proof.
  intros Hnames Hfree. unfold match_token.
  destruct (strip_prefix "{{" (String c r ++ rest)) as [s1|] eqn:Hopen; [|reflexivity].
  destruct (match_alternatives names s1) as [[name key_path]|] eqn:Halt; [|reflexivity].
  apply match_alternatives_some in Halt as [Hin Hm].
  specialize (Hfree name (Hnames name Hin)).
  rewrite (match_after_may_begin name (String c r) rest s1 key_path Hopen Hm) in Hfree.
  discriminate Hfree.
Qed.

Lemma findall_token_free names pre rest :
  (forall name, In name names -> In name (event_names ++ state_names)) ->
  token_free pre = true ->
  findall_from names 0 (pre ++ rest) = findall_from names 0 rest.
Proof.
  intros Hnames. induction pre as [|c pre IH]; intros H; [reflexivity|].
  apply token_free_cons in H as [Hhere Hrest].
  cbn [String.append].
  rewrite findall_step_none by exact (match_token_free names c pre rest Hnames Hhere).
  auto.
Qed.

Lemma prefix_strip p : forall s, String.prefix p s = true -> exists t, s = p ++ t.
Proof.
  induction p as [|a p IH]; intros s H; [now exists s|].
  destruct s as [|b s]; cbn [String.prefix] in H; [discriminate H|].
  destruct (ascii_dec a b) as [<-|]; [|discriminate H].
  destruct (IH s H) as [t ->]. now exists t.
Qed.

Lemma replace_token_free a p new pre rest :
  In a (event_names ++ state_names) -> is_key_path p ->
  token_free pre = true ->
  replace_from (token a p) new 0 (pre ++ rest)
  = pre ++ replace_from (token a p) new 0 rest.
Proof.
  intros Ha Hp. induction pre as [|c pre IH]; intros H; [reflexivity|].
  apply token_free_cons in H as [Hhere Hrest].
  assert (Hno : String.prefix (token a p) (String c pre ++ rest) = false).
  { destruct (String.prefix (token a p) (String c pre ++ rest)) eqn:E; [|reflexivity].
    apply prefix_strip in E as [t Ht].
    assert (Hopen : strip_prefix "{{" (String c pre ++ rest)
                    = Some (a ++ "." ++ p ++ "}}" ++ t)).
    { rewrite Ht, token_app. apply (strip_prefix_app "{{"). }
    specialize (Hhere a Ha).
    rewrite (match_after_may_begin a (String c pre) rest _ p Hopen
               (match_after_token a p t Hp)) in Hhere.
    discriminate Hhere. }
  cbn [String.append] in Hno |- *. rewrite (token_cons a p) in Hno |- *.
  cbn [replace_from]. rewrite Hno. rewrite <- (token_cons a p). now rewrite IH.
Qed.

Lemma brace_free_token_free s : brace_free s -> token_free s = true.
Proof.
  induction s as [|c s IH]; intros H; [reflexivity|].
  apply brace_free_cons in H as [Hc Hs]. cbn [token_free]. rewrite (IH Hs), andb_true_r.
  apply negb_true_iff. apply not_true_iff_false. intros Hex.
  apply existsb_exists in Hex as (name & Hin & Hb).
  unfold may_begin, opener in Hb. cbn [String.append strip_prefix compatible] in Hb.
  rewrite Hc in Hb. rewrite Ascii.eqb_sym, Hc in Hb. discriminate Hb.
Qed.

End Strings.

Section Passes.
Variable getattr_walk : value -> list string -> result (option string).
Variables (names : list string) (data : value).
Hypothesis names_known : forall a,
  is_in names a = true -> In a (event_names ++ state_names).
Hypothesis names_match : forall a p rest,
  is_in names a = true -> is_key_path p ->
  match_token names (token a p ++ rest) = Some (a, p).
Hypothesis others_pass : forall a p rest,
  In a (event_names ++ state_names) -> is_in names a = false ->
  match_token names (token a p ++ rest) = None.

Lemma names_in name : In name names -> In name (event_names ++ state_names).
Proof.
  intros H. apply names_known. unfold is_in. apply existsb_exists.
  exists name. split; [assumption|apply String.eqb_refl].
Qed.

Lemma findall_other_token a p rest :
  In a (event_names ++ state_names) -> is_key_path p -> is_in names a = false ->
  findall_from names 0 (token a p ++ rest) = findall_from names 0 rest.
Proof.
  intros Ha Hp Hn.
  pose proof (others_pass a p rest Ha Hn) as Hm.
  pose proof (token_tail_brace_free a p Ha Hp) as Hfree.
  rewrite token_app in *.
  change ("{{" ++ a ++ "." ++ p ++ "}}" ++ rest)
    with (String "{" (String "{" (a ++ "." ++ p ++ "}}" ++ rest))) in *.
  rewrite findall_step_none by assumption.
  rewrite findall_step_none
    by (cbn in Ha; destruct Ha as [<-|[<-|[<-|[<-|[]]]]]; reflexivity).
  assert (E : (a ++ "." ++ p ++ "}}") ++ rest = a ++ "." ++ p ++ "}}" ++ rest)
    by (rewrite !append_assoc; reflexivity).
  rewrite <- E. now apply findall_brace_free.
Qed.

Lemma findall_render segments : forall tail,
  Forall (well_formed getattr_walk names data) segments ->
  findall_from names 0 (render segments ++ tail)
  = (active_tokens names segments ++ findall_from names 0 tail)%list.
Proof.
  induction segments as [|g segments IH]; intros tail Hwf; [reflexivity|].
  inversion Hwf as [|? ? Hg Hrest]; subst.
  cbn [render active_tokens flat_map]. rewrite append_assoc.
  destruct g as [s|a p]; cbn [render_segment well_formed] in *.
  - rewrite findall_token_free by (auto using names_in). now apply IH.
  - destruct Hg as (Ha & Hp & _). destruct (is_in names a) eqn:Hn.
    + rewrite findall_at_token by now apply names_match.
      cbn [app]. f_equal. now apply IH.
    + rewrite findall_other_token by assumption. now apply IH.
Qed.

Lemma same_token_eq a p t : same_token a p t = true <-> t = (a, p).
Proof.
  destruct t as [b q]. unfold same_token. cbn [fst snd].
  rewrite andb_true_iff, !String.eqb_eq. split; [intros [-> ->]|intros [= -> ->]]; auto.
Qed.

Lemma replace_render a p done segments :
  is_in names a = true -> is_key_path p ->
  Forall (fun t => is_in names (fst t) = true) done ->
  Forall (well_formed getattr_walk names data) segments ->
  replace_from (token a p) (replacement getattr_walk data p) 0
    (render (map (partial_segment getattr_walk data done) segments))
  = render (map (partial_segment getattr_walk data ((a, p) :: done)) segments).
Proof.
  intros Ha Hp Hdone Hwf.
  induction Hwf as [|g segments Hg _ IH]; [reflexivity|].
  cbn [map render]. rewrite <- IH. clear IH.
  destruct g as [s|b q]; cbn [partial_segment render_segment well_formed existsb] in *.
  - apply replace_token_free; auto.
  - destruct Hg as (Hb & Hq & Hfree).
    destruct (existsb (same_token b q) done) eqn:Hin.
    + rewrite orb_true_r. cbn [render_segment].
      apply replace_token_free; auto. apply Hfree.
      apply existsb_exists in Hin as (t & Ht & Heq).
      apply same_token_eq in Heq. subst t.
      rewrite Forall_forall in Hdone. exact (Hdone _ Ht).
    + rewrite orb_false_r. destruct (same_token b q (a, p)) eqn:Hsame.
      * apply same_token_eq in Hsame. injection Hsame as -> ->.
        cbn [render_segment]. rewrite token_cons. apply replace_at.
      * cbn [render_segment]. apply replace_other_token; auto.
        intros Heq. rewrite <- not_true_iff_false in Hsame. apply Hsame.
        now apply same_token_eq.
Qed.

Lemma fold_render segments tokens : forall done,
  Forall (fun t => is_in names (fst t) = true /\ is_key_path (snd t)) tokens ->
  Forall (fun t => is_in names (fst t) = true) done ->
  Forall (well_formed getattr_walk names data) segments ->
  fold_left
    (fun output m =>
       py_replace (token (fst m) (snd m)) (replacement getattr_walk data (snd m)) output)
    tokens (render (map (partial_segment getattr_walk data done) segments))
  = render (map (partial_segment getattr_walk data (rev tokens ++ done)%list) segments).
Proof.
  induction tokens as [|[a p] tokens IH]; intros done Ht Hdone Hwf; [reflexivity|].
  inversion Ht as [|? ? [Ha Hp] Hrest]; subst. cbn [fst snd] in *.
  cbn [fold_left fst snd rev]. rewrite <- app_assoc. cbn [app].
  rewrite <- IH by (auto; constructor; auto). f_equal.
  rewrite token_cons. unfold py_replace. rewrite <- token_cons.
  now apply replace_render.
Qed.

Lemma active_tokens_spec segments a p :
  In (a, p) (active_tokens names segments)
  <-> In (Token a p) segments /\ is_in names a = true.
Proof.
  unfold active_tokens. rewrite in_flat_map. split.
  - intros ([s|b q] & Hin & H); [destruct H|].
    destruct (is_in names b) eqn:Hb; [|destruct H].
    destruct H as [[= -> ->]|[]]. auto.
  - intros [Hin Ha]. exists (Token a p). split; [assumption|].
    rewrite Ha. now left.
Qed.

Lemma partial_all segments g :
  In g segments ->
  partial_segment getattr_walk data (rev (active_tokens names segments) ++ [])%list g
  = resolve_segment getattr_walk names data g.
Proof.
  intros Hin. destruct g as [s|a p]; [reflexivity|].
  cbn [partial_segment resolve_segment]. rewrite app_nil_r.
  destruct (is_in names a) eqn:Ha.
  - replace (existsb _ _) with true; [reflexivity|].
    symmetry. apply existsb_exists. exists (a, p). split.
    + apply in_rev. rewrite rev_involutive. now apply active_tokens_spec.
    + now apply same_token_eq.
  - replace (existsb _ _) with false; [reflexivity|].
    symmetry. apply not_true_iff_false. intros H.
    apply existsb_exists in H as (t & Ht & Heq). apply same_token_eq in Heq. subst t.
    apply in_rev in Ht. apply active_tokens_spec in Ht as [_ Ht]. congruence.
Qed.

Lemma partial_none segments :
  map (partial_segment getattr_walk data []) segments = segments.
Proof.
  induction segments as [|[s|a p] segments IH]; cbn [map partial_segment existsb];
    now rewrite ?IH.
Qed.

(** One pass over a cut string resolves the tokens of its names. *)
Lemma substitute_pass_render segments :
  Forall (well_formed getattr_walk names data) segments ->
  substitute_pass getattr_walk names data (render segments)
  = render (map (resolve_segment getattr_walk names data) segments).
Proof.
  intros Hwf. unfold substitute_pass, findall.
  rewrite <- (append_nil_r (render segments)) at 1.
  rewrite findall_render by assumption. cbn [findall_from]. rewrite app_nil_r.
  rewrite <- (partial_none segments) at 2.
  rewrite fold_render; auto.
  - f_equal. apply map_ext_in. intros g Hg. now apply partial_all.
  - apply Forall_forall. intros [a p] Hin.
    apply active_tokens_spec in Hin as [Hin Ha]. cbn [fst snd]. split; [assumption|].
    rewrite Forall_forall in Hwf. apply Hwf in Hin. apply Hin.
Qed.
End Passes.

Section TwoPasses.
Variable getattr_walk : value -> list string -> result (option string).

Lemma is_in_spec names a : is_in names a = true <-> In a names.
Proof.
  unfold is_in. rewrite existsb_exists. split.
  - intros (b & Hb & Heq). apply String.eqb_eq in Heq. now subst.
  - intros H. exists a. split; [assumption|apply String.eqb_refl].
Qed.

Lemma state_not_event a : In a state_names -> is_in event_names a = false.
Proof. intros [<-|[<-|[]]]; reflexivity. Qed.

Lemma event_not_state a : In a event_names -> is_in state_names a = false.
Proof. intros [<-|[<-|[]]]; reflexivity. Qed.

Lemma events_pass_render data segments :
  Forall (well_formed getattr_walk event_names data) segments ->
  substitute_pass getattr_walk event_names data (render segments)
  = render (map (resolve_segment getattr_walk event_names data) segments).
Proof.
  apply substitute_pass_render.
  - intros a Ha. apply in_or_app. left. now apply is_in_spec.
  - intros a p rest Ha Hp. apply match_token_event; [now apply is_in_spec|assumption].
  - intros a p rest Ha Hn. apply match_token_other_state.
    apply in_app_or in Ha as [Ha|Ha]; [|assumption].
    apply is_in_spec in Ha. congruence.
Qed.

Lemma state_pass_render data segments :
  Forall (well_formed getattr_walk state_names data) segments ->
  substitute_pass getattr_walk state_names data (render segments)
  = render (map (resolve_segment getattr_walk state_names data) segments).
Proof.
  apply substitute_pass_render.
  - intros a Ha. apply in_or_app. right. now apply is_in_spec.
  - intros a p rest Ha Hp. apply match_token_state; [now apply is_in_spec|assumption].
  - intros a p rest Ha Hn. apply match_token_other_event.
    apply in_app_or in Ha as [Ha|Ha]; [assumption|].
    apply is_in_spec in Ha. congruence.
Qed.

(** Every token of a cut template is resolved, each from its own source. *)
Lemma tokens_in_text event_data project_state segments :
  Forall (resolvable getattr_walk event_data project_state) segments ->
  substitute_string getattr_walk (render segments) event_data project_state
  = resolved getattr_walk event_data project_state segments.
Proof.
  intros Hres. unfold substitute_string. fold event_names state_names.
  rewrite events_pass_render.
  2:{ eapply Forall_impl; [|exact Hres]. intros [s|a p]; cbn [resolvable well_formed];
        [auto|].
      intros (Hp & [[Ha Hfree]|[Ha Hfree]]); (split; [|split; [exact Hp|]]).
      - apply in_or_app. now left.
      - intros _. exact Hfree.
      - apply in_or_app. now right.
      - intros H. rewrite (state_not_event a Ha) in H. discriminate H. }
  rewrite state_pass_render.
  2:{ apply Forall_map. eapply Forall_impl; [|exact Hres].
      intros [s|a p]; cbn [resolvable well_formed resolve_segment]; [auto|].
      intros (Hp & [[Ha Hfree]|[Ha Hfree]]).
      - rewrite (proj2 (is_in_spec event_names a) Ha). exact Hfree.
      - rewrite (state_not_event a Ha). cbn [well_formed].
        split; [|split; [exact Hp|intros _; exact Hfree]].
        apply in_or_app. now right. }
  induction Hres as [|g segments Hg _ IH]; [reflexivity|].
  cbn [map render resolved]. rewrite IH. f_equal.
  destruct g as [s|a p]; cbn [resolvable resolve_segment resolved_segment] in *;
    [reflexivity|].
  destruct Hg as (Hp & [[Ha Hfree]|[Ha Hfree]]).
  - rewrite (proj2 (is_in_spec event_names a) Ha). reflexivity.
  - rewrite (state_not_event a Ha). cbn [resolve_segment].
    rewrite (proj2 (is_in_spec state_names a) Ha). reflexivity.
Qed.
End TwoPasses.

Section Replacement.
Variable getattr_walk : value -> list string -> result (option string).

Lemma walk_template_step part rest v d item :
  as_dict v = Some d -> lookup part d = Some item -> item <> VNone ->
  walk_template getattr_walk (part :: rest) v = walk_template getattr_walk rest item.
Proof.
  intros Hd Hl Hn. cbn [walk_template]. rewrite Hd, Hl.
  destruct item; congruence.
Qed.

Lemma walk_template_reaches parts v w :
  reaches parts v w -> walk_template getattr_walk parts v = Ok (Some (py_str w)).
Proof.
  induction 1; [reflexivity|]. erewrite walk_template_step by eassumption. assumption.
Qed.

Lemma walk_template_stops parts v :
  stops parts v -> walk_template getattr_walk parts v = Ok None.
Proof.
  induction 1.
  - cbn [walk_template]. now rewrite H, H0.
  - cbn [walk_template]. now rewrite H, H0.
  - erewrite walk_template_step by eassumption. assumption.
Qed.

Lemma walk_template_leaves parts v w part rest :
  leaves_maps parts v w (part :: rest) ->
  walk_template getattr_walk parts v
  = if getattr_finds w part then getattr_walk w (part :: rest) else Ok None.
Proof.
  intros H. remember (part :: rest) as parts' eqn:E.
  induction H as [part0 rest0 v Hv|part0 rest0 v d item w parts' Hd Hl Hn H IH].
  - injection E as -> ->. cbn [walk_template]. now rewrite Hv.
  - erewrite walk_template_step by eassumption. auto.
Qed.

Lemma leaves_maps_cons parts v w parts' :
  leaves_maps parts v w parts' -> exists part rest, parts' = part :: rest.
Proof. induction 1; eauto. Qed.

Lemma walk_template_raises parts v e :
  walk_template getattr_walk parts v = Raise e ->
  exists w part rest,
    leaves_maps parts v w (part :: rest) /\ getattr_finds w part = true /\
    getattr_walk w (part :: rest) = Raise e.
Proof.
  revert v. induction parts as [|part rest IH]; intros v H; [discriminate H|].
  cbn [walk_template] in H. destruct (as_dict v) as [d|] eqn:Hd.
  - destruct (lookup part d) as [item|] eqn:Hl; [|discriminate H].
    assert (Hn : item <> VNone) by (intros ->; discriminate H).
    assert (Hrest : walk_template getattr_walk rest item = Raise e)
      by (destruct item; auto; discriminate H).
    destruct (IH item Hrest) as (w & p & r & Hleaves & Hfinds & Hraise).
    exists w, p, r. split; [|auto]. eapply leaves_later; eassumption.
  - destruct (getattr_finds v part) eqn:Hfinds; [|discriminate H].
    exists v, part, rest. split; [now apply leaves_here|auto].
Qed.

Lemma walk_cases parts v :
  (exists w, reaches parts v w) \/ stops parts v \/
  (exists w parts', leaves_maps parts v w parts').
Proof.
  revert v. induction parts as [|part rest IH]; intros v.
  - left. exists v. constructor.
  - destruct (as_dict v) as [d|] eqn:Hd.
    + destruct (lookup part d) as [item|] eqn:Hl.
      * destruct (match item with VNone => true | _ => false end) eqn:Hn.
        -- destruct item; try discriminate. right. left. eapply stops_null; eassumption.
        -- assert (item <> VNone) by (intros ->; discriminate).
           destruct (IH item) as [[w Hw]|[Hs|(w & p & Hw)]].
           ++ left. exists w. econstructor; eassumption.
           ++ right. left. eapply stops_later; eassumption.
           ++ right. right. exists w, p. econstructor; eassumption.
      * right. left. eapply stops_missing; eassumption.
    + right. right. exists v, (part :: rest). now constructor.
Qed.

Lemma substitute_dict d ev st :
  _substitute_template getattr_walk (VDict d) ev st
  = VDict (map (fun kv => (fst kv, _substitute_template getattr_walk (snd kv) ev st)) d).
Proof.
  cbn [_substitute_template]. f_equal.
  induction d as [|[k v] d IH]; [reflexivity|]. cbn [map fst snd]. now rewrite IH.
Qed.

Lemma substitute_list l ev st :
  _substitute_template getattr_walk (VList l) ev st
  = VList (map (fun item => _substitute_template getattr_walk item ev st) l).
Proof.
  reflexivity.
Qed.

Lemma replacement_cases data key_path :
  (forall v, reaches (split_dot key_path) data v ->
             replacement getattr_walk data key_path = py_str v) /\
  (stops (split_dot key_path) data ->
   replacement getattr_walk data key_path = "N/A") /\
  (forall v part rest,
      leaves_maps (split_dot key_path) data v (part :: rest) ->
      getattr_finds v part = false ->
      replacement getattr_walk data key_path = "N/A").
Proof.
  unfold replacement. repeat split.
  - intros v H. now rewrite (walk_template_reaches _ _ _ H).
  - intros H. now rewrite (walk_template_stops _ _ H).
  - intros v part rest H Hfinds.
    now rewrite (walk_template_leaves _ _ _ _ _ H), Hfinds.
Qed.

End Replacement.

(** ** Path-based state updates *)

Section StateUpdate.

Lemma diverges_cons_inv key rest q :
  diverges (key :: rest) q ->
  (exists b q', q = b :: q' /\ key <> b) \/
  (exists q', q = key :: q' /\ diverges rest q').
Proof.
  intros (common & a & b & p' & q' & Hp & Hq & Hne).
  destruct common as [|c common]; cbn in *.
  - inversion Hp; subst. left. eauto.
  - inversion Hp; subst. right. exists (common ++ b :: q')%list. split; [reflexivity|].
    exists common, a, b, p', q'. auto.
Qed.

Lemma update_path_writes keys : forall x d parent e,
  keys <> [] ->
  resolve (removelast keys) d = Some parent -> as_dict parent = Some e ->
  exists d', update_path keys x d = Updated d' /\
             resolve keys d' = Some x /\
             forall q, diverges keys q -> resolve q d' = resolve q d.
Proof.
  induction keys as [|key rest IH]; intros x d parent e Hne Hres Hdict; [congruence|].
  destruct rest as [|key2 rest].
  - cbn in Hres. inversion Hres; subst parent. cbn [update_path]. rewrite Hdict.
    eexists. split; [reflexivity|]. split.
    + cbn [resolve]. rewrite (as_dict_with_entries _ _ _ Hdict).
      now rewrite lookup_assoc_set_eq.
    + intros q Hq. apply diverges_cons_inv in Hq as [(b & q' & -> & Hb)|(q' & -> & Hq)].
      * cbn [resolve]. rewrite (as_dict_with_entries _ _ _ Hdict), Hdict.
        rewrite lookup_assoc_set_ne by congruence. reflexivity.
      * destruct Hq as (common & a & b & p' & q0 & Hp & _ & _).
        destruct common; discriminate.
  - change (removelast (key :: key2 :: rest)) with (key :: removelast (key2 :: rest)) in Hres.
    cbn [resolve] in Hres.
    destruct (as_dict d) as [entries|] eqn:Hd; [|discriminate].
    destruct (lookup key entries) as [child|] eqn:Hl; [|discriminate].
    destruct (IH x child parent e ltac:(discriminate) Hres Hdict) as (child' & Hu & Hget & Hframe).
    change (update_path (key :: key2 :: rest) x d)
      with (match as_dict d with
            | Some e =>
                match lookup key e with
                | Some child =>
                    match update_path (key2 :: rest) x child with
                    | Updated child' => Updated (with_entries d (assoc_set key child' e))
                    | failure => failure
                    end
                | None => KeyNotFound key
                end
            | None => KeyNotFound key
            end).
    rewrite Hd, Hl, Hu. eexists. split; [reflexivity|]. split.
    + cbn [resolve]. rewrite (as_dict_with_entries _ _ _ Hd), lookup_assoc_set_eq.
      exact Hget.
    + intros q Hq. apply diverges_cons_inv in Hq as [(b & q' & -> & Hb)|(q' & -> & Hq)].
      * cbn [resolve]. rewrite (as_dict_with_entries _ _ _ Hd), Hd.
        rewrite lookup_assoc_set_ne by congruence. reflexivity.
      * cbn [resolve]. rewrite (as_dict_with_entries _ _ _ Hd), Hd.
        rewrite lookup_assoc_set_eq, Hl. now apply Hframe.
Qed.

Lemma update_path_fails keys : forall x d,
  (resolve (removelast keys) d = None \/
   exists parent, resolve (removelast keys) d = Some parent /\ as_dict parent = None) ->
  forall d', update_path keys x d <> Updated d'.
Proof.
  induction keys as [|key rest IH]; intros x d H d'; [discriminate|].
  destruct rest as [|key2 rest].
  - cbn in H. destruct H as [H|(parent & H & Hp)]; [discriminate|].
    inversion H; subst. cbn [update_path]. rewrite Hp. discriminate.
  - change (removelast (key :: key2 :: rest)) with (key :: removelast (key2 :: rest)) in H.
    cbn [resolve] in H.
    change (update_path (key :: key2 :: rest) x d)
      with (match as_dict d with
            | Some e =>
                match lookup key e with
                | Some child =>
                    match update_path (key2 :: rest) x child with
                    | Updated child' => Updated (with_entries d (assoc_set key child' e))
                    | failure => failure
                    end
                | None => KeyNotFound key
                end
            | None => KeyNotFound key
            end).
    destruct (as_dict d) as [entries|]; [|discriminate].
    destruct (lookup key entries) as [child|]; [|discriminate].
    specialize (IH x child H).
    destruct (update_path (key2 :: rest) x child); try discriminate.
    exfalso. eapply IH. reflexivity.
Qed.

Lemma split_on_not_nil sep s : split_on sep s <> [].
Proof.
  destruct s as [|c s]; cbn; [discriminate|].
  destruct (Ascii.eqb c sep); [discriminate|].
  destruct (split_on sep s); discriminate.
Qed.

(** C7. A path-based update of the shared state never raises. Either
    the parent of the final key is reached through maps and is a map: the
    value is then found at the path afterwards, and every entry on a
    path that parts ways with it is unchanged. Or an intermediate
    segment is missing, or a parent on the way is not a map: the shared
    state is then unchanged. In both cases one line is logged and
    nothing else of the orchestrator changes. *)
Theorem update_project_state_frame path x o :
  let keys := split_dot path in
  exists o',
    _update_project_state path x o = Ok (tt, o') /\
    workflow_events o' = workflow_events o /\ agents o' = agents o /\
    internal_message_queue o' = internal_message_queue o /\
    human_inbox o' = human_inbox o /\ human_outbox o' = human_outbox o /\
    uuid_count o' = uuid_count o /\
    (exists entry, log o' = (log o ++ [entry])%list) /\
    ((exists parent e,
         resolve (removelast keys) (project_state o) = Some parent /\
         as_dict parent = Some e /\
         resolve keys (project_state o') = Some x /\
         forall q, diverges keys q ->
                   resolve q (project_state o') = resolve q (project_state o))
     \/
     ((resolve (removelast keys) (project_state o) = None \/
       exists parent, resolve (removelast keys) (project_state o) = Some parent /\
                      as_dict parent = None) /\
      project_state o' = project_state o)).
Proof.
  intros keys. unfold _update_project_state, bind, get.
  destruct (resolve (removelast keys) (project_state o)) as [parent|] eqn:Hres.
  - destruct (as_dict parent) as [e|] eqn:Hdict.
    + destruct (update_path_writes keys x _ _ _ (split_on_not_nil _ _) Hres Hdict)
        as (d' & Hu & Hget & Hframe).
      fold keys. rewrite Hu. cbn. eexists. split; [reflexivity|]. cbn.
      repeat split; eauto. left. exists parent, e. auto.
    + pose proof (update_path_fails keys x (project_state o)
                    (or_intror (ex_intro _ parent (conj Hres Hdict)))) as Hf.
      fold keys. destruct (update_path keys x (project_state o)) eqn:Hu;
        [exfalso; eapply Hf; reflexivity| |];
        cbn; (eexists; split; [reflexivity|]); cbn; repeat split; eauto;
        right; split; eauto.
  - pose proof (update_path_fails keys x (project_state o) (or_introl Hres)) as Hf.
    fold keys. destruct (update_path keys x (project_state o)) eqn:Hu;
      [exfalso; eapply Hf; reflexivity| |];
      cbn; (eexists; split; [reflexivity|]); cbn; repeat split; eauto.
Qed.
End StateUpdate.

(** ** Worker activation *)

Lemma find_agent_update agent_name f l a :
  (forall b, name (f b) = name b) ->
  find_agent agent_name l = Some a ->
  find_agent agent_name (update_agent agent_name f l) = Some (f a).
Proof.
  intros Hf. unfold find_agent. induction l as [|b l IH]; cbn [find update_agent]; [discriminate|].
  destruct (String.eqb (name b) agent_name) eqn:E.
  - intros [= ->]. cbn [find]. now rewrite Hf, E.
  - intros H. cbn [find]. rewrite E. auto.
Qed.

Lemma find_agent_name agent_name l a : find_agent agent_name l = Some a -> name a = agent_name.
Proof.
  unfold find_agent. intros H. apply find_some in H as [_ H]. now apply String.eqb_eq.
Qed.

Section Activation.
Variable uuid4 : nat -> string.
Variable process_task : string -> value -> value -> outcome * value.

Lemma activation_pops_at_most_one o a o' :
  find_agent (name a) (agents o) = Some a ->
  process_pending_tasks uuid4 process_task (name a) o = Ok (tt, o') ->
  exists a', find_agent (name a) (agents o') = Some a' /\
             (inbox a' = inbox a \/ inbox a' = tl (inbox a)).
Proof.
  intros Hfind. unfold process_pending_tasks. unfold bind at 1. unfold get at 1.
  rewrite Hfind. unfold process_pending_tasks_of.
  destruct (inbox a) as [|m rest] eqn:Hin.
  - intros [= <-]. exists a. split; [assumption|]. now left.
  - assert (Hpop : forall kb,
               exists a', find_agent (name a)
                 (update_agent (name a)
                    (fun a0 => {| name := name a0; inbox := inbox a0; knowledge_base := kb |})
                    (update_agent (name a)
                       (fun a0 => {| name := name a0; inbox := rest;
                                     knowledge_base := knowledge_base a0 |})
                       (agents o))) = Some a' /\ inbox a' = rest).
    { intros kb. eexists. split.
      - apply find_agent_update; [reflexivity|].
        apply find_agent_update; [reflexivity|]. exact Hfind.
      - reflexivity. }
    assert (Hpop0 : exists a', find_agent (name a)
                 (update_agent (name a)
                       (fun a0 => {| name := name a0; inbox := rest;
                                     knowledge_base := knowledge_base a0 |})
                       (agents o)) = Some a' /\ inbox a' = rest).
    { eexists. split; [apply find_agent_update; [reflexivity|exact Hfind]|reflexivity]. }
    unfold set_inbox, set_knowledge_base, send_message, route_internal_message,
      fresh_uuid, _log, failed_content.
    destruct (String.eqb (type m) "task").
    + destruct (process_task (name a) (knowledge_base a) (content m)) as [done kb] eqn:Hp.
      specialize (Hpop kb). destruct Hpop as (a' & Ha' & Hi').
      munfold.
      destruct (py_get (content m) "task_name" (VStr "Unnamed Task")); [|discriminate].
      destruct (py_slice8 (context_id m)); [|discriminate].
      destruct done as [rc|[|] text]; [destruct (py_setitem rc "task_name" a0)|..];
        intros [= <-]; cbn [agents set_agents set_log set_internal_message_queue
                              set_uuid_count];
        exists a'; (split; [exact Ha'|right; exact Hi']).
    + destruct Hpop0 as (a' & Ha' & Hi').
      destruct (String.eqb (type m) "feedback"); munfold.
      * destruct (py_get (content m) "description" (VStr "No description")); [|discriminate].
        destruct (py_slice8 (context_id m)); [|discriminate].
        intros [= <-]. cbn [agents set_agents set_log]. exists a'. split; [exact Ha'|now right].
      * intros [= <-]. cbn [agents set_agents set_log]. exists a'. split; [exact Ha'|now right].
Qed.
End Activation.

(** ** Delegation and retry counters *)

Section Delegation.
Variable getattr_walk : value -> list string -> result (option string).
Variable uuid4 : nat -> string.
Variable process_task : string -> value -> value -> outcome * value.

Lemma choose_context_event action event_data templated task_name o fields ev use c :
  as_dict action = Some fields -> lookup "use_event_context_id" fields = Some use ->
  truthy use = true ->
  as_dict event_data = Some ev -> lookup "context_id" ev = Some (VStr c) -> c <> "" ->
  choose_context_id uuid4 action event_data templated task_name o = Ok (VStr c, o).
Proof.
  intros Ha Hu Ht He Hc Hne. unfold choose_context_id, py_get.
  assert (Hce : String.eqb c "" = false) by now apply String.eqb_neq.
  unfold Monad.bind, Monad.lift, Monad.ret.
  rewrite Ha, Hu, Ht, He, Hc. cbv beta iota. rewrite !(truthy_str c Hne).
  cbv beta iota. rewrite ?(truthy_str c Hne). reflexivity.
Qed.

Lemma retry_counter_frame s k v agent_name c :
  k <> "module_test_retries" -> k <> "deployment_retries" ->
  retry_counter (VDict (assoc_set k v s)) agent_name c = retry_counter (VDict s) agent_name c.
Proof.
  intros H1 H2. unfold retry_counter. cbn [as_dict].
  rewrite !lookup_assoc_set_ne by congruence. reflexivity.
Qed.

Lemma add_retry_attempt_spec agent_name body b c o :
  ready (project_state o) -> as_dict body = Some b ->
  exists o1 count,
    add_retry_attempt (VStr agent_name) body (VStr c) o
    = Ok ((if is_retryable (VStr agent_name)
           then with_entries body (assoc_set "retry_attempt" count b) else body), o1) /\
    retry_counter (project_state o) agent_name c = Some count /\
    ready (project_state o1) /\
    (forall n c', retry_counter (project_state o1) n c' = retry_counter (project_state o) n c') /\
    agents o1 = agents o /\ uuid_count o1 = uuid_count o /\
    internal_message_queue o1 = internal_message_queue o.
Proof.
  intros (s & retries & contexts & deployment & Hs & Hr & Hc & Hd) Hb.
  unfold add_retry_attempt, is_retryable, retry_counter.
  cbn [py_eq]. destruct (String.eqb_spec agent_name "Quality Guardian") as [->|Hq].
  - cbn [orb String.eqb Ascii.eqb Bool.eqb]. unfold current_retries, _log, py_setitem.
    munfold. cbn [py_eq String.eqb Ascii.eqb Bool.eqb]. rewrite Hs.
    cbn [py_getitem as_dict]. rewrite Hr. cbn [py_key py_getitem as_dict with_entries].
    destruct (lookup c retries) as [x|] eqn:Hx; rewrite Hb.
    + eexists. exists x. split; [reflexivity|]. cbn [project_state set_project_state set_log
        agents uuid_count internal_message_queue].
      repeat split; auto.
      * exists (assoc_set "module_test_retries" (VDefaultDict retries) s), retries, contexts, deployment.
        rewrite lookup_assoc_set_eq. rewrite !lookup_assoc_set_ne by discriminate. auto.
      * intros n c'. rewrite ?Hs. cbn [as_dict]. destruct (String.eqb n "Quality Guardian").
        -- now rewrite lookup_assoc_set_eq, ?Hr.
        -- now rewrite lookup_assoc_set_ne by discriminate.
    + eexists. exists (VInt 0). split; [reflexivity|]. cbn [project_state set_project_state set_log
        agents uuid_count internal_message_queue].
      repeat split; auto.
      * eexists _, _, contexts, deployment. split; [reflexivity|].
        rewrite lookup_assoc_set_eq. rewrite !lookup_assoc_set_ne by discriminate. auto.
      * intros n c'. rewrite ?Hs. cbn [as_dict]. destruct (String.eqb n "Quality Guardian").
        -- rewrite lookup_assoc_set_eq, ?Hr.
           destruct (String.eqb_spec c' c) as [->|Hne].
           ++ now rewrite lookup_assoc_set_eq, Hx.
           ++ now rewrite lookup_assoc_set_ne by assumption.
        -- now rewrite lookup_assoc_set_ne by discriminate.
  - replace (String.eqb agent_name "Quality Guardian") with false
      by (symmetry; now apply String.eqb_neq).
    cbn [orb]. destruct (String.eqb_spec agent_name "Deployment Master") as [->|Hm].
    + unfold current_retries, _log, py_setitem. munfold.
      cbn [py_eq String.eqb Ascii.eqb Bool.eqb]. rewrite Hs.
      cbn [py_getitem as_dict]. rewrite Hd, Hb.
      eexists. exists deployment.
      split; [reflexivity|]. cbn [project_state set_project_state set_log
        agents uuid_count internal_message_queue].
      repeat split; auto.
      * exists s, retries, contexts, deployment. auto.
      * intros n c'. cbn [as_dict]. now rewrite Hd.
    + munfold. rewrite Hs. cbn [as_dict]. rewrite Hd.
      exists o, deployment. rewrite Hs.
      repeat split; auto.
      * exists s, retries, contexts, deployment. auto.
      * intros n c'. cbn [as_dict]. now rewrite Hd.
Qed.

Lemma delegate_task_spec agent_name a task_name body b c o :
  find_agent agent_name (agents o) = Some a ->
  ready (project_state o) -> as_dict body = Some b -> c <> "" ->
  exists o2,
    _delegate_task uuid4 (VStr agent_name) task_name body (VStr c) o = Ok (tt, o2) /\
    delivered o o2 agent_name c (assoc_set "task_name" task_name b) /\
    uuid_count o2 = uuid_count o /\
    internal_message_queue o2 = internal_message_queue o /\
    ready (project_state o2) /\
    (forall n c', retry_counter (project_state o2) n c' = retry_counter (project_state o) n c') /\
    (exists s2 contexts2,
        project_state o2 = VDict s2 /\
        lookup "current_task_contexts" s2 = Some (VDict contexts2) /\
        lookup c contexts2
        = Some (VDict [ ("task_name", task_name); ("agent", VStr agent_name);
                        ("original_content", body) ])).
Proof.
  intros Hfind (s & retries & contexts & deployment & Hs & Hr & Hc & Hd) Hb Hne.
  pose proof (find_agent_name _ _ _ Hfind) as Hname.
  unfold _delegate_task, registered, receive_message, _log, config_item, py_setitem, py_copy.
  munfold. rewrite Hfind. rewrite (truthy_str c Hne). cbn [negb].
  rewrite Hs. cbn [py_getitem]. rewrite Hc. cbn [py_key as_dict with_entries].
  assert (Hcopy : match body with
                  | VList _ | VDict _ | VDefaultDict _ => Ok body
                  | _ => @Raise value AttributeError
                  end = Ok body)
    by (destruct body; try discriminate Hb; reflexivity).
  rewrite Hcopy, Hb. cbn [py_slice8].
  eexists. split; [reflexivity|].
  cbn [agents set_agents set_log set_project_state project_state uuid_count
         internal_message_queue].
  repeat split; auto.
  - exists a. eexists. eexists. split; [exact Hfind|]. split.
    + rewrite Hname. apply find_agent_update; [reflexivity|exact Hfind].
    + cbn [inbox type sender context_id content].
      repeat split; auto. now apply (as_dict_with_entries body b).
  - eexists _, retries, _, deployment. split; [reflexivity|].
    rewrite lookup_assoc_set_eq. rewrite !lookup_assoc_set_ne by discriminate. auto.
  - intros n c'. rewrite ?Hs. now apply retry_counter_frame.
  - eexists. eexists. split; [reflexivity|]. rewrite !lookup_assoc_set_eq. auto.
Qed.

Lemma delegate_stamped_spec agent_name a task_name body b c o :
  find_agent agent_name (agents o) = Some a ->
  ready (project_state o) -> as_dict body = Some b -> c <> "" ->
  exists o2 count payload,
    (body' <- add_retry_attempt (VStr agent_name) body (VStr c) ;;
     _delegate_task uuid4 (VStr agent_name) task_name body' (VStr c))%monad o
    = Ok (tt, o2) /\
    delivered o o2 agent_name c payload /\
    retry_counter (project_state o) agent_name c = Some count /\
    (is_retryable (VStr agent_name) = true -> lookup "retry_attempt" payload = Some count) /\
    lookup "task_name" payload = Some task_name /\
    uuid_count o2 = uuid_count o /\
    internal_message_queue o2 = internal_message_queue o /\
    ready (project_state o2) /\
    (forall n c', retry_counter (project_state o2) n c' = retry_counter (project_state o) n c') /\
    (exists s2 contexts2 entry,
        project_state o2 = VDict s2 /\
        lookup "current_task_contexts" s2 = Some (VDict contexts2) /\
        lookup c contexts2 = Some (VDict entry) /\
        lookup "task_name" entry = Some task_name /\
        lookup "agent" entry = Some (VStr agent_name)).
Proof.
  intros Hfind Hready Hb Hne.
  destruct (add_retry_attempt_spec agent_name body b c o Hready Hb)
    as (o1 & count & Hadd & Hcount & Hready1 & Hsame1 & Hag1 & Hu1 & Hq1).
  set (body' := if is_retryable (VStr agent_name)
                then with_entries body (assoc_set "retry_attempt" count b) else body) in *.
  set (b' := if is_retryable (VStr agent_name)
             then assoc_set "retry_attempt" count b else b).
  assert (Hb' : as_dict body' = Some b').
  { unfold body', b'. destruct (is_retryable (VStr agent_name)); [|assumption].
    now apply (as_dict_with_entries body b). }
  assert (Hfind1 : find_agent agent_name (agents o1) = Some a) by now rewrite Hag1.
  destruct (delegate_task_spec agent_name a task_name body' b' c o1 Hfind1 Hready1 Hb' Hne)
    as (o2 & Hdel & Hdeliv & Hu2 & Hq2 & Hready2 & Hsame2 & (s2 & contexts2 & Hs2 & Hc2 & Hl2)).
  exists o2, count, (assoc_set "task_name" task_name b').
  unfold Monad.bind. rewrite Hadd. fold body'. rewrite Hdel.
  split; [reflexivity|]. repeat split; auto.
  - destruct Hdeliv as (a0 & a' & m & H0 & H1 & H2 & H3).
    exists a, a', m. rewrite <- Hag1. rewrite H0 in Hfind1. inversion Hfind1; subst a0.
    rewrite Hag1. auto.
  - intros Hre. unfold b'. rewrite Hre.
    rewrite lookup_assoc_set_ne by discriminate. apply lookup_assoc_set_eq.
  - apply lookup_assoc_set_eq.
  - congruence.
  - congruence.
  - intros n c'. now rewrite Hsame2, Hsame1.
  - exists s2, contexts2. eexists. repeat split; eauto.
Qed.

Lemma retryable_agents agent_name :
  agent_name = "Quality Guardian" \/ agent_name = "Deployment Master" ->
  is_retryable (VStr agent_name) = true.
Proof. intros [->| ->]; reflexivity. Qed.

Lemma substitute_of_dict template t ev st :
  as_dict template = Some t ->
  exists b, _substitute_template getattr_walk template ev st = VDict b.
Proof.
  destruct template; cbn [as_dict]; intros H; try discriminate H;
    cbn [_substitute_template]; eexists; reflexivity.
Qed.

Lemma execute_delegate_task_event_context o action event_data fields ev agent_name
      task_name template use c :
  as_dict action = Some fields ->
  lookup "agent" fields = Some (VStr agent_name) -> agent_name <> "" ->
  lookup "task" fields = Some task_name -> truthy task_name = true ->
  as_dict (content_template fields) = Some template ->
  lookup "use_event_context_id" fields = Some use -> truthy use = true ->
  as_dict event_data = Some ev -> lookup "context_id" ev = Some (VStr c) -> c <> "" ->
  exists body b,
    as_dict body = Some b /\
    execute_delegate_task getattr_walk uuid4 action event_data o
    = (body' <- add_retry_attempt (VStr agent_name) body (VStr c) ;;
       _delegate_task uuid4 (VStr agent_name) task_name body' (VStr c))%monad o.
Proof.
  intros Ha Hag Hne Htask Htt Htpl Hu Hut He Hc Hcne.
  destruct (substitute_of_dict _ _ event_data (project_state o) Htpl) as (b & Hsub).
  exists (VDict b), b. split; [reflexivity|].
  unfold execute_delegate_task, py_get. rewrite Ha. unfold content_template in *.
  rewrite Hag, Htask. unfold Monad.bind at 1. unfold Monad.lift at 1.
  unfold Monad.bind at 1. unfold Monad.lift at 1.
  unfold Monad.bind at 1. unfold Monad.lift at 1.
  unfold Monad.bind at 1. unfold Monad.lift at 1.
  rewrite (truthy_str _ Hne), Htt. cbn [andb].
  unfold Monad.bind at 1. unfold Monad.get at 1.
  unfold Monad.bind at 1.
  rewrite (choose_context_event action event_data _ task_name o fields ev use c
             Ha Hu Hut He Hc Hcne).
  rewrite Hsub. reflexivity.
Qed.

(** C5. A [delegate_task] action with [use_event_context_id] set, run
    against an event that carries the context id [c], delegates the task
    under [c] itself and draws no new identifier. For the Quality
    Guardian and for the Deployment Master the counter of that context
    (the entry of [c] in [module_test_retries] for the first, the global
    [deployment_retries] for the second) is read and put into the payload
    as [retry_attempt]. Running the delegation does not change what any
    counter reads, and a second delegation under [c] delivers the same
    [retry_attempt]. *)
Theorem delegation_keeps_context_and_counter o action event_data fields ev agent_name a
        task_name template use c :
  as_dict action = Some fields ->
  lookup "agent" fields = Some (VStr agent_name) -> agent_name <> "" ->
  lookup "task" fields = Some task_name -> truthy task_name = true ->
  as_dict (content_template fields) = Some template ->
  lookup "use_event_context_id" fields = Some use -> truthy use = true ->
  as_dict event_data = Some ev -> lookup "context_id" ev = Some (VStr c) -> c <> "" ->
  find_agent agent_name (agents o) = Some a ->
  ready (project_state o) ->
  exists o1 o2 count payload1 payload2,
    execute_delegate_task getattr_walk uuid4 action event_data o = Ok (tt, o1) /\
    delivered o o1 agent_name c payload1 /\
    uuid_count o1 = uuid_count o /\
    (exists s1 contexts entry,
        project_state o1 = VDict s1 /\
        lookup "current_task_contexts" s1 = Some (VDict contexts) /\
        lookup c contexts = Some (VDict entry) /\
        lookup "task_name" entry = Some task_name /\
        lookup "agent" entry = Some (VStr agent_name)) /\
    retry_counter (project_state o) agent_name c = Some count /\
    (agent_name = "Quality Guardian" \/ agent_name = "Deployment Master" ->
     lookup "retry_attempt" payload1 = Some count) /\
    (forall n c',
        retry_counter (project_state o1) n c' = retry_counter (project_state o) n c') /\
    execute_delegate_task getattr_walk uuid4 action event_data o1 = Ok (tt, o2) /\
    delivered o1 o2 agent_name c payload2 /\
    uuid_count o2 = uuid_count o /\
    (agent_name = "Quality Guardian" \/ agent_name = "Deployment Master" ->
     lookup "retry_attempt" payload2 = Some count) /\
    (forall n c',
        retry_counter (project_state o2) n c' = retry_counter (project_state o) n c').
Proof.
  intros Ha Hag Hne Htask Htt Htpl Hu Hut He Hc Hcne Hfind Hready.
  destruct (execute_delegate_task_event_context o action event_data fields ev agent_name
              task_name template use c Ha Hag Hne Htask Htt Htpl Hu Hut He Hc Hcne)
    as (body & b & Hb & Hrun).
  destruct (delegate_stamped_spec agent_name a task_name body b c o Hfind Hready Hb Hcne)
    as (o1 & count & payload1 & Hrun1 & Hdel1 & Hcount & Hretry1 & _ & Hu1 & _ & Hready1
        & Hsame1 & Hledger).
  assert (Hfind1 : exists a1, find_agent agent_name (agents o1) = Some a1).
  { destruct Hdel1 as (_ & a1 & _ & _ & H & _). eauto. }
  destruct Hfind1 as (a1 & Hfind1).
  destruct (execute_delegate_task_event_context o1 action event_data fields ev agent_name
              task_name template use c Ha Hag Hne Htask Htt Htpl Hu Hut He Hc Hcne)
    as (body2 & b2 & Hb2 & Hrun').
  destruct (delegate_stamped_spec agent_name a1 task_name body2 b2 c o1 Hfind1 Hready1 Hb2 Hcne)
    as (o2 & count2 & payload2 & Hrun2 & Hdel2 & Hcount2 & Hretry2 & _ & Hu2 & _ & _
        & Hsame2 & _).
  assert (count2 = count) by (rewrite Hsame1 in Hcount2; congruence). subst count2.
  exists o1, o2, count, payload1, payload2.
  rewrite Hrun, Hrun1, Hrun', Hrun2.
  split; [reflexivity|]. split; [exact Hdel1|]. split; [exact Hu1|].
  split; [exact Hledger|]. split; [exact Hcount|].
  split; [intros Hwho; exact (Hretry1 (retryable_agents agent_name Hwho))|].
  split; [exact Hsame1|]. split; [reflexivity|]. split; [exact Hdel2|].
  split; [congruence|].
  split; [intros Hwho; exact (Hretry2 (retryable_agents agent_name Hwho))|].
  intros n c'. now rewrite Hsame2, Hsame1.
Qed.

End Delegation.

(** ** The dispatch cycle *)

(** C9 as stated fails. On an orchestrator with one human response
    pending and a rule that delegates a task on human input, the cycle
    takes the human response first, then lets the agents work, and the
    Code Sage already processes the task the response caused; then the
    internal messages are drained, and at the end no inbox holds a task.
    Had the human input been taken last, the task would still be queued
    when the cycle ends. *)
Theorem cycle_takes_human_input_first :
  exists o',
    run_simulation_cycle Example.attribute_text Example.uuid4 Example.completes Example.awaiting
    = Ok (tt, o') /\
    cycle_lines Example.awaiting o'
    = [ ("Orchestrator", "--- Running Simulation Cycle ---");
        ("Orchestrator", "Processing human input from outbox: '{}' (Context: {})");
        ("Orchestrator", "Received human input for context {}: '{}'.");
        ("Orchestrator", "Executing {} actions...");
        ("Code Sage", "Received message from '{}' (Type: '{}'). Queued.");
        ("Orchestrator", "Delegated '{}' task to {} (Context: {}).");
        ("Orchestrator", "Processed {} human inputs from outbox.");
        ("Orchestrator", "Agents processing tasks...");
        ("Code Sage", "Processing task: {} (Context: {})");
        ("Orchestrator", "Agent task processing cycle complete.");
        ("Orchestrator", "Orchestrator processing internal messages...");
        ("Orchestrator",
         "Processing message for Orchestrator from '{}' (Type: '{}', Context: {}).");
        ("Orchestrator", "No actions prescribed by the workflow engine.");
        ("Orchestrator", "Processed {} internal messages.");
        ("Orchestrator", "Orchestrator internal message processing complete.");
        ("Orchestrator", "--- Cycle End ---") ] /\
    (forall a, In a (agents o') -> inbox a = []).
Proof.
  eexists. split; [vm_compute; reflexivity|]. split; [reflexivity|].
  intros a Hin. cbn in Hin.
  repeat (destruct Hin as [<-|Hin]; [reflexivity|]). contradiction.
Qed.

(** ** Instances *)

(** Three handlers, the last two both matching: the first of them fires. *)
Lemma process_event_first_match_witness :
  all_rejected [Example.failed_handler] Example.completed_store Example.completed_store /\
  conditions_met Example.first_handler Example.completed_store
  = Ok (true, Example.completed_store) /\
  conditions_met Example.second_handler Example.completed_store
  = Ok (true, Example.completed_store) /\
  process_event Example.rules "agent_result" Example.completed_store
  = Ok ([Example.attached [("type", VStr "update_state"); ("path", VStr "status");
                           ("value", VStr "First")] Example.completed_store],
        Example.completed_store).
Proof.
  assert (H : all_rejected [Example.failed_handler] Example.completed_store
                Example.completed_store).
  { econstructor; [reflexivity|constructor]. }
  split; [exact H|]. split; [reflexivity|]. split; [reflexivity|].
  rewrite (proj1 (proj1 (process_event_first_match Example.rules "agent_result"
                           Example.completed_store _ eq_refl)
                    [Example.failed_handler] Example.first_handler
                    [Example.second_handler] Example.completed_store
                    Example.completed_store eq_refl H eq_refl)).
  reflexivity.
Defined.


(** The three module maps of the specification's examples. *)
Lemma all_modules_completed_iff_witness :
  _evaluate_condition Example.check_modules
    (Example.state_with_modules [("auth", VStr "completed"); ("ui", VStr "completed")])
  = Ok true /\
  _evaluate_condition Example.check_modules
    (Example.state_with_modules [("auth", VStr "completed"); ("ui", VStr "coding")])
  = Ok false /\
  _evaluate_condition Example.check_modules (Example.state_with_modules []) = Ok false.
Proof.
  split; [|split].
  - apply (proj1 (all_modules_completed_iff _ _)).
    eexists _, _, _, _. repeat split; try reflexivity.
    + discriminate.
    + repeat constructor.
  - eapply (proj1 (proj2 (proj2 (all_modules_completed_iff _ _)))); try reflexivity.
    apply Exists_cons_tl. apply Exists_cons_hd. discriminate.
  - eapply (proj1 (proj2 (all_modules_completed_iff _ _))); try reflexivity.
    right. eexists. split; reflexivity.
Defined.



(** Writing a module status leaves the overall status alone. *)
Lemma update_project_state_frame_witness :
  exists o',
    _update_project_state "code_modules_status.auth" (VStr "coding") (__init__ [])
    = Ok (tt, o') /\
    resolve ["code_modules_status"; "auth"] (project_state o') = Some (VStr "coding") /\
    resolve ["status"] (project_state o') = Some (VStr "Idle").
Proof.
  destruct (update_project_state_frame "code_modules_status.auth" (VStr "coding")
              (__init__ []))
    as (o' & Hrun & _ & _ & _ & _ & _ & _ & _ & [(parent & e & _ & _ & Hget & Hframe)|[H _]]).
  - exists o'. split; [exact Hrun|]. split; [exact Hget|].
    rewrite (Hframe ["status"]); [reflexivity|].
    exists [], "code_modules_status", "status", ["auth"], []. repeat split. discriminate.
  - exfalso. destruct H as [H|(parent & H & Hp)]; [discriminate H|].
    inversion H; subst. discriminate Hp.
Defined.



(** Two delegations of a retry under the context of the event, on a
    state in which that context was retried twice: both carry [2]. *)
Lemma delegation_keeps_context_and_counter_witness :
  ready (project_state Example.retried) /\
  exists o1 o2 payload1 payload2,
    execute_delegate_task Example.attribute_text Example.uuid4 Example.retry_tests
      Example.failed_event Example.retried = Ok (tt, o1) /\
    delivered Example.retried o1 "Quality Guardian" "ctx-1" payload1 /\
    uuid_count o1 = 0 /\
    lookup "retry_attempt" payload1 = Some (VInt 2) /\
    execute_delegate_task Example.attribute_text Example.uuid4 Example.retry_tests
      Example.failed_event o1 = Ok (tt, o2) /\
    delivered o1 o2 "Quality Guardian" "ctx-1" payload2 /\
    lookup "retry_attempt" payload2 = Some (VInt 2).
Proof.
  assert (Hready : ready (project_state Example.retried)).
  { eexists _, _, _, _. repeat split; reflexivity. }
  split; [exact Hready|].
  destruct (delegation_keeps_context_and_counter Example.attribute_text Example.uuid4
              Example.retried Example.retry_tests Example.failed_event _ _
              "Quality Guardian" _ (VStr "run_tests") _ (VBool true) "ctx-1"
              eq_refl eq_refl ltac:(discriminate) eq_refl eq_refl eq_refl eq_refl eq_refl
              eq_refl eq_refl ltac:(discriminate) eq_refl Hready)
    as (o1 & o2 & count & payload1 & payload2 & H1 & H2 & H3 & _ & H4 & H5 & _ & H7 & H8 & _
        & H10 & _).
  assert (Hcount : count = VInt 2) by (cbn in H4; congruence). subst count.
  exists o1, o2, payload1, payload2. repeat split; try assumption.
  - exact (H5 (or_introl eq_refl)).
  - exact (H10 (or_introl eq_refl)).
Defined.



(** * Further properties *)

Import Text Agents ModelRouter Terms Phases.

(** ** String methods *)

Section TextFacts.
Variable p : ascii -> bool.

Lemma lstrip_idem s : lstrip_with p (lstrip_with p s) = lstrip_with p s.
Proof.
  induction s as [|c r IH]; cbn [lstrip_with]; [reflexivity|].
  destruct (p c) eqn:Hc; [exact IH|]. cbn [lstrip_with]. now rewrite Hc.
Qed.

Lemma rstrip_idem s : rstrip_with p (rstrip_with p s) = rstrip_with p s.
Proof.
  induction s as [|c r IH]; cbn [rstrip_with]; [reflexivity|].
  destruct (rstrip_with p r) as [|k ks] eqn:Hr.
  - destruct (p c) eqn:Hc; cbn [rstrip_with]; [reflexivity|]. now rewrite Hc.
  - cbn [rstrip_with] in *. now rewrite IH.
Qed.

Lemma rstrip_fixed_tail c r :
  rstrip_with p (String c r) = String c r -> p c = true -> rstrip_with p r = r.
Proof.
  cbn [rstrip_with]. destruct (rstrip_with p r) as [|k ks].
  - intros H Hc. rewrite Hc in H. discriminate H.
  - intros [= <-]. reflexivity.
Qed.

Lemma rstrip_lstrip_fixed s :
  rstrip_with p s = s -> rstrip_with p (lstrip_with p s) = lstrip_with p s.
Proof.
  induction s as [|c r IH]; intros H; cbn [lstrip_with]; [reflexivity|].
  destruct (p c) eqn:Hc; [|exact H].
  apply IH. now apply (rstrip_fixed_tail c).
Qed.

Lemma strip_with_idem s :
  lstrip_with p (rstrip_with p (lstrip_with p (rstrip_with p s)))
  = lstrip_with p (rstrip_with p s).
Proof.
  rewrite rstrip_lstrip_fixed by apply rstrip_idem. apply lstrip_idem.
Qed.

End TextFacts.

Lemma strip_idem s : strip (strip s) = strip s.
Proof. apply strip_with_idem. Qed.

Lemma nonempty_spec s : nonempty s = true <-> s <> "".
Proof.
  unfold nonempty. destruct (String.eqb_spec s ""); cbn; split; congruence.
Qed.

Lemma partition_none_step sep c r :
  partition sep (String c r) = None ->
  strip_prefix sep (String c r) = None /\ partition sep r = None.
Proof.
  cbn [partition]. destruct (strip_prefix sep (String c r)); [discriminate|].
  destruct (partition sep r) as [[a b]|]; [discriminate|]. auto.
Qed.

(** Replacing a text that does not occur changes nothing. *)
Lemma replace_first_absent old new s : occurs old s = false -> replace_first old new s = s.
Proof.
  unfold occurs. induction s as [|c r IH]; intros H.
  - cbn [replace_first partition] in *. destruct (strip_prefix old ""); [discriminate|reflexivity].
  - destruct (partition old (String c r)) as [[a b]|] eqn:Hp; [discriminate|].
    apply partition_none_step in Hp as [Hs Hr]. cbn [replace_first]. rewrite Hs.
    f_equal. apply IH. now rewrite Hr.
Qed.

Lemma split_on_no_sep sep s : contains_char sep s = false -> split_on sep s = [s].
Proof.
  induction s as [|c r IH]; cbn [contains_char split_on]; [reflexivity|].
  intros H. apply orb_false_elim in H as [Hc Hr].
  rewrite Ascii.eqb_sym, Hc. now rewrite IH.
Qed.

Lemma split_on_app sep a b :
  contains_char sep a = false ->
  split_on sep (a ++ String sep b) = a :: split_on sep b.
Proof.
  induction a as [|c r IH]; cbn [contains_char String.append split_on].
  - intros _. now rewrite Ascii.eqb_refl.
  - intros H. apply orb_false_elim in H as [Hc Hr].
    rewrite Ascii.eqb_sym, Hc. now rewrite IH.
Qed.

Lemma fold_left_inv {A B : Type} (f : A -> B -> A) (P : A -> Prop) l : forall a,
  P a -> (forall a b, P a -> P (f a b)) -> P (fold_left f l a).
Proof.
  induction l as [|b l IH]; intros a Ha Hstep; cbn [fold_left]; [exact Ha|].
  apply IH; auto.
Qed.

Lemma Forall_firstn {A : Type} (P : A -> Prop) n : forall l,
  Forall P l -> Forall P (firstn n l).
Proof.
  induction n as [|n IH]; intros l H; [constructor|].
  destruct H; cbn [firstn]; constructor; auto.
Qed.

Lemma tidy_strip s : nonempty (strip s) = true -> tidy (strip s).
Proof. intros H. split; [now apply nonempty_spec|apply strip_idem]. Qed.

Lemma comma_parts_tidy s : Forall tidy (comma_parts s).
Proof.
  unfold comma_parts. apply Forall_forall. intros x Hx.
  apply filter_In in Hx as [Hin Hne]. apply in_map_iff in Hin as (y & <- & _).
  now apply tidy_strip.
Qed.

(** ** Dream Weaver: the concept brief *)

Section ConceptBrief.
Import DreamWeaver.

Lemma parse_line_tidy acc raw :
  Forall tidy (features (fst acc)) ->
  Forall tidy (features (fst (parse_line acc raw))).
Proof.
  destruct acc as [c flag]. unfold parse_line. cbn [fst]. intros H.
  repeat match goal with
         | |- context [if ?b then _ else _] => destruct b eqn:?; cbn [fst features]
         end; try assumption.
  apply Forall_app. split; [assumption|]. constructor; [|constructor].
  now apply tidy_strip.
Qed.

(** X1. Whatever the model answers and whatever the idea, the concept
    brief lists at least one feature, and every feature listed is a
    non-empty text without blanks around it. *)
Theorem concept_brief_has_features response_text user_idea_fallback :
  let c := fst (_parse_llm_concept_response response_text user_idea_fallback) in
  features c <> [] /\ Forall tidy (features c).
Proof.
  cbn zeta. unfold _parse_llm_concept_response.
  set (c := fst (fold_left parse_line (lines response_text)
                   (initial user_idea_fallback, false))).
  assert (Hc : Forall tidy (features c)).
  { subst c. apply fold_left_inv with (P := fun acc => Forall tidy (features (fst acc))).
    - constructor.
    - intros a b. apply parse_line_tidy. }
  unfold finish. destruct (features c) as [|f fs] eqn:Hf; cbn [fst features].
  - split; [discriminate|].
    repeat constructor; try discriminate; reflexivity.
  - split; [discriminate|assumption].
Qed.

Lemma parse_line_unlabelled c raw :
  (let line := strip raw in
   startswith "Purpose:" line = false /\
   startswith "Target Users:" line = false /\
   startswith "Features:" line = false /\
   startswith "Monetization Strategy:" line = false) ->
  parse_line (c, false) raw = (c, false).
Proof.
  cbn zeta. intros (H1 & H2 & H3 & H4). unfold parse_line.
  rewrite H1, H2, H3, H4, andb_false_r. reflexivity.
Qed.

(** X2. When no line of the answer carries a label of a concept brief (so
    for the error texts a failed call gives), the brief falls back on the
    user's idea: the purpose is the idea without dots around it, the
    features are the two default ones, and the fallback is logged. *)
Theorem concept_brief_fallback response_text user_idea_fallback :
  unlabelled response_text ->
  _parse_llm_concept_response response_text user_idea_fallback
  = ({| purpose :=
          (if startswith "an innovative app to enhance"
                (lower (strip_dots user_idea_fallback))
           then strip_dots user_idea_fallback ++ " App Concept"
           else strip_dots user_idea_fallback);
        target_users := "Various users.";
        features := ["Basic Functionality"; "User Interface"];
        monetization_strategy := "Undefined." |},
     [warn "Dream Weaver"
        "WARNING: No features parsed from LLM response. Using fallback features."
        []]).
Proof.
  unfold unlabelled, _parse_llm_concept_response. intros H.
  assert (Hfold : fold_left parse_line (lines response_text)
                    (initial user_idea_fallback, false)
                  = (initial user_idea_fallback, false)).
  { induction H as [|raw l Hraw _ IH]; [reflexivity|].
    cbn [fold_left]. rewrite parse_line_unlabelled by exact Hraw. exact IH. }
  rewrite Hfold. reflexivity.
Qed.

End ConceptBrief.

(** ** Master Builder: the blueprint and the tech stack *)

Section Architecture.
Import MasterBuilder.

Lemma bounded_parts s : bounded (firstn 10 (comma_parts s)).
Proof.
  split; [apply Forall_firstn, comma_parts_tidy|apply firstn_le_length].
Qed.

Lemma blueprint_line_bounded line b :
  bounded (modules b) /\ bounded (security_considerations b) ->
  bounded (modules (blueprint_line line b)) /\
  bounded (security_considerations (blueprint_line line b)).
Proof.
  intros [Hm Hs]. unfold blueprint_line.
  repeat match goal with
         | |- context [if ?c then _ else _] =>
             destruct c eqn:?; cbn [modules security_considerations]
         end; auto using bounded_parts.
Qed.

Lemma parse_line_bounded acc raw :
  (let '(b, _, _) := acc in
   bounded (modules b) /\ bounded (security_considerations b)) ->
  let '(b, _, _) := parse_line acc raw in
  bounded (modules b) /\ bounded (security_considerations b).
Proof.
  destruct acc as [[b t] sec]. unfold parse_line. intros H.
  destruct (startswith "blueprint:" _); [exact H|].
  destruct (startswith "tech stack:" _); [exact H|].
  destruct sec; try exact H. now apply blueprint_line_bounded.
Qed.

(** X3. Whatever the model answers, the parsed blueprint names between
    one and ten modules and at most ten security considerations, each a
    non-empty text without blanks around it, and the tech stack never
    leaves the language of both the backend and the frontend undefined. *)
Theorem architecture_is_usable response_text :
  let '(b, t, _) := _parse_llm_architecture_response response_text in
  modules b <> [] /\ bounded (modules b) /\
  bounded (security_considerations b) /\
  ~ (language (backend t) = "Undefined" /\ language (frontend t) = "Undefined").
Proof.
  unfold _parse_llm_architecture_response.
  pose proof (fold_left_inv parse_line
                (fun acc => let '(b, _, _) := acc in
                            bounded (modules b) /\ bounded (security_considerations b))
                (lines response_text) initial) as H.
  destruct (fold_left parse_line (lines response_text) initial) as [[b t] sec].
  destruct H as [Hm Hs].
  { cbn. split; (split; [constructor|cbn; lia]). }
  { intros a raw. apply parse_line_bounded. }
  unfold finish.
  assert (Hfall : bounded ["CoreService"]).
  { split; [|cbn; lia]. constructor; [split; [discriminate|reflexivity]|constructor]. }
  destruct (modules b) as [|m ms] eqn:Hmods;
    destruct (String.eqb_spec (language (backend t)) "Undefined") as [Hback|Hback];
    destruct (String.eqb_spec (language (frontend t)) "Undefined") as [Hfront|Hfront];
    cbn [andb modules security_considerations backend frontend language];
    rewrite ?Hmods;
    (split; [discriminate|]); (split; [assumption|]); (split; [assumption|]);
    try tauto; intros [H _]; discriminate H.
Qed.

Lemma prefix_first_char p q c r :
  String.prefix (String p q) (String c r) = true -> c = p.
Proof.
  cbn [String.prefix]. destruct (ascii_dec p c); [auto|discriminate].
Qed.


End Architecture.

(** ** Quality Guardian: the test report *)

Section TestReport.
Import QualityGuardian.

Lemma settle_spec parsed found :
  let s := fst (settle parsed found) in
  (s = "passed" \/ s = "failed_with_bugs" \/ s = "failed") /\
  (s = "failed_with_bugs" <-> found <> []).
Proof.
  cbn zeta. unfold settle.
  destruct (String.eqb_spec parsed "passed") as [Hp|Hp];
    destruct (String.eqb_spec parsed "failed_with_bugs") as [Hf|Hf];
    destruct found as [|b bs]; cbn [orb andb negb fst];
    (split; [auto|]); split; intros H; try discriminate H; try congruence.
Qed.

(** X5. Whatever the model answers, the Quality Guardian returns: the
    task itself is reported as completed, and the test report it carries
    has one of the three statuses [passed], [failed_with_bugs] and
    [failed], where [failed_with_bugs] is reported exactly when the list
    of bugs is not empty. The report is also what the knowledge base keeps
    under the module and the scope. *)
Theorem test_report_is_consistent llm_response kb task_content known fields :
  as_dict kb = Some known ->
  as_dict task_content = Some fields ->
  exists result_content kb' logged report s found module_name test_scope,
    process_task (Ok llm_response) kb task_content
    = Ok (VDict result_content, kb', logged) /\
    lookup "status" result_content = Some (VStr "completed") /\
    lookup "test_report" result_content = Some (VDict report) /\
    lookup "status" report = Some (VStr s) /\
    lookup "bugs_found" report = Some (VList found) /\
    (s = "passed" \/ s = "failed_with_bugs" \/ s = "failed") /\
    (s = "failed_with_bugs" <-> found <> []) /\
    lookup "module_name" report = Some module_name /\
    lookup "test_scope" report = Some test_scope /\
    py_get kb' ("test_report_" ++ py_str module_name ++ "_" ++ py_str test_scope) VNone
    = Ok (VDict report).
Proof.
  intros Hkb Htask. unfold process_task, py_get, py_setitem.
  rewrite Htask, Hkb.
  set (st := fold_left parse_line (lines llm_response) _).
  pose proof (settle_spec (status st) (bugs st)) as Hsettle.
  destruct (settle (status st) (bugs st)) as [final corrected].
  cbn [fst] in Hsettle. destruct Hsettle as [Hthree Hiff].
  eexists _, _, _, _, final, (bugs st), _, _.
  split; [reflexivity|].
  repeat (split; [reflexivity || assumption|]).
  rewrite (as_dict_with_entries kb _ _ Hkb), lookup_assoc_set_eq. reflexivity.
Qed.

End TestReport.

(** ** Deployment Master: the deployment status *)

Section Deployment.
Import DeploymentMaster.

Lemma parse_line_status d raw :
  deployment_status (parse_line d raw) = deployment_status d \/
  status_line raw (deployment_status (parse_line d raw)).
Proof.
  unfold parse_line, status_line.
  destruct (startswith "deployment status:" (lower (strip raw))) eqn:H1;
    cbn [deployment_status]; [right; auto|].
  destruct (startswith "app url:" (lower (strip raw)));
    cbn [deployment_status]; [left; reflexivity|].
  destruct (startswith "monitoring dashboard url:" (lower (strip raw)));
    cbn [deployment_status]; left; reflexivity.
Qed.

Lemma fold_status l : forall d,
  deployment_status (fold_left parse_line l d) = deployment_status d \/
  exists raw, In raw l /\ status_line raw (deployment_status (fold_left parse_line l d)).
Proof.
  induction l as [|raw l IH]; intros d; cbn [fold_left]; [left; reflexivity|].
  destruct (IH (parse_line d raw)) as [H|(r & Hin & H)].
  - rewrite H. destruct (parse_line_status d raw) as [H'|H'].
    + left. exact H'.
    + right. exists raw. split; [now left|exact H'].
  - right. exists r. split; [now right|exact H].
Qed.

(** X6. Whatever the model answers, the Deployment Master returns, and
    the deployment status it reports is [success] or [failure]; it is
    [success] only if a line of the answer gives exactly that status after
    the label in its exact spelling, and failure in every other case. The
    URL reported is the one the knowledge base keeps as the last
    deployment URL. *)
Theorem deployment_status_is_settled llm_response kb task_content known fields :
  as_dict kb = Some known ->
  as_dict task_content = Some fields ->
  exists result_content kb' logged s url,
    process_task (Ok llm_response) kb task_content
    = Ok (VDict result_content, kb', logged) /\
    lookup "deployment_status" result_content = Some (VStr s) /\
    (s = "success" \/ s = "failure") /\
    (s = "success" ->
     exists raw, In raw (lines llm_response) /\ status_line raw "success") /\
    lookup "app_url" result_content = Some (VStr url) /\
    py_get kb' "last_deployment_url" VNone = Ok (VStr url).
Proof.
  intros Hkb Htask. unfold process_task, py_get, py_setitem.
  rewrite Htask, Hkb.
  set (d0 := {| deployment_status := "failure"; app_url := "N/A";
                monitoring_url := "N/A" |}).
  pose proof (fold_status (lines llm_response) d0) as Hfold.
  set (d := fold_left parse_line (lines llm_response) d0) in *.
  eexists _, _, _, _, (app_url d).
  split; [reflexivity|]. split; [reflexivity|].
  split; [|split; [|split; [reflexivity|]]].
  - destruct (String.eqb_spec (deployment_status d) "success") as [->|Hs];
      cbn [orb]; [now left|].
    destruct (String.eqb_spec (deployment_status d) "failure") as [->|Hf]; now right.
  - destruct (String.eqb_spec (deployment_status d) "success") as [Hs|Hs]; cbn [orb].
    + intros _. destruct Hfold as [H|(raw & Hin & H)].
      * rewrite Hs in H. discriminate H.
      * exists raw. rewrite Hs in H. auto.
    + destruct (String.eqb_spec (deployment_status d) "failure") as [Hf|Hf];
        intros H; [congruence|discriminate H].
  - rewrite (as_dict_with_entries kb _ _ Hkb), lookup_assoc_set_eq. reflexivity.
Qed.

End Deployment.

(** ** The model router *)

Section Settings.

Lemma config_item_dict v d k :
  as_dict v = Some d ->
  config_item v k = match lookup k d with
                    | Some x => Ok x
                    | None => match v with
                              | VDefaultDict _ => Ok (VInt 0)
                              | _ => Raise KeyError
                              end
                    end.
Proof.
  unfold config_item, py_getitem. destruct v; cbn [as_dict]; intros [= <-];
    destruct (lookup k _); reflexivity.
Qed.

Lemma fallback_is_checked :
  exists d overrides,
    as_dict _get_default_fallback_settings = Some d /\
    lookup "provider" d <> None /\
    lookup "overrides" d = Some overrides /\
    py_in "default" overrides = Ok true.
Proof.
  eexists _, _. repeat split; try reflexivity. discriminate.
Qed.

Lemma checked_settings_shape settings loaded :
  checked_settings settings = Ok loaded ->
  exists d overrides,
    as_dict loaded = Some d /\
    lookup "provider" d <> None /\
    lookup "overrides" d = Some overrides /\
    py_in "default" overrides = Ok true.
Proof.
  unfold checked_settings.
  destruct (py_in "provider" settings) as [[|]|] eqn:Hp; try discriminate.
  destruct (py_in "overrides" settings) as [[|]|] eqn:Ho; try discriminate.
  destruct (config_item settings "overrides") as [overrides|] eqn:Hov; [|discriminate].
  assert (Hd : exists d, as_dict settings = Some d /\ lookup "provider" d <> None
                         /\ lookup "overrides" d = Some overrides).
  { unfold config_item, py_getitem in Hov. unfold py_in in Hp, Ho.
    destruct settings as [| | | | |d|d]; try discriminate; exists d; cbn [as_dict];
      destruct (lookup "provider" d); try discriminate;
      destruct (lookup "overrides" d); try discriminate;
      injection Hov as <-; (split; [reflexivity|split; [discriminate|reflexivity]]). }
  destruct Hd as (d & Hd & Hprov & Hover).
  destruct (py_in "default" overrides) as [[|]|] eqn:Hdef; try discriminate.
  - intros [= <-]. exists d, overrides. auto.
  - unfold py_setitem. destruct (as_dict overrides) as [entries|] eqn:He; [|discriminate].
    rewrite Hd. intros [= <-].
    exists (assoc_set "overrides"
              (with_entries overrides (assoc_set "default" default_override entries)) d),
           (with_entries overrides (assoc_set "default" default_override entries)).
    split; [now apply (as_dict_with_entries settings d)|].
    split; [rewrite lookup_assoc_set_ne by discriminate; exact Hprov|].
    split; [apply lookup_assoc_set_eq|].
    destruct overrides; try discriminate He; cbn [with_entries py_in];
      now rewrite lookup_assoc_set_eq.
Qed.

Lemma unusable_falls_back file :
  unusable file -> _load_settings file = _get_default_fallback_settings.
Proof.
  destruct file as [settings|]; [|reflexivity]. cbn [unusable _load_settings].
  unfold checked_settings, py_in, config_item, py_getitem.
  destruct settings as [| | |s|l|d|d]; cbn [as_dict]; try reflexivity.
  - intros _. destruct (occurs "provider" s); [|reflexivity].
    destruct (occurs "overrides" s); reflexivity.
  - intros _. destruct (existsb _ l); [|reflexivity].
    destruct (existsb _ l); reflexivity.
  - intros [H|H]; rewrite H; [reflexivity|].
    destruct (lookup "provider" d); reflexivity.
  - intros [H|H]; rewrite H; [reflexivity|].
    destruct (lookup "provider" d); reflexivity.
Qed.


End Settings.

Section Routing.
Variable getenv : string -> option string.

(** The providers the router knows. *)
Lemma known_providers p cfg :
  lookup p GLOBAL_PROVIDER_CONFIGS = Some (VDict cfg) ->
  p = "lm_studio" \/ p = "openrouter" \/ p = "openai" \/ p = "ollama" \/ p = "lmdeploy".
Proof.
  unfold GLOBAL_PROVIDER_CONFIGS. cbn [lookup].
  repeat match goal with
         | |- context [String.eqb p ?k] => destruct (String.eqb_spec p k); [auto 6|]
         end.
  discriminate.
Qed.

Lemma provider_config_known effective p cfg :
  provider_config effective = Ok (Some (p, cfg)) ->
  lookup p GLOBAL_PROVIDER_CONFIGS = Some (VDict cfg).
Proof.
  unfold provider_config. destruct effective as [| | |q| | |]; try discriminate.
  destruct (lookup q GLOBAL_PROVIDER_CONFIGS) as [[| | | | |c|]|] eqn:H; try discriminate.
  intros [= <- <-]. exact H.
Qed.

(** X8. The model details of an agent always name one of the five
    providers the router knows, with a model name, and the API key depends
    on the provider and the environment only, never on the settings: the
    dummy key for LM Studio, the environment variable for OpenRouter and
    OpenAI, none for the other two. Off LM Studio the API base is the
    provider's own. *)
Theorem model_details_are_routed settings agent_name details :
  get_model_details_for_agent getenv settings agent_name = Ok details ->
  exists p cfg base model,
    details = VDict [ ("provider", VStr p); ("api_base", base);
                      ("model_name", model); ("api_key", key_for getenv p) ] /\
    lookup p GLOBAL_PROVIDER_CONFIGS = Some (VDict cfg) /\
    model <> VNone /\
    (p <> "lm_studio" -> lookup "api_base" cfg = Some base).
Proof.
  unfold get_model_details_for_agent.
  destruct (py_get settings "overrides" (VDict [])) as [overrides|]; [|discriminate].
  destruct (as_dict overrides) as [entries|]; [|discriminate].
  set (agent_config := match or_none (lookup agent_name entries) with
                       | VNone => _
                       | config => config
                       end).
  destruct (py_get agent_config "provider" VNone) as [named|]; [|discriminate].
  destruct (match named with VNone => _ | _ => Ok named end) as [effective|];
    [|discriminate].
  destruct (provider_config effective) as [found|] eqn:Hfound; [|discriminate].
  set (model := match match py_get agent_config "model" VNone with
                      | Ok x => x
                      | Raise _ => VNone
                      end with
                | VNone => VStr "generic-model-fallback"
                | m => m
                end).
  assert (Hmodel : model <> VNone).
  { subst model. destruct (match py_get agent_config "model" VNone with
                           | Ok x => x
                           | Raise _ => VNone
                           end); discriminate. }
  assert (Hknown : exists p cfg,
             match found with
             | Some known => known
             | None => ("lm_studio", lm_studio_config)
             end = (p, cfg) /\
             lookup p GLOBAL_PROVIDER_CONFIGS = Some (VDict cfg)).
  { destruct found as [[p cfg]|].
    - exists p, cfg. split; [reflexivity|]. now apply (provider_config_known effective).
    - exists "lm_studio", lm_studio_config. split; reflexivity. }
  destruct Hknown as (p & cfg & -> & Hcfg).
  destruct (known_providers p cfg Hcfg) as [->|[->|[->|[->| ->]]]];
    injection Hcfg as <-; cbn [config_item py_getitem lookup String.eqb Ascii.eqb
                                 Bool.eqb existsb orb or_none truthy negb nonempty];
    match goal with
    | |- Ok (VDict (("provider", VStr ?q) :: ("api_base", ?b) :: _)) = _ -> _ =>
        intros [= <-]; exists q; eexists; exists b, model
    end;
    (split; [reflexivity|]); (split; [reflexivity|]); (split; [exact Hmodel|]);
    intros H; try reflexivity; now contradiction H.
Qed.

(** X9. An agent without an override of its own gets exactly what the
    name ['default'] gets: the default override when there is one, the
    hard-coded one otherwise. *)
Theorem unassigned_agent_gets_default settings agent_name :
  unassigned settings agent_name ->
  get_model_details_for_agent getenv settings agent_name
  = get_model_details_for_agent getenv settings "default".
Proof.
  unfold unassigned, get_model_details_for_agent. intros H.
  destruct (py_get settings "overrides" (VDict [])) as [overrides|]; [|reflexivity].
  destruct (as_dict overrides) as [entries|] eqn:He; [|reflexivity].
  specialize (H overrides entries eq_refl He).
  assert (Hnone : or_none (lookup agent_name entries) = VNone)
    by (destruct H as [-> | ->]; reflexivity).
  rewrite Hnone.
  destruct (lookup "default" entries) as [[]|]; reflexivity.
Qed.

(** X10. When the settings file cannot be used, every agent is routed to
    the local LM Studio server with the built-in model and the dummy
    key, whatever the environment holds. *)
Theorem unusable_settings_route_locally file agent_name :
  unusable file ->
  get_model_details_for_agent getenv (_load_settings file) agent_name
  = Ok (VDict [ ("provider", VStr "lm_studio");
                ("api_base", VStr "http://localhost:1234/v1");
                ("model_name", VStr "Mistral-Nemo-Instruct-12B");
                ("api_key", VStr "lm-studio") ]).
Proof.
  intros H. rewrite (unusable_falls_back file H).
  unfold get_model_details_for_agent, _get_default_fallback_settings.
  cbn [py_get as_dict lookup String.eqb Ascii.eqb Bool.eqb].
  destruct (String.eqb agent_name "default"); vm_compute; reflexivity.
Qed.

Lemma lookup_assoc_set_some k k' v d :
  lookup k (assoc_set k' v d) <> None <-> k = k' \/ lookup k d <> None.
Proof.
  destruct (String.eqb_spec k k') as [->|Hne].
  - rewrite lookup_assoc_set_eq. split; [auto|discriminate].
  - rewrite lookup_assoc_set_ne by assumption. tauto.
Qed.

Lemma lookup_some_in k d : lookup k d <> None <-> In k (map fst d).
Proof.
  induction d as [|[k' v] d IH]; cbn [lookup map fst In]; [tauto|].
  destruct (String.eqb_spec k k') as [->|Hne].
  - split; [auto|discriminate].
  - rewrite IH. split; [auto|]. intros [H|H]; [congruence|assumption].
Qed.

Lemma in_insert_sorted x y l : In x (insert_sorted y l) <-> x = y \/ In x l.
Proof.
  induction l as [|z l IH]; cbn [insert_sorted In]; [intuition congruence|].
  destruct (String.leb y z); cbn [In]; rewrite ?IH; intuition congruence.
Qed.

Lemma in_sorted x l : In x (sorted l) <-> In x l.
Proof.
  unfold sorted. induction l as [|y l IH]; cbn [fold_right In]; [tauto|].
  rewrite in_insert_sorted, IH. intuition congruence.
Qed.

Lemma assignment_is_row details row : assignment details = Ok row -> is_row row.
Proof.
  unfold assignment.
  destruct (config_item details "provider"); [|discriminate].
  destruct (config_item details "model_name"); [|discriminate].
  destruct (config_item details "api_base"); [|discriminate].
  intros [= <-]. eexists _, _, _. reflexivity.
Qed.

Lemma assoc_set_rows k v d :
  is_row v -> Forall (fun kv => is_row (snd kv)) d ->
  Forall (fun kv => is_row (snd kv)) (assoc_set k v d).
Proof.
  intros Hv. induction 1 as [|[k' v'] d Hd Hrest IH]; cbn [assoc_set].
  - constructor; [exact Hv|constructor].
  - destruct (String.eqb k k'); constructor; auto.
Qed.

Lemma assign_each_rows settings names : forall acc rows,
  assign_each getenv settings names acc = Ok rows ->
  (Forall (fun kv => is_row (snd kv)) acc -> Forall (fun kv => is_row (snd kv)) rows) /\
  (forall k, lookup k rows <> None <->
             lookup k acc <> None \/ (k <> "default" /\ In k names)).
Proof.
  induction names as [|n names IH]; intros acc rows; cbn [assign_each In].
  - intros [= <-]. split; [auto|]. intros k. tauto.
  - destruct (String.eqb_spec n "default") as [->|Hn].
    + intros H. destruct (IH _ _ H) as [Hrows Hkeys]. split; [exact Hrows|].
      intros k. rewrite Hkeys. intuition congruence.
    + destruct (get_model_details_for_agent getenv settings n) as [details|];
        [|discriminate].
      destruct (assignment details) as [row|] eqn:Hrow; [|discriminate].
      intros H. destruct (IH _ _ H) as [Hrows Hkeys]. split.
      * intros Hacc. apply Hrows. apply assoc_set_rows; [|exact Hacc].
        now apply (assignment_is_row details).
      * intros k. rewrite Hkeys, lookup_assoc_set_some. intuition congruence.
Qed.

(** X11. The summary of assignments has a row for every agent the
    overrides name, a row for the unassigned agents, and no other row; in
    particular ['default'] has no row of its own. Every row shows a
    provider, a model and an API base. *)
Theorem assignments_cover_the_agents settings summary :
  list_agent_model_assignments getenv settings = Ok summary ->
  exists rows overrides entries,
    summary = VDict rows /\
    config_item settings "overrides" = Ok overrides /\
    as_dict overrides = Some entries /\
    Forall (fun kv => is_row (snd kv)) rows /\
    (forall k, lookup k rows <> None <->
               k = fallback_row_name \/ (k <> "default" /\ lookup k entries <> None)) /\
    lookup "default" rows = None.
Proof.
  unfold list_agent_model_assignments.
  destruct (config_item settings "overrides") as [overrides|]; [|discriminate].
  destruct (as_dict overrides) as [entries|] eqn:He; [|discriminate].
  destruct (assign_each getenv settings (sorted (map fst entries)) []) as [acc|] eqn:Hacc;
    [|discriminate].
  destruct (get_model_details_for_agent getenv settings _) as [details|]; [|discriminate].
  destruct (assignment details) as [row|] eqn:Hrow; [|discriminate].
  intros [= <-].
  destruct (assign_each_rows _ _ _ _ Hacc) as [Hrows Hkeys].
  assert (Hall : forall k,
             lookup k (assoc_set fallback_row_name row acc) <> None <->
             k = fallback_row_name \/ (k <> "default" /\ lookup k entries <> None)).
  { intros k. rewrite lookup_assoc_set_some, Hkeys, in_sorted, <- lookup_some_in.
    cbn [lookup]. intuition congruence. }
  eexists _, overrides, entries. split; [reflexivity|].
  split; [reflexivity|]. split; [exact He|]. split; [|split; [exact Hall|]].
  - apply assoc_set_rows; [now apply (assignment_is_row details)|].
    apply Hrows. constructor.
  - destruct (lookup "default" (assoc_set fallback_row_name row acc)) eqn:Hd;
      [|reflexivity].
    assert (Hsome : lookup "default" (assoc_set fallback_row_name row acc) <> None)
      by (rewrite Hd; discriminate).
    apply Hall in Hsome as [Hsome|[Hsome _]]; [discriminate Hsome|congruence].
Qed.

End Routing.

(** ** What the orchestrator keeps *)

Section Keeps.
Context {A B : Type}.
Variable R : orchestrator -> orchestrator -> Prop.
Hypothesis R_refl : forall o, R o o.
Hypothesis R_trans : forall a b c, R a b -> R b c -> R a c.

Lemma keeps_ret o (a : A) : keeps R o (ret a).
Proof. intros x o' [= _ <-]. apply R_refl. Qed.

Lemma keeps_raise o e : keeps R o (@raise orchestrator A e).
Proof. intros x o' H. discriminate H. Qed.

Lemma keeps_lift o (r : result A) : keeps R o (lift r).
Proof. intros x o' H. unfold lift in H. destruct r; [|discriminate]. injection H as _ <-. apply R_refl. Qed.

Lemma keeps_get o : keeps R o get.
Proof. intros x o' [= _ <-]. apply R_refl. Qed.

Lemma keeps_modify o f : R o (f o) -> keeps R o (modify f).
Proof. intros H x o' [= _ <-]. exact H. Qed.

Lemma keeps_put o s : R o s -> keeps R o (put s).
Proof. intros H x o' [= _ <-]. exact H. Qed.

Lemma keeps_bind o (m : M orchestrator A) (k : A -> M orchestrator B) :
  keeps R o m -> (forall a o1, keeps R o1 (k a)) -> keeps R o (bind m k).
Proof.
  intros Hm Hk b o'. unfold bind. destruct (m o) as [[a o1]|] eqn:Hrun; [|discriminate].
  intros H. apply (R_trans _ o1); [now apply (Hm a)|now apply (Hk a o1 b)].
Qed.

Lemma keeps_bind_get o (k : orchestrator -> M orchestrator B) :
  keeps R o (k o) -> keeps R o (bind get k).
Proof. intros Hk b o' H. now apply (Hk b). Qed.

Lemma keeps_bind_lift o (r : result A) (k : A -> M orchestrator B) :
  (forall a, r = Ok a -> keeps R o (k a)) -> keeps R o (bind (lift r) k).
Proof.
  intros Hk b o'. unfold bind, lift. destruct r as [a|]; [|discriminate].
  now apply (Hk a).
Qed.

Lemma keeps_bind_ret o (a : A) (k : A -> M orchestrator B) :
  keeps R o (k a) -> keeps R o (bind (ret a) k).
Proof. intros Hk b o' H. now apply (Hk b). Qed.

End Keeps.

(** One step of a proof that a computation keeps [R]. *)
Ltac keeps_step :=
  match goal with
  | |- keeps _ _ (bind get _) => apply keeps_bind_get
  | |- keeps _ _ (bind (lift _) _) => apply keeps_bind_lift; intros ? ?
  | |- keeps _ _ (bind (ret _) _) => apply keeps_bind_ret
  | |- keeps _ _ (bind (if ?b then _ else _) _) => destruct b eqn:?
  | |- keeps _ _ (bind (match ?x with _ => _ end) _) => destruct x eqn:?
  | |- keeps _ _ (bind _ _) => apply keeps_bind; [assumption| |intros ? ?]
  | |- keeps _ _ (ret _) => apply keeps_ret; assumption
  | |- keeps _ _ (raise _) => apply keeps_raise
  | |- keeps _ _ (lift _) => apply keeps_lift; assumption
  | |- keeps _ _ (if ?b then _ else _) => destruct b eqn:?
  | |- keeps _ _ (match ?x with _ => _ end) => destruct x eqn:?
  | |- keeps _ _ (let '(_, _) := ?x in _) => destruct x eqn:?
  end.

Section EventHandling.
Variable getattr_walk : value -> list string -> result (option string).
Variable uuid4 : nat -> string.
Variable R : orchestrator -> orchestrator -> Prop.
Hypothesis R_refl : forall o, R o o.
Hypothesis R_trans : forall a b c, R a b -> R b c -> R a c.
Hypothesis R_log : forall o more, R o (set_log o (log o ++ more)).
Hypothesis R_state : forall o state, R o (set_project_state o state).
Hypothesis R_uuid : forall o, R o (set_uuid_count o (S (uuid_count o))).
Hypothesis R_human : forall o more, R o (set_human_inbox o (human_inbox o ++ more)).
Hypothesis R_deliver : forall o agent_name m,
  R o (set_agents o
         (update_agent agent_name
            (fun a => {| name := name a; inbox := inbox a ++ [m];
                         knowledge_base := knowledge_base a |})
            (agents o))).

Create HintDb keeps.

Lemma keeps_log who text values o : keeps R o (_log who text values).
Proof. apply keeps_modify. apply R_log. Qed.
#[local] Hint Resolve keeps_log : keeps.

Ltac keeps_tac :=
  repeat first [ solve [auto with keeps]
               | apply keeps_put; solve [auto]
               | apply keeps_modify; solve [auto]
               | keeps_step ].

Lemma keeps_fresh_uuid o : keeps R o (fresh_uuid uuid4).
Proof. unfold fresh_uuid. keeps_tac. Qed.
#[local] Hint Resolve keeps_fresh_uuid : keeps.

Lemma keeps_receive_message agent_name m o : keeps R o (receive_message agent_name m).
Proof. unfold receive_message. keeps_tac. Qed.
#[local] Hint Resolve keeps_receive_message : keeps.

Lemma keeps_send_to_human message_type body options ctx o :
  keeps R o (send_to_human message_type body options ctx).
Proof. unfold send_to_human. keeps_tac. Qed.
#[local] Hint Resolve keeps_send_to_human : keeps.

Lemma keeps_update_project_state path x o : keeps R o (_update_project_state path x).
Proof. unfold _update_project_state. keeps_tac. Qed.
#[local] Hint Resolve keeps_update_project_state : keeps.

Lemma keeps_delegate_task agent_name task_name body ctx o :
  keeps R o (_delegate_task uuid4 agent_name task_name body ctx).
Proof. unfold _delegate_task. keeps_tac. Qed.
#[local] Hint Resolve keeps_delegate_task : keeps.

Lemma keeps_current_retries agent_name ctx o :
  keeps R o (current_retries agent_name ctx).
Proof. unfold current_retries. keeps_tac. Qed.
#[local] Hint Resolve keeps_current_retries : keeps.

Lemma keeps_execute_update_state action event_data o :
  keeps R o (execute_update_state getattr_walk action event_data).
Proof. unfold execute_update_state. keeps_tac. Qed.
#[local] Hint Resolve keeps_execute_update_state : keeps.

Lemma keeps_execute_send_human_message action event_data o :
  keeps R o (execute_send_human_message getattr_walk uuid4 action event_data).
Proof. unfold execute_send_human_message. keeps_tac. Qed.
#[local] Hint Resolve keeps_execute_send_human_message : keeps.

Lemma keeps_choose_context_id action event_data templated task_name o :
  keeps R o (choose_context_id uuid4 action event_data templated task_name).
Proof. unfold choose_context_id. keeps_tac. Qed.
#[local] Hint Resolve keeps_choose_context_id : keeps.

Lemma keeps_add_retry_attempt agent_name body ctx o :
  keeps R o (add_retry_attempt agent_name body ctx).
Proof. unfold add_retry_attempt. keeps_tac. Qed.
#[local] Hint Resolve keeps_add_retry_attempt : keeps.

Lemma keeps_execute_delegate_task action event_data o :
  keeps R o (execute_delegate_task getattr_walk uuid4 action event_data).
Proof. unfold execute_delegate_task. keeps_tac. Qed.
#[local] Hint Resolve keeps_execute_delegate_task : keeps.

Lemma keeps_execute_action action event_data o :
  keeps R o (execute_action getattr_walk uuid4 action event_data).
Proof. unfold execute_action. keeps_tac. Qed.
#[local] Hint Resolve keeps_execute_action : keeps.

Lemma keeps_execute_each actions event_data : forall o,
  keeps R o (execute_each getattr_walk uuid4 actions event_data).
Proof.
  induction actions as [|action rest IH]; intros o; cbn [execute_each]; keeps_tac.
Qed.
#[local] Hint Resolve keeps_execute_each : keeps.

Lemma keeps_execute_actions actions event_data o :
  keeps R o (_execute_actions getattr_walk uuid4 actions event_data).
Proof. unfold _execute_actions. keeps_tac. Qed.
#[local] Hint Resolve keeps_execute_actions : keeps.

Lemma keeps_engine_process_event event_type event_data o :
  keeps R o (engine_process_event event_type event_data).
Proof.
  intros [actions ev] o'. unfold engine_process_event.
  destruct (process_event _ _ _) as [[acts [ev' state]]|]; [|discriminate].
  intros [= _ _ <-]. apply R_state.
Qed.
#[local] Hint Resolve keeps_engine_process_event : keeps.

Lemma keeps_process_orchestrator_message m o :
  keeps R o (_process_orchestrator_message getattr_walk uuid4 m).
Proof. unfold _process_orchestrator_message. keeps_tac. Qed.

Lemma keeps_get_human_input response ctx o :
  keeps R o (get_human_input getattr_walk uuid4 response ctx).
Proof. unfold get_human_input. keeps_tac. Qed.

Lemma keeps_start_app_development user_idea o :
  keeps R o (start_app_development getattr_walk uuid4 user_idea).
Proof. unfold start_app_development. keeps_tac. Qed.

End EventHandling.

(** *** Nothing is taken away while an event is handled *)

Section OnlyAdds.

Lemma appended_refl {A : Type} (l : list A) : appended l l.
Proof. exists []. now rewrite app_nil_r. Qed.

Lemma appended_trans {A : Type} (a b c : list A) :
  appended a b -> appended b c -> appended a c.
Proof. intros [x ->] [y ->]. exists (x ++ y)%list. now rewrite app_assoc. Qed.

Lemma appended_app {A : Type} (l more : list A) : appended l (l ++ more).
Proof. now exists more. Qed.

Lemma inbox_grows_refl a : inbox_grows a a.
Proof. repeat split. apply appended_refl. Qed.

Lemma inbox_grows_trans a b c : inbox_grows a b -> inbox_grows b c -> inbox_grows a c.
Proof.
  intros (H1 & H2 & H3) (H4 & H5 & H6). repeat split; try congruence.
  now apply (appended_trans _ (inbox b)).
Qed.

Lemma agents_grow_refl l : Forall2 inbox_grows l l.
Proof. induction l; constructor; auto using inbox_grows_refl. Qed.

Lemma agents_grow_trans a : forall b c,
  Forall2 inbox_grows a b -> Forall2 inbox_grows b c -> Forall2 inbox_grows a c.
Proof.
  induction a as [|x a IH]; intros b c Hab Hbc; inversion Hab; subst;
    inversion Hbc; subst; constructor.
  - eapply inbox_grows_trans; eassumption.
  - eapply IH; eassumption.
Qed.

Lemma agents_grow_deliver agent_name m l :
  Forall2 inbox_grows l
    (update_agent agent_name
       (fun a => {| name := name a; inbox := inbox a ++ [m];
                    knowledge_base := knowledge_base a |}) l).
Proof.
  induction l as [|a l IH]; cbn [update_agent]; [constructor|].
  destruct (String.eqb (name a) agent_name); constructor;
    auto using inbox_grows_refl, agents_grow_refl.
  repeat split. cbn [inbox]. apply appended_app.
Qed.

Lemma only_adds_refl o : only_adds o o.
Proof.
  repeat split; auto using agents_grow_refl, appended_refl.
Qed.

Lemma only_adds_trans a b c : only_adds a b -> only_adds b c -> only_adds a c.
Proof.
  intros (H1 & H2 & H3 & H4 & H5 & H6 & H7) (K1 & K2 & K3 & K4 & K5 & K6 & K7).
  repeat split; try congruence; try lia.
  - eapply agents_grow_trans; eassumption.
  - eapply appended_trans; eassumption.
  - eapply appended_trans; eassumption.
Qed.

Lemma only_adds_log o more : only_adds o (set_log o (log o ++ more)).
Proof.
  repeat split; cbn; auto using agents_grow_refl, appended_refl, appended_app.
Qed.

Lemma only_adds_state o state : only_adds o (set_project_state o state).
Proof.
  repeat split; cbn; auto using agents_grow_refl, appended_refl.
Qed.

Lemma only_adds_uuid o : only_adds o (set_uuid_count o (S (uuid_count o))).
Proof.
  repeat split; cbn; auto using agents_grow_refl, appended_refl.
Qed.

Lemma only_adds_human o more : only_adds o (set_human_inbox o (human_inbox o ++ more)).
Proof.
  repeat split; cbn; auto using agents_grow_refl, appended_refl, appended_app.
Qed.

Lemma only_adds_deliver o agent_name m :
  only_adds o
    (set_agents o
       (update_agent agent_name
          (fun a => {| name := name a; inbox := inbox a ++ [m];
                       knowledge_base := knowledge_base a |})
          (agents o))).
Proof.
  repeat split; cbn; auto using agents_grow_deliver, appended_refl.
Qed.

Variable getattr_walk : value -> list string -> result (option string).
Variable uuid4 : nat -> string.


End OnlyAdds.

(** *** What a whole cycle keeps *)

Section Cycle.
Variable getattr_walk : value -> list string -> result (option string).
Variable uuid4 : nat -> string.
Variable process_task : string -> value -> value -> outcome * value.
Variable R : orchestrator -> orchestrator -> Prop.
Hypothesis R_refl : forall o, R o o.
Hypothesis R_trans : forall a b c, R a b -> R b c -> R a c.
Hypothesis R_log : forall o more, R o (set_log o (log o ++ more)).
Hypothesis R_state : forall o state, R o (set_project_state o state).
Hypothesis R_uuid : forall o, R o (set_uuid_count o (S (uuid_count o))).
Hypothesis R_human : forall o more, R o (set_human_inbox o (human_inbox o ++ more)).
Hypothesis R_agent : forall o agent_name f,
  (forall a, name (f a) = name a) ->
  R o (set_agents o (update_agent agent_name f (agents o))).
Hypothesis R_queue : forall o queue, R o (set_internal_message_queue o queue).
Hypothesis R_pop : forall o x rest,
  human_outbox o = x :: rest -> R o (set_human_outbox o rest).

Create HintDb cycle.

Lemma cycle_log who text values o : keeps R o (_log who text values).
Proof. apply keeps_modify. apply R_log. Qed.

Lemma cycle_receive_message agent_name m o : keeps R o (receive_message agent_name m).
Proof.
  apply keeps_receive_message; auto; intros; apply R_agent; reflexivity.
Qed.

Lemma cycle_process_orchestrator_message m o :
  keeps R o (_process_orchestrator_message getattr_walk uuid4 m).
Proof.
  apply keeps_process_orchestrator_message; auto; intros; apply R_agent; reflexivity.
Qed.

Lemma cycle_get_human_input response ctx o :
  keeps R o (get_human_input getattr_walk uuid4 response ctx).
Proof.
  apply keeps_get_human_input; auto; intros; apply R_agent; reflexivity.
Qed.

Lemma cycle_start_app_development user_idea o :
  keeps R o (start_app_development getattr_walk uuid4 user_idea).
Proof.
  apply keeps_start_app_development; auto; intros; apply R_agent; reflexivity.
Qed.

Lemma cycle_fresh_uuid o : keeps R o (fresh_uuid uuid4).
Proof. apply keeps_fresh_uuid; auto. Qed.

#[local] Hint Resolve cycle_log cycle_receive_message
  cycle_process_orchestrator_message cycle_get_human_input cycle_fresh_uuid : cycle.

Ltac cycle_tac :=
  repeat first [ solve [auto with cycle]
               | apply keeps_put; solve [eauto]
               | apply keeps_modify; solve [auto]
               | apply keeps_modify; apply R_agent; reflexivity
               | keeps_step ].

Lemma cycle_send_message agent_name recipient_name message_type body ctx o :
  keeps R o (send_message uuid4 agent_name recipient_name message_type body ctx).
Proof. unfold send_message, route_internal_message. cycle_tac. Qed.
#[local] Hint Resolve cycle_send_message : cycle.

Lemma cycle_process_pending_tasks_of a o :
  keeps R o (process_pending_tasks_of uuid4 process_task a).
Proof.
  unfold process_pending_tasks_of, set_inbox, set_knowledge_base. cycle_tac.
Qed.
#[local] Hint Resolve cycle_process_pending_tasks_of : cycle.

Lemma cycle_process_pending_tasks agent_name o :
  keeps R o (process_pending_tasks uuid4 process_task agent_name).
Proof. unfold process_pending_tasks. cycle_tac. Qed.
#[local] Hint Resolve cycle_process_pending_tasks : cycle.

Lemma cycle_agents_loop names : forall o,
  keeps R o (agents_loop uuid4 process_task names).
Proof.
  induction names as [|n names IH]; intros o; cbn [agents_loop]; cycle_tac.
Qed.
#[local] Hint Resolve cycle_agents_loop : cycle.

Lemma cycle_process_internal_loop budget : forall processed_count o,
  keeps R o (process_internal_loop getattr_walk uuid4 budget processed_count).
Proof.
  induction budget as [|budget IH]; intros processed_count o;
    cbn [process_internal_loop]; cycle_tac.
Qed.
#[local] Hint Resolve cycle_process_internal_loop : cycle.

Lemma cycle_process_internal_messages o :
  keeps R o (_process_internal_messages getattr_walk uuid4).
Proof. unfold _process_internal_messages. cycle_tac. Qed.
#[local] Hint Resolve cycle_process_internal_messages : cycle.

Lemma cycle_human_input_loop budget : forall processed o,
  keeps R o (human_input_loop getattr_walk uuid4 budget processed).
Proof.
  induction budget as [|budget IH]; intros processed o;
    cbn [human_input_loop]; cycle_tac.
Qed.
#[local] Hint Resolve cycle_human_input_loop : cycle.

Lemma cycle_run_simulation_cycle o :
  keeps R o (run_simulation_cycle getattr_walk uuid4 process_task).
Proof. unfold run_simulation_cycle. cycle_tac. Qed.

End Cycle.

Lemma bind_inv {S A B : Type} (m : M S A) (k : A -> M S B) s b s' :
  bind m k s = Ok (b, s') ->
  exists a s1, m s = Ok (a, s1) /\ k a s1 = Ok (b, s').
Proof.
  unfold bind. destruct (m s) as [[a s1]|]; [|discriminate].
  intros H. now exists a, s1.
Qed.

Section CycleFrame.

Lemma remainder_refl {A : Type} (l : list A) : remainder l l.
Proof. now exists []. Qed.

Lemma remainder_trans {A : Type} (a b c : list A) :
  remainder a b -> remainder b c -> remainder a c.
Proof. intros [x ->] [y ->]. exists (x ++ y)%list. now rewrite app_assoc. Qed.

Lemma update_agent_names agent_name f l :
  (forall a, name (f a) = name a) ->
  map name (update_agent agent_name f l) = map name l.
Proof.
  intros Hf. induction l as [|a l IH]; cbn [update_agent map]; [reflexivity|].
  destruct (String.eqb (name a) agent_name); cbn [map]; now rewrite ?Hf, ?IH.
Qed.

Lemma cycle_keeps_refl o : cycle_keeps o o.
Proof. repeat split; auto using appended_refl, remainder_refl. Qed.

Lemma cycle_keeps_trans a b c : cycle_keeps a b -> cycle_keeps b c -> cycle_keeps a c.
Proof.
  intros (H1 & H2 & H3 & H4 & H5) (K1 & K2 & K3 & K4 & K5).
  repeat split; try congruence; try lia.
  - eapply appended_trans; eassumption.
  - eapply remainder_trans; eassumption.
Qed.

Lemma cycle_keeps_log o more : cycle_keeps o (set_log o (log o ++ more)).
Proof. repeat split; cbn; auto using appended_app, remainder_refl. Qed.

Lemma cycle_keeps_state o state : cycle_keeps o (set_project_state o state).
Proof. repeat split; cbn; auto using appended_refl, remainder_refl. Qed.

Lemma cycle_keeps_uuid o : cycle_keeps o (set_uuid_count o (S (uuid_count o))).
Proof. repeat split; cbn; auto using appended_refl, remainder_refl. Qed.

Lemma cycle_keeps_human o more :
  cycle_keeps o (set_human_inbox o (human_inbox o ++ more)).
Proof. repeat split; cbn; auto using appended_refl, remainder_refl. Qed.

Lemma cycle_keeps_agent o agent_name f :
  (forall a, name (f a) = name a) ->
  cycle_keeps o (set_agents o (update_agent agent_name f (agents o))).
Proof.
  intros Hf. repeat split; cbn;
    auto using appended_refl, remainder_refl, update_agent_names.
Qed.

Lemma cycle_keeps_queue o queue : cycle_keeps o (set_internal_message_queue o queue).
Proof. repeat split; cbn; auto using appended_refl, remainder_refl. Qed.

Lemma cycle_keeps_pop o x rest :
  human_outbox o = x :: rest -> cycle_keeps o (set_human_outbox o rest).
Proof.
  intros Hx. repeat split; cbn; auto using appended_refl.
  rewrite Hx. now exists [x].
Qed.

Variable getattr_walk : value -> list string -> result (option string).
Variable uuid4 : nat -> string.
Variable process_task : string -> value -> value -> outcome * value.

Lemma cycle_keeps_human_input_loop budget processed o :
  keeps cycle_keeps o (human_input_loop getattr_walk uuid4 budget processed).
Proof.
  apply cycle_human_input_loop;
    first [ exact cycle_keeps_refl | exact cycle_keeps_trans | exact cycle_keeps_log
          | exact cycle_keeps_state | exact cycle_keeps_uuid | exact cycle_keeps_human
          | exact cycle_keeps_agent | exact cycle_keeps_queue | exact cycle_keeps_pop ].
Qed.

(** X13. A simulation cycle, whatever the rules, the agents and the
    messages in flight, leaves the rule table and the set of registered
    agents as they are, only adds to the log and to the identifiers drawn,
    and only takes entries from the head of the human outbox: nothing in a
    cycle puts an entry there, so an empty outbox stays empty. *)
Theorem cycle_keeps_the_frame o o' :
  run_simulation_cycle getattr_walk uuid4 process_task o = Ok (tt, o') ->
  cycle_keeps o o' /\ (human_outbox o = [] -> human_outbox o' = []).
Proof.
  intros H.
  assert (Hk : cycle_keeps o o').
  { eapply (cycle_run_simulation_cycle getattr_walk uuid4 process_task cycle_keeps);
      first [ exact cycle_keeps_refl | exact cycle_keeps_trans | exact cycle_keeps_log
            | exact cycle_keeps_state | exact cycle_keeps_uuid | exact cycle_keeps_human
            | exact cycle_keeps_agent | exact cycle_keeps_queue | exact cycle_keeps_pop
            | exact H ]. }
  split; [exact Hk|].
  intros Hempty. destruct Hk as (_ & _ & _ & _ & [taken Ht]).
  rewrite Hempty in Ht. symmetry in Ht. apply app_eq_nil in Ht. apply Ht.
Qed.

End CycleFrame.

(** *** The batch of internal messages *)

Section InternalBatch.
Variable getattr_walk : value -> list string -> result (option string).
Variable uuid4 : nat -> string.

Lemma adds_log who text values o : keeps only_adds o (_log who text values).
Proof. apply keeps_modify. apply only_adds_log. Qed.

Lemma adds_receive_message agent_name m o :
  keeps only_adds o (receive_message agent_name m).
Proof.
  apply keeps_receive_message;
    first [ exact only_adds_trans | exact only_adds_log | exact only_adds_deliver ].
Qed.

Lemma adds_process_orchestrator_message m o :
  keeps only_adds o (_process_orchestrator_message getattr_walk uuid4 m).
Proof.
  apply keeps_process_orchestrator_message;
    first [ exact only_adds_refl | exact only_adds_trans | exact only_adds_log
          | exact only_adds_state | exact only_adds_uuid | exact only_adds_human
          | exact only_adds_deliver ].
Qed.

Create HintDb adds.
#[local] Hint Resolve adds_log adds_receive_message
  adds_process_orchestrator_message : adds.

Lemma only_adds_requeue o o' queue :
  only_adds o o' ->
  only_adds (set_internal_message_queue o queue) (set_internal_message_queue o' queue).
Proof.
  intros (H1 & H2 & H3 & H4 & H5 & H6 & H7). repeat split; cbn; auto.
Qed.

Lemma requeue_same o : set_internal_message_queue o (internal_message_queue o) = o.
Proof. now destruct o. Qed.

Lemma process_internal_loop_takes budget : forall processed_count o n o',
  process_internal_loop getattr_walk uuid4 budget processed_count o = Ok (n, o') ->
  only_adds
    (set_internal_message_queue o (skipn budget (internal_message_queue o))) o'.
Proof.
  pose proof only_adds_refl as Hrefl. pose proof only_adds_trans as Htrans.
  induction budget as [|budget IH]; intros processed_count o n o' H.
  - injection H as _ <-. cbn [skipn]. rewrite requeue_same. apply only_adds_refl.
  - cbn [process_internal_loop] in H. unfold bind at 1, get in H.
    destruct (internal_message_queue o) as [|m rest] eqn:Hq.
    + injection H as _ <-. cbn [skipn]. rewrite <- Hq, requeue_same.
      apply only_adds_refl.
    + unfold bind at 1, put in H. apply bind_inv in H as (x & o2 & Hstep & Hloop).
      assert (Hadds : only_adds (set_internal_message_queue o rest) o2).
      { revert Hstep.
        match goal with
        | |- ?m _ = _ -> _ =>
            assert (Hk : keeps only_adds (set_internal_message_queue o rest) m)
        end.
        { repeat first [ solve [auto with adds] | keeps_step ]. }
        apply Hk. }
      assert (Hrest : internal_message_queue o2 = rest)
        by (destruct Hadds as (_ & Hsame & _); exact Hsame).
      apply IH in Hloop. rewrite Hrest in Hloop. cbn [skipn].
      apply (only_adds_requeue _ _ (skipn budget rest)) in Hadds.
      eapply only_adds_trans; [exact Hadds|exact Hloop].
Qed.


End InternalBatch.

(** ** The order of the phases of a cycle *)

Section HumanBatch.
Variable getattr_walk : value -> list string -> result (option string).
Variable uuid4 : nat -> string.

Lemma adds_get_human_input response ctx o :
  keeps only_adds o (get_human_input getattr_walk uuid4 response ctx).
Proof.
  apply keeps_get_human_input;
    first [ exact only_adds_refl | exact only_adds_trans | exact only_adds_log
          | exact only_adds_state | exact only_adds_uuid | exact only_adds_human
          | exact only_adds_deliver ].
Qed.

Lemma only_adds_reoutbox o o' outbox :
  only_adds o o' ->
  only_adds (set_human_outbox o outbox) (set_human_outbox o' outbox).
Proof.
  intros (H1 & H2 & H3 & H4 & H5 & H6 & H7). repeat split; cbn; auto.
Qed.

Lemma reoutbox_same o : set_human_outbox o (human_outbox o) = o.
Proof. now destruct o. Qed.

(** The loop over [human_outbox] takes the first [budget] responses, all
    of them when there are fewer, and counts them. *)
Lemma human_input_loop_takes budget : forall processed o n o',
  human_input_loop getattr_walk uuid4 budget processed o = Ok (n, o') ->
  n = processed + Nat.min budget (length (human_outbox o)) /\
  only_adds (set_human_outbox o (skipn budget (human_outbox o))) o'.
Proof.
  induction budget as [|budget IH]; intros processed o n o' H.
  - injection H as <- <-. cbn [skipn Nat.min]. rewrite reoutbox_same.
    split; [lia|apply only_adds_refl].
  - cbn [human_input_loop] in H. unfold bind at 1, get in H.
    destruct (human_outbox o) as [|[response ctx] rest] eqn:Hq.
    + injection H as <- <-. cbn [skipn length Nat.min]. rewrite <- Hq, reoutbox_same.
      split; [lia|apply only_adds_refl].
    + unfold bind at 1, put in H.
      apply bind_inv in H as (x1 & o1 & Hslice & H).
      apply bind_inv in H as (x2 & o2 & Hlog & H).
      apply bind_inv in H as (x3 & o3 & Hinput & Hloop).
      assert (H1 : o1 = set_human_outbox o rest).
      { unfold lift in Hslice. destruct (slice_if_truthy ctx); [|discriminate].
        now injection Hslice as _ <-. }
      subst o1.
      assert (Hadds : only_adds (set_human_outbox o rest) o3).
      { eapply only_adds_trans; [eapply adds_log; exact Hlog|].
        eapply adds_get_human_input. exact Hinput. }
      assert (Hrest : human_outbox o3 = rest)
        by (destruct Hadds as (_ & _ & Hsame & _); exact Hsame).
      apply IH in Hloop as [Hn Hloop]. rewrite Hrest in Hn, Hloop.
      cbn [skipn length Nat.min]. split; [lia|].
      apply (only_adds_reoutbox _ _ (skipn budget rest)) in Hadds.
      eapply only_adds_trans; [exact Hadds|exact Hloop].
Qed.

End HumanBatch.

Section WorkersTurn.
Variable uuid4 : nat -> string.
Variable process_task : string -> value -> value -> outcome * value.

Lemma same_inboxes_refl o : same_inboxes o o.
Proof. unfold same_inboxes. induction (agents o); constructor; auto. Qed.

Lemma same_inboxes_trans a b c : same_inboxes a b -> same_inboxes b c -> same_inboxes a c.
Proof.
  unfold same_inboxes. generalize (agents a), (agents b), (agents c). clear.
  induction l as [|x l IH]; intros m n Hlm Hmn;
    inversion Hlm as [|? ? ? ? [Hn Hi] Hl]; subst;
    inversion Hmn as [|? ? ? ? [Hn' Hi'] Hm]; subst; constructor.
  - split; congruence.
  - eapply IH; eassumption.
Qed.

Lemma same_inboxes_agents o o' : agents o' = agents o -> same_inboxes o o'.
Proof. unfold same_inboxes. intros ->. apply (same_inboxes_refl o). Qed.

Lemma same_inboxes_update o agent_name f :
  (forall a, name (f a) = name a /\ inbox (f a) = inbox a) ->
  same_inboxes o (set_agents o (update_agent agent_name f (agents o))).
Proof.
  intros Hf. unfold same_inboxes. cbn [agents set_agents].
  induction (agents o) as [|a l IH]; cbn [update_agent]; [constructor|].
  destruct (String.eqb (name a) agent_name); constructor; auto.
  apply (same_inboxes_refl (set_agents o l)).
Qed.

Lemma same_log who text values o : keeps same_inboxes o (_log who text values).
Proof. apply keeps_modify. now apply same_inboxes_agents. Qed.

Lemma same_send_message agent_name recipient_name message_type body ctx o :
  keeps same_inboxes o
    (send_message uuid4 agent_name recipient_name message_type body ctx).
Proof.
  intros x o' H. unfold send_message, fresh_uuid, route_internal_message in H.
  munfold. injection H as _ <-. now apply same_inboxes_agents.
Qed.

Lemma same_set_knowledge_base agent_name kb o :
  keeps same_inboxes o (set_knowledge_base agent_name kb).
Proof.
  apply keeps_modify. apply same_inboxes_update. intros a. split; reflexivity.
Qed.

Lemma took_turns_others n l : ~ In n (map name l) -> took_turns [n] l l.
Proof.
  unfold took_turns. induction l as [|c l IH]; intros Hnotin; constructor.
  - cbn [existsb]. rewrite orb_false_r.
    destruct (String.eqb_spec (name c) n) as [Hc|Hc]; [|auto].
    exfalso. apply Hnotin. cbn [map]. now left.
  - apply IH. intros Hin. apply Hnotin. cbn [map]. now right.
Qed.

(** One agent of each name: taking the head of the inbox of the agent
    found under [n] is taking it for every agent named [n]. *)
Lemma took_turns_pop n a rest l :
  NoDup (map name l) -> find_agent n l = Some a -> inbox a = rest ->
  took_turns [n] l
    (update_agent n
       (fun b => {| name := name b; inbox := tl rest;
                    knowledge_base := knowledge_base b |}) l).
Proof.
  unfold find_agent. intros Hnodup Hfind <-.
  induction l as [|b l IH]; cbn [update_agent find map] in *; [constructor|].
  inversion Hnodup as [|? ? Hnotin Hrest]; subst.
  destruct (String.eqb_spec (name b) n) as [Hb|Hb].
  - injection Hfind as ->. constructor.
    + cbn [name inbox existsb]. rewrite orb_false_r, Hb, String.eqb_refl. auto.
    + apply took_turns_others. now rewrite <- Hb.
  - constructor; [|now apply IH].
    cbn [existsb]. rewrite orb_false_r.
    destruct (String.eqb_spec (name b) n); [congruence|auto].
Qed.

Lemma took_turns_idle n l :
  (forall a, find_agent n l = Some a -> inbox a = []) ->
  NoDup (map name l) ->
  took_turns [n] l l.
Proof.
  unfold find_agent. intros Hidle Hnodup.
  induction l as [|b l IH]; [constructor|].
  inversion Hnodup as [|? ? Hnotin Hrest]; subst.
  cbn [find] in Hidle.
  destruct (String.eqb_spec (name b) n) as [Hb|Hb].
  - constructor.
    + cbn [existsb]. now rewrite (Hidle b eq_refl), orb_false_r, Hb, String.eqb_refl.
    + apply took_turns_others. now rewrite <- Hb.
  - constructor; [|now apply IH].
    cbn [existsb]. rewrite orb_false_r.
    destruct (String.eqb_spec (name b) n); [congruence|auto].
Qed.

Lemma took_turns_same names o o1 o2 :
  took_turns names (agents o) (agents o1) -> same_inboxes o1 o2 ->
  took_turns names (agents o) (agents o2).
Proof.
  unfold took_turns, same_inboxes.
  generalize (agents o), (agents o1), (agents o2). clear.
  induction l as [|x l IH]; intros m n Hlm Hmn;
    inversion Hlm as [|? ? ? ? [Hn Hi] Hl]; subst;
    inversion Hmn as [|? ? ? ? [Hn' Hi'] Hm]; subst; constructor.
  - split; congruence.
  - eapply IH; eassumption.
Qed.

Lemma took_turns_names names l l' : took_turns names l l' -> map name l' = map name l.
Proof.
  induction 1 as [|a a' l l' [Hn _] _ IH]; [reflexivity|]. cbn [map]. congruence.
Qed.

(** One activation: the agent named [n] took one message, if it had
    one; no other inbox changed. *)
Lemma process_pending_tasks_turn n o o' :
  NoDup (map name (agents o)) ->
  process_pending_tasks uuid4 process_task n o = Ok (tt, o') ->
  took_turns [n] (agents o) (agents o').
Proof.
  intros Hnodup H. unfold process_pending_tasks in H. unfold bind at 1, get at 1 in H.
  destruct (find_agent n (agents o)) as [a|] eqn:Hfind.
  2:{ injection H as <-. apply took_turns_idle; [|assumption].
      intros a Ha. congruence. }
  pose proof (find_agent_name _ _ _ Hfind) as Hname.
  unfold process_pending_tasks_of in H.
  destruct (inbox a) as [|m rest] eqn:Hin.
  { injection H as <-. apply took_turns_idle; [|assumption].
    intros b Hb. congruence. }
  apply bind_inv in H as (x & o1 & Hpop & Htail).
  unfold set_inbox, modify in Hpop. injection Hpop as _ <-. rewrite Hname in *.
  match type of Htail with
  | _ ?s = _ => apply (took_turns_same [n] o s o')
  end.
  - cbn [agents set_agents].
    exact (took_turns_pop n a (m :: rest) (agents o) Hnodup Hfind Hin).
  - revert Htail.
    match goal with
    | |- ?run ?s = _ -> _ => assert (Hk : keeps same_inboxes s run)
    end.
    { pose proof same_inboxes_refl as Hrefl. pose proof same_inboxes_trans as Htrans.
      repeat first [ apply same_log | apply same_send_message
                   | apply same_set_knowledge_base | keeps_step ]. }
    apply Hk.
Qed.

Lemma took_turns_step n names l l1 l2 :
  ~ In n names ->
  took_turns [n] l l1 -> took_turns names l1 l2 -> took_turns (n :: names) l l2.
Proof.
  unfold took_turns. intros Hn H1. revert l2.
  induction H1 as [|a a1 l l1 [Hname Hin] _ IH]; intros l2 H2;
    inversion H2 as [|b1 b2 t1 t2 [Hname2 Hin2] Hrest2]; subst; constructor.
  - split; [congruence|].
    rewrite Hin2, Hname, Hin. cbn [existsb]. rewrite orb_false_r.
    destruct (String.eqb_spec (name a) n) as [->|Hne]; cbn [orb]; [|reflexivity].
    replace (existsb (String.eqb n) names) with false; [reflexivity|].
    symmetry. apply not_true_iff_false. intros Hex.
    apply existsb_exists in Hex as (k & Hk & Heq). apply String.eqb_eq in Heq.
    subst k. contradiction.
  - now apply IH.
Qed.

(** The workers' phase: every agent named took one message, if it had
    one. *)
Lemma agents_loop_turns names : forall o o',
  NoDup names -> NoDup (map name (agents o)) ->
  agents_loop uuid4 process_task names o = Ok (tt, o') ->
  took_turns names (agents o) (agents o').
Proof.
  induction names as [|n names IH]; intros o o' Hnames Hnodup H.
  - injection H as <-. unfold took_turns. generalize (agents o). clear.
    intros l. induction l; constructor; auto.
  - cbn [agents_loop] in H. apply bind_inv in H as ([] & o1 & Hstep & Hrest).
    inversion Hnames as [|? ? Hnotin Hnames']; subst.
    pose proof (process_pending_tasks_turn n o o1 Hnodup Hstep) as H1.
    assert (Hnodup1 : NoDup (map name (agents o1)))
      by (rewrite (took_turns_names _ _ _ H1); exact Hnodup).
    eapply took_turns_step; [exact Hnotin|exact H1|]. now apply IH.
Qed.

Lemma took_turns_named names l l' :
  took_turns names l l' ->
  (forall a, In a l -> existsb (String.eqb (name a)) names = true) ->
  Forall2 took_one l l'.
Proof.
  unfold took_turns, took_one.
  induction 1 as [|a a' l l' [Hn Hi] _ IH]; intros Hall; constructor.
  - split; [exact Hn|]. rewrite Hi, Hall; [reflexivity|now left].
  - apply IH. intros b Hb. apply Hall. now right.
Qed.

Lemma took_turns_all l l' :
  took_turns (map name l) l l' -> Forall2 took_one l l'.
Proof.
  intros H. apply (took_turns_named _ _ _ H).
  intros a Ha. apply existsb_exists. exists (name a). split; [now apply in_map|].
  apply String.eqb_refl.
Qed.

End WorkersTurn.

Section Order.
Variable getattr_walk : value -> list string -> result (option string).
Variable uuid4 : nat -> string.
Variable process_task : string -> value -> value -> outcome * value.

Lemma only_logs_log who text values o o' :
  _log who text values o = Ok (tt, o') -> only_logs o o'.
Proof. intros [= <-]. eexists. reflexivity. Qed.

Lemma only_logs_refl o : only_logs o o.
Proof. exists []. rewrite app_nil_r. now destruct o. Qed.

Lemma only_logs_trans a b c : only_logs a b -> only_logs b c -> only_logs a c.
Proof.
  intros [x ->] [y ->]. exists (x ++ y)%list. cbn. now rewrite app_assoc.
Qed.

Lemma human_input_loop_empty budget processed o :
  human_outbox o = [] ->
  human_input_loop getattr_walk uuid4 budget processed o = Ok (processed, o).
Proof.
  intros H. destruct budget; [reflexivity|].
  cbn [human_input_loop]. unfold bind, get. now rewrite H.
Qed.

(** C9, as the code has it. A cycle that returns has run its three
    phases in this order, logging in between and at both ends: first the
    loop over the human outbox, which feeds the first five pending
    responses, all of them when there are fewer, to the engine; then one
    activation of every registered agent, in which each agent (they are
    registered under different names) takes one message from its inbox
    if it has one; then the batch of internal
    messages, which takes the first ten off the internal queue. *)
Theorem cycle_phases_in_order o o' :
  run_simulation_cycle getattr_walk uuid4 process_task o = Ok (tt, o') ->
  exists n o0 o1 o1' o2 o2' o3,
    only_logs o o0 /\
    human_input_loop getattr_walk uuid4 5 0 o0 = Ok (n, o1) /\
    n = Nat.min 5 (length (human_outbox o)) /\
    human_outbox o1 = skipn 5 (human_outbox o) /\
    only_logs o1 o1' /\
    agents_loop uuid4 process_task (map name (agents o1')) o1' = Ok (tt, o2) /\
    (NoDup (map name (agents o)) -> Forall2 took_one (agents o1') (agents o2)) /\
    only_logs o2 o2' /\
    _process_internal_messages getattr_walk uuid4 o2' = Ok (tt, o3) /\
    internal_message_queue o3 = skipn 10 (internal_message_queue o2) /\
    only_logs o3 o'.
Proof.
  intros H. unfold run_simulation_cycle in H.
  apply bind_inv in H as ([] & o0 & Hstart & H).
  pose proof (only_logs_log _ _ _ _ _ Hstart) as Hlog0.
  unfold bind at 1, get at 1 in H.
  apply bind_inv in H as ([] & o1' & Hhuman & H).
  assert (Hphase1 : exists n o1,
             human_input_loop getattr_walk uuid4 5 0 o0 = Ok (n, o1) /\
             only_logs o1 o1').
  { destruct (human_outbox o0) as [|x rest] eqn:Hout.
    - injection Hhuman as <-. exists 0, o0.
      split; [now apply human_input_loop_empty|apply only_logs_refl].
    - apply bind_inv in Hhuman as (n & o1 & Hloop & Hend). exists n, o1.
      split; [exact Hloop|]. destruct n.
      + injection Hend as <-. apply only_logs_refl.
      + eapply only_logs_log. exact Hend. }
  destruct Hphase1 as (n & o1 & Hloop & Hlog1).
  apply bind_inv in H as ([] & o1'' & Hline & H).
  pose proof (only_logs_trans _ _ _ Hlog1 (only_logs_log _ _ _ _ _ Hline)) as Hlog1'.
  unfold bind at 1, get at 1 in H.
  apply bind_inv in H as ([] & o2 & Hagents & H).
  apply bind_inv in H as ([] & o2a & Hline2 & H).
  apply bind_inv in H as ([] & o2' & Hline3 & H).
  pose proof (only_logs_trans _ _ _ (only_logs_log _ _ _ _ _ Hline2)
                (only_logs_log _ _ _ _ _ Hline3)) as Hlog2.
  apply bind_inv in H as ([] & o3 & Hinternal & H).
  apply bind_inv in H as ([] & o3a & Hline4 & H).
  unfold bind at 1, get at 1 in H.
  apply bind_inv in H as (pending & o3b & Hpending & Hline5).
  assert (o3b = o3a).
  { unfold lift in Hpending. destruct (config_item _ _); [|discriminate].
    now injection Hpending as _ <-. }
  subst o3b.
  pose proof (only_logs_trans _ _ _ (only_logs_log _ _ _ _ _ Hline4)
                (only_logs_log _ _ _ _ _ Hline5)) as Hlog3.
  destruct (human_input_loop_takes getattr_walk uuid4 5 0 o0 n o1 Hloop)
    as [Hn (_ & _ & Hout & _)].
  assert (Hout0 : human_outbox o0 = human_outbox o)
    by (destruct Hlog0 as [more ->]; reflexivity).
  assert (Hqueue2 : internal_message_queue o2' = internal_message_queue o2)
    by (destruct Hlog2 as [more ->]; reflexivity).
  exists n, o0, o1, o1'', o2, o2', o3.
  split; [exact Hlog0|]. split; [exact Hloop|].
  split; [rewrite <- Hout0; exact Hn|].
  split; [rewrite <- Hout0; exact Hout|].
  split; [exact Hlog1'|]. split; [exact Hagents|]. split.
  { intros Hnodup.
    assert (Hnames : map name (agents o1'') = map name (agents o)).
    { destruct Hlog0 as [more0 E0]. destruct Hlog1' as [more1 E1].
      destruct (cycle_keeps_human_input_loop getattr_walk uuid4 5 0 o0 n o1 Hloop)
        as (_ & Hsame & _).
      rewrite E1. cbn [agents set_log]. rewrite Hsame, E0. reflexivity. }
    rewrite <- Hnames in Hnodup. apply took_turns_all.
    eapply agents_loop_turns; [exact Hnodup|exact Hnodup|exact Hagents]. }
  split; [exact Hlog2|]. split; [exact Hinternal|]. split; [|exact Hlog3].
  rewrite <- Hqueue2.
  unfold _process_internal_messages in Hinternal.
  apply bind_inv in Hinternal as (k & o4 & Hbatch & Hend).
  apply process_internal_loop_takes in Hbatch.
  destruct Hbatch as (_ & Hq & _). cbn [internal_message_queue
    set_internal_message_queue] in Hq.
  destruct k; [injection Hend as <-; exact Hq|].
  injection Hend as <-. exact Hq.
Qed.

End Order.

(** One response pending: the cycle takes it, the Code Sage takes the
    task it caused, and the reply of the Code Sage is drained. *)
Lemma cycle_phases_in_order_witness :
  NoDup (map name (agents Example.awaiting)) /\
  exists o' n o0 o1 o1' o2 o2' o3,
    run_simulation_cycle Example.attribute_text Example.uuid4 Example.completes
      Example.awaiting = Ok (tt, o') /\
    human_input_loop Example.attribute_text Example.uuid4 5 0 o0 = Ok (n, o1) /\
    n = 1 /\ human_outbox o1 = [] /\
    agents_loop Example.uuid4 Example.completes (map name (agents o1')) o1'
    = Ok (tt, o2) /\
    Forall2 took_one (agents o1') (agents o2) /\
    _process_internal_messages Example.attribute_text Example.uuid4 o2' = Ok (tt, o3) /\
    internal_message_queue o3 = skipn 10 (internal_message_queue o2).
Proof.
  assert (Hnodup : NoDup (map name (agents Example.awaiting))).
  { cbn. repeat (constructor; [cbn; intuition discriminate|]). constructor. }
  split; [exact Hnodup|].
  assert (Hrun : exists o',
             run_simulation_cycle Example.attribute_text Example.uuid4 Example.completes
               Example.awaiting = Ok (tt, o'))
    by (eexists; vm_compute; reflexivity).
  destruct Hrun as [o' Hrun].
  destruct (cycle_phases_in_order Example.attribute_text Example.uuid4 Example.completes
              Example.awaiting o' Hrun)
    as (n & o0 & o1 & o1' & o2 & o2' & o3 & _ & Hloop & Hn & Hout & _ & Hagents & Hone
        & _ & Hinternal & Hqueue & _).
  exists o', n, o0, o1, o1', o2, o2', o3.
  repeat split; auto.
Defined.

(** ** Edge cases of the orchestrator *)

Section Edges.
Variable getattr_walk : value -> list string -> result (option string).
Variable uuid4 : nat -> string.
Variable process_task : string -> value -> value -> outcome * value.

Lemma slice_if_truthy_text ctx :
  ctx = VNone \/ (exists c, ctx = VStr c) -> slice_if_truthy ctx = Ok tt.
Proof.
  intros [->|[c ->]]; [reflexivity|]. unfold slice_if_truthy.
  destruct (truthy (VStr c)); reflexivity.
Qed.

(** X15. Delegating to an agent that is not registered is reported, not
    raised: one [ERROR] message naming the task and the agent is queued
    for the human under the context of the delegation, and nothing else
    changes but the log; no context is recorded, no identifier is drawn,
    no inbox is touched. *)
Theorem unknown_agent_is_reported o agent_name task_name body ctx :
  find_agent agent_name (agents o) = None ->
  ctx = VNone \/ (exists c, ctx = VStr c) ->
  exists o',
    _delegate_task uuid4 (VStr agent_name) task_name body ctx o = Ok (tt, o') /\
    human_inbox o'
    = (human_inbox o ++
       [ {| human_type := VStr "ERROR";
            human_content :=
              VStr ("Orchestrator failed to delegate task '" ++ py_str task_name
                      ++ "': Agent '" ++ agent_name ++ "' not found.");
            human_options := VList [];
            human_context_id := ctx |} ])%list /\
    project_state o' = project_state o /\
    agents o' = agents o /\
    internal_message_queue o' = internal_message_queue o /\
    uuid_count o' = uuid_count o.
Proof.
  intros Hfind Hctx. unfold _delegate_task, registered, send_to_human, _log.
  munfold. rewrite Hfind.
  cbn [py_eq String.eqb Ascii.eqb Bool.eqb orb truthy py_str].
  rewrite (slice_if_truthy_text ctx Hctx).
  eexists. split; [reflexivity|]. repeat split.
Qed.

Lemma py_eq_str_false v s : v <> VStr s -> py_eq v (VStr s) = false.
Proof.
  intros H. destruct (py_eq v (VStr s)) eqn:E; [|reflexivity].
  apply py_eq_str in E. contradiction.
Qed.

Lemma py_get_entry fields k : py_get (VDict fields) k VNone = Ok (or_none (lookup k fields)).
Proof. reflexivity. Qed.

Lemma logged_once_intro o who text values :
  who = "Orchestrator" ->
  logged_once o (set_log o (log o ++ [ {| origin := who; line := text; data := values |} ])).
Proof. intros ->. eexists. split; [|reflexivity]. reflexivity. Qed.

(** X16. An action the orchestrator cannot carry out is skipped with a
    warning: when its type is unknown, or an entry its type needs is
    missing, executing it changes nothing but the log, to which one line
    is added, and the actions after it are executed as usual. *)
Theorem skipped_actions_only_log fields event_data o :
  not_carried_out fields ->
  exists o',
    execute_action getattr_walk uuid4 (VDict fields) event_data o = Ok (tt, o') /\
    logged_once o o' /\
    forall rest,
      execute_each getattr_walk uuid4 (VDict fields :: rest) event_data o
      = execute_each getattr_walk uuid4 rest event_data o'.
Proof.
  intros H.
  assert (Hrun : exists o',
             execute_action getattr_walk uuid4 (VDict fields) event_data o = Ok (tt, o')
             /\ logged_once o o').
  { unfold not_carried_out in H. cbn zeta in H.
    unfold execute_action, execute_update_state, execute_send_human_message,
      execute_delegate_task, _log. munfold. rewrite !py_get_entry.
    destruct H as [[Ht Hm]|[[Ht Hm]|[[Ht Hm]|(H1 & H2 & H3)]]].
    - rewrite Ht. cbn [py_eq String.eqb Ascii.eqb Bool.eqb].
      destruct Hm as [Hm|Hm]; rewrite Hm.
      + eexists. split; [reflexivity|]. now apply logged_once_intro.
      + destruct (or_none (lookup "path" fields));
          (eexists; split; [reflexivity|]; now apply logged_once_intro).
    - rewrite Ht. cbn [py_eq String.eqb Ascii.eqb Bool.eqb py_get as_dict].
      destruct Hm as [Hm|Hm]; rewrite Hm; cbn [andb py_eq_none negb];
        rewrite ?andb_false_r;
        (eexists; split; [reflexivity|]; now apply logged_once_intro).
    - rewrite Ht. cbn [py_eq String.eqb Ascii.eqb Bool.eqb py_get as_dict].
      destruct Hm as [Hm|Hm]; rewrite Hm; cbn [andb]; rewrite ?andb_false_r;
        (eexists; split; [reflexivity|]; now apply logged_once_intro).
    - rewrite (py_eq_str_false _ _ H1), (py_eq_str_false _ _ H2),
        (py_eq_str_false _ _ H3).
      eexists. split; [reflexivity|]. now apply logged_once_intro. }
  destruct Hrun as (o' & Hrun & Hlog). exists o'. split; [exact Hrun|].
  split; [exact Hlog|]. intros rest. cbn [execute_each].
  now rewrite (bind_ok _ _ _ _ _ Hrun).
Qed.

Lemma agents_loop_idle names : forall o,
  (forall a, In a (agents o) -> inbox a = []) ->
  agents_loop uuid4 process_task names o = Ok (tt, o).
Proof.
  induction names as [|n names IH]; intros o Hidle; [reflexivity|].
  cbn [agents_loop]. unfold bind at 1.
  assert (Hstep : process_pending_tasks uuid4 process_task n o = Ok (tt, o)).
  { unfold process_pending_tasks. munfold.
    destruct (find_agent n (agents o)) as [a|] eqn:Hfind; [|reflexivity].
    unfold find_agent in Hfind. apply find_some in Hfind as [Hin _].
    unfold process_pending_tasks_of. now rewrite (Hidle a Hin). }
  rewrite Hstep. now apply IH.
Qed.

(** X17. A cycle with nothing to do changes nothing but the log: with an
    empty human outbox, an empty internal queue and empty inboxes, it
    returns, having logged its six phase lines, and the state, the
    agents and the queues are as they were. *)
Theorem idle_cycle_only_logs o state pending :
  human_outbox o = [] ->
  internal_message_queue o = [] ->
  (forall a, In a (agents o) -> inbox a = []) ->
  project_state o = VDict state ->
  lookup "pending_human_approval_context" state = Some pending ->
  run_simulation_cycle getattr_walk uuid4 process_task o
  = Ok (tt,
        set_log o
          (log o ++
           map (fun text => {| origin := "Orchestrator"; line := text; data := [] |})
             [ "--- Running Simulation Cycle ---";
               "Agents processing tasks...";
               "Agent task processing cycle complete.";
               "Orchestrator processing internal messages...";
               "Orchestrator internal message processing complete.";
               "--- Cycle End ---" ])).
Proof.
  intros Hout Hqueue Hidle Hstate Hpending.
  unfold run_simulation_cycle, _log, orchestrator_name.
  unfold bind at 1, modify at 1. unfold bind at 1, get at 1.
  cbn [human_outbox set_log]. rewrite Hout.
  unfold bind at 1, ret at 1. unfold bind at 1, modify at 1.
  unfold bind at 1, get at 1. unfold bind at 1.
  rewrite agents_loop_idle by (cbn [agents set_log]; exact Hidle).
  unfold bind at 1, modify at 1. unfold bind at 1, modify at 1.
  unfold bind at 1. unfold _process_internal_messages, process_internal_loop.
  unfold bind at 1. unfold bind at 1, get at 1.
  cbn [internal_message_queue set_log]. rewrite Hqueue.
  unfold ret at 1. unfold ret at 1.
  unfold bind at 1, modify at 1. unfold bind at 1, get at 1.
  cbn [project_state set_log]. rewrite Hstate.
  unfold bind at 1, lift, config_item, py_getitem. rewrite Hpending.
  unfold modify. cbn [set_log log workflow_events agents project_state
                        internal_message_queue human_inbox human_outbox uuid_count map].
  rewrite <- !app_assoc. reflexivity.
Qed.

(** X18. A message in an inbox that is not a task gets no reply: when
    the agent's turn returns, the message is gone from the inbox, the
    internal queue, the identifiers drawn and the project state are as
    before; and if the message is no feedback either, the turn always
    returns and nothing but the inbox has changed. *)
Theorem other_messages_get_no_reply o a m rest :
  find_agent (name a) (agents o) = Some a ->
  inbox a = m :: rest ->
  type m <> "task" ->
  (forall o',
      process_pending_tasks uuid4 process_task (name a) o = Ok (tt, o') ->
      internal_message_queue o' = internal_message_queue o /\
      uuid_count o' = uuid_count o /\
      project_state o' = project_state o /\
      exists a', find_agent (name a) (agents o') = Some a' /\ inbox a' = rest) /\
  (type m <> "feedback" ->
   process_pending_tasks uuid4 process_task (name a) o
   = Ok (tt,
         set_agents o
           (update_agent (name a)
              (fun b => {| name := name b; inbox := rest;
                           knowledge_base := knowledge_base b |})
              (agents o)))).
Proof.
  intros Hfind Hinbox Htask.
  assert (Hpop : exists a',
             find_agent (name a)
               (update_agent (name a)
                  (fun b => {| name := name b; inbox := rest;
                               knowledge_base := knowledge_base b |})
                  (agents o)) = Some a' /\ inbox a' = rest).
  { eexists. split; [apply find_agent_update; [reflexivity|exact Hfind]|reflexivity]. }
  assert (Hturn : process_pending_tasks uuid4 process_task (name a) o
                  = process_pending_tasks_of uuid4 process_task a o).
  { unfold process_pending_tasks. unfold bind at 1, get at 1. now rewrite Hfind. }
  rewrite Hturn. unfold process_pending_tasks_of. rewrite Hinbox.
  destruct (String.eqb_spec (type m) "task") as [Ht|_]; [contradiction|].
  unfold set_inbox. unfold bind at 1, modify at 1.
  split.
  - intros o'. destruct (String.eqb (type m) "feedback").
    + unfold _log. munfold.
      destruct (py_get (content m) "description" (VStr "No description"));
        [|discriminate].
      destruct (py_slice8 (context_id m)); [|discriminate].
      intros [= <-]. cbn [internal_message_queue uuid_count project_state agents
                            set_log set_agents]. auto.
    + intros [= <-]. cbn [internal_message_queue uuid_count project_state agents
                            set_agents]. auto.
  - intros Hf. destruct (String.eqb_spec (type m) "feedback") as [Ht|_];
      [contradiction|reflexivity].
Qed.

(** X19. An answer clears the pending marker exactly when it is for the
    pending context. With no rule for human input, [get_human_input]
    returns; an answer without a context id counts for the context being
    waited on; the marker [pending_human_approval_context] is reset to
    null if the context of the answer equals it and is left as it is
    otherwise; nothing is queued and no inbox is touched. *)
Theorem answers_and_the_pending_marker o state pending response ctx :
  project_state o = VDict state ->
  lookup "pending_human_approval_context" state = Some pending ->
  lookup "human_input" (workflow_events o) = None ->
  let final := match ctx with VNone => pending | _ => ctx end in
  final = VNone \/ (exists c, final = VStr c) ->
  exists o',
    get_human_input getattr_walk uuid4 response ctx o = Ok (tt, o') /\
    project_state o'
    = (if py_eq pending final
       then VDict (assoc_set "pending_human_approval_context" VNone state)
       else VDict state) /\
    agents o' = agents o /\ human_inbox o' = human_inbox o /\
    internal_message_queue o' = internal_message_queue o.
Proof.
  intros Hstate Hpending Hrules final Hfinal.
  unfold get_human_input. unfold bind at 1, get at 1.
  assert (Hread : config_item (project_state o) "pending_human_approval_context"
                  = Ok pending).
  { rewrite Hstate. unfold config_item, py_getitem. now rewrite Hpending. }
  assert (Hfirst : (match ctx with
                    | VNone =>
                        lift (config_item (project_state o)
                                "pending_human_approval_context")
                    | _ => ret ctx
                    end) o = Ok (final, o)).
  { subst final. destruct ctx; try reflexivity. now rewrite Hread. }
  rewrite (bind_ok _ _ _ _ _ Hfirst).
  rewrite (slice_if_truthy_text final Hfinal).
  unfold _log, engine_process_event, process_event, event_handlers, _execute_actions.
  munfold. rewrite Hread.
  destruct (py_eq pending final).
  - rewrite Hstate. cbn [py_setitem as_dict with_entries].
    cbn [workflow_events set_project_state set_log project_state].
    rewrite Hrules. cbn [py_iter scan_handlers]. munfold.
    eexists. split; [reflexivity|]. repeat split.
  - cbn [workflow_events set_project_state set_log project_state].
    rewrite Hrules. cbn [py_iter scan_handlers]. munfold.
    eexists. split; [reflexivity|]. cbn. rewrite Hstate. repeat split.
Qed.

End Edges.

Section NoRules.

(** X20. Without a usable workflow configuration no event triggers
    anything: when the file is missing or is not JSON, or what was parsed
    has no dictionary under ['events'], every event of every kind is
    answered with the empty list of actions, and the event and the state
    are as they were. *)
Theorem unusable_config_prescribes_nothing document event_type s :
  unusable_config document ->
  process_event (_load_config document) event_type s = Ok ([], s).
Proof.
  intros H.
  assert (Hempty : _load_config document = []).
  { unfold unusable_config in H. unfold _load_config.
    destruct document as [[| | | | |d|d]|]; try reflexivity; cbn [as_dict] in H;
      destruct (lookup "events" d) as [[]|]; try reflexivity; discriminate H. }
  rewrite Hempty. reflexivity.
Qed.

End NoRules.

Section KnowledgeBase.

(** X21. What an agent stores in its knowledge base is what it gets
    back: after [update_knowledge_base] with a key, [get_knowledge] gives
    the value stored under that key, every other key gives what it gave
    before, and a key never stored gives null rather than an error. The
    inbox and the name of the agent are not touched. *)
Theorem knowledge_is_kept a known key x :
  as_dict (knowledge_base a) = Some known ->
  exists a',
    update_knowledge_base a key x = Ok a' /\
    get_knowledge a' key = Ok x /\
    (forall other, other <> key -> get_knowledge a' other = get_knowledge a other) /\
    (forall other, lookup other known = None -> get_knowledge a other = Ok VNone) /\
    name a' = name a /\ inbox a' = inbox a.
Proof.
  intros Hkb. unfold update_knowledge_base, get_knowledge, py_setitem, py_get.
  rewrite Hkb. eexists. split; [reflexivity|]. cbn [knowledge_base name inbox].
  rewrite (as_dict_with_entries _ _ _ Hkb).
  split; [now rewrite lookup_assoc_set_eq|].
  split; [intros other Hne; now rewrite lookup_assoc_set_ne|].
  split; [intros other Hnone; now rewrite Hnone|]. split; reflexivity.
Qed.

End KnowledgeBase.

Section Callback.
Variable getattr_walk : value -> list string -> result (option string).
Variable uuid4 : nat -> string.
Variable process_task : string -> value -> value -> outcome * value.


End Callback.

(** ** Instances of the further properties *)

(** A failed call gives the fallback brief. *)
Lemma concept_brief_fallback_witness :
  unlabelled Sample.failed_call /\
  DreamWeaver._parse_llm_concept_response Sample.failed_call "A todo app."
  = ({| DreamWeaver.purpose := "A todo app";
        DreamWeaver.target_users := "Various users.";
        DreamWeaver.features := ["Basic Functionality"; "User Interface"];
        DreamWeaver.monetization_strategy := "Undefined." |},
     [warn "Dream Weaver"
        "WARNING: No features parsed from LLM response. Using fallback features."
        []]).
Proof.
  assert (H : unlabelled Sample.failed_call).
  { unfold unlabelled. vm_compute. repeat constructor. }
  split; [exact H|].
  rewrite (concept_brief_fallback Sample.failed_call "A todo app." H).
  reflexivity.
Defined.


(** A report that lists a bug and claims success is reported as failed
    with bugs. *)
Lemma test_report_is_consistent_witness :
  exists result_content kb' logged report found,
    QualityGuardian.process_task (Ok Sample.bug_report) (VDict []) Sample.test_task
    = Ok (VDict result_content, kb', logged) /\
    lookup "status" result_content = Some (VStr "completed") /\
    lookup "test_report" result_content = Some (VDict report) /\
    lookup "status" report = Some (VStr "failed_with_bugs") /\
    lookup "bugs_found" report = Some (VList found) /\
    found <> [].
Proof.
  destruct (test_report_is_consistent Sample.bug_report (VDict []) Sample.test_task
              [] _ eq_refl eq_refl)
    as (rc & kb' & logged & report & s & found & mn & ts & Hrun & Hdone & Hrep & Hs
        & Hfound & Hcases & Hiff & _).
  exists rc, kb', logged, report, found.
  assert (Hne : found <> []).
  { vm_compute in Hrun. injection Hrun as <- _ _. vm_compute in Hrep.
    injection Hrep as <-. vm_compute in Hfound. injection Hfound as <-. discriminate. }
  repeat split; auto. rewrite Hs. do 2 f_equal. now apply Hiff.
Defined.

(** A status line in small letters does not count as a success. *)
Lemma deployment_status_is_settled_witness :
  exists result_content kb' logged,
    DeploymentMaster.process_task (Ok Sample.deployed) (VDict []) Sample.deploy_task
    = Ok (VDict result_content, kb', logged) /\
    lookup "deployment_status" result_content = Some (VStr "failure") /\
    lookup "app_url" result_content = Some (VStr "https://app.example/ctx-1") /\
    py_get kb' "last_deployment_url" VNone = Ok (VStr "https://app.example/ctx-1").
Proof.
  destruct (deployment_status_is_settled Sample.deployed (VDict []) Sample.deploy_task
              [] _ eq_refl eq_refl)
    as (rc & kb' & logged & s & url & Hrun & Hs & Hcases & Honly & Hurl & Hkb).
  exists rc, kb', logged. split; [exact Hrun|].
  vm_compute in Hrun. injection Hrun as <- <- _.
  repeat split; reflexivity.
Defined.

(** The Code Sage is routed to OpenAI with the key of the environment. *)
Lemma model_details_are_routed_witness :
  exists cfg,
    get_model_details_for_agent Sample.getenv Sample.settings "Code Sage"
    = Ok (VDict [ ("provider", VStr "openai");
                  ("api_base", VStr "https://api.openai.com/v1");
                  ("model_name", VStr "gpt-4o");
                  ("api_key", VStr "sk-test") ]) /\
    lookup "openai" GLOBAL_PROVIDER_CONFIGS = Some (VDict cfg) /\
    lookup "api_base" cfg = Some (VStr "https://api.openai.com/v1").
Proof.
  destruct (model_details_are_routed Sample.getenv Sample.settings "Code Sage" _ eq_refl)
    as (p & cfg & base & model & Hd & Hcfg & _ & Hbase).
  injection Hd as <- <- <-. exists cfg. split; [reflexivity|]. split; [exact Hcfg|].
  apply Hbase. discriminate.
Defined.

(** The Dream Weaver has no override and gets the default. *)
Lemma unassigned_agent_gets_default_witness :
  unassigned Sample.settings "Dream Weaver" /\
  get_model_details_for_agent Sample.getenv Sample.settings "Dream Weaver"
  = Ok (VDict [ ("provider", VStr "lm_studio");
                ("api_base", VStr "http://localhost:4321/v1");
                ("model_name", VStr "local-model");
                ("api_key", VStr "lm-studio") ]).
Proof.
  assert (H : unassigned Sample.settings "Dream Weaver").
  { intros overrides entries Ho He. vm_compute in Ho. injection Ho as <-.
    cbn in He. injection He as <-. now left. }
  split; [exact H|].
  rewrite (unassigned_agent_gets_default Sample.getenv Sample.settings "Dream Weaver" H).
  reflexivity.
Defined.

(** Settings that parse to a list are not used. *)
Lemma unusable_settings_route_locally_witness :
  get_model_details_for_agent Sample.getenv (_load_settings (Some (VList [])))
    "Code Sage"
  = Ok (VDict [ ("provider", VStr "lm_studio");
                ("api_base", VStr "http://localhost:1234/v1");
                ("model_name", VStr "Mistral-Nemo-Instruct-12B");
                ("api_key", VStr "lm-studio") ]).
Proof.
  apply (unusable_settings_route_locally Sample.getenv (Some (VList [])) "Code Sage").
  exact I.
Defined.

(** The summary of the sample settings has two rows. *)
Lemma assignments_cover_the_agents_witness :
  exists rows,
    list_agent_model_assignments Sample.getenv Sample.settings = Ok (VDict rows) /\
    map fst rows = ["Code Sage"; fallback_row_name] /\
    Forall (fun kv => is_row (snd kv)) rows /\
    lookup "default" rows = None.
Proof.
  destruct (assignments_cover_the_agents Sample.getenv Sample.settings _ eq_refl)
    as (rows & overrides & entries & Hsum & _ & _ & Hrows & _ & Hdefault).
  exists rows. injection Hsum as <-. repeat split; auto.
Defined.

(** The cycle of the pending response keeps the frame. *)
Lemma cycle_keeps_the_frame_witness :
  exists o',
    run_simulation_cycle Example.attribute_text Example.uuid4 Example.completes
      Example.awaiting = Ok (tt, o') /\
    cycle_keeps Example.awaiting o' /\
    human_outbox o' = [].
Proof.
  assert (Hrun : exists o',
             run_simulation_cycle Example.attribute_text Example.uuid4 Example.completes
               Example.awaiting = Ok (tt, o'))
    by (eexists; vm_compute; reflexivity).
  destruct Hrun as [o' Hrun]. exists o'. split; [exact Hrun|].
  destruct (cycle_keeps_the_frame Example.attribute_text Example.uuid4 Example.completes
              Example.awaiting o' Hrun) as [Hk _].
  split; [exact Hk|].
  vm_compute in Hrun. injection Hrun as <-. reflexivity.
Defined.


(** A task for an agent nobody registered. *)
Lemma unknown_agent_is_reported_witness :
  exists o',
    _delegate_task Example.uuid4 (VStr "Release Manager") (VStr "release")
      (VDict []) (VStr "ctx-1") (__init__ []) = Ok (tt, o') /\
    human_inbox o'
    = [ {| human_type := VStr "ERROR";
           human_content :=
             VStr "Orchestrator failed to delegate task 'release': Agent 'Release Manager' not found.";
           human_options := VList [];
           human_context_id := VStr "ctx-1" |} ] /\
    agents o' = agents (__init__ []).
Proof.
  destruct (unknown_agent_is_reported Example.uuid4 (__init__ []) "Release Manager"
              (VStr "release") (VDict []) (VStr "ctx-1") eq_refl
              (or_intror (ex_intro _ "ctx-1" eq_refl)))
    as (o' & Hrun & Hinbox & _ & Hagents & _).
  exists o'. repeat split; assumption.
Defined.

(** An action of a type the orchestrator does not know. *)
Lemma skipped_actions_only_log_witness :
  not_carried_out [("type", VStr "archive")] /\
  exists o',
    execute_action Example.attribute_text Example.uuid4 (VDict [("type", VStr "archive")])
      (VDict []) (__init__ []) = Ok (tt, o') /\
    logged_once (__init__ []) o'.
Proof.
  assert (H : not_carried_out [("type", VStr "archive")]).
  { right. right. right. repeat split; discriminate. }
  split; [exact H|].
  destruct (skipped_actions_only_log Example.attribute_text Example.uuid4
              [("type", VStr "archive")] (VDict []) (__init__ []) H)
    as (o' & Hrun & Hlog & _).
  exists o'. split; assumption.
Defined.

(** A fresh orchestrator has nothing to do. *)
Lemma idle_cycle_only_logs_witness :
  exists o',
    run_simulation_cycle Example.attribute_text Example.uuid4 Example.completes
      (__init__ []) = Ok (tt, o') /\
    project_state o' = initial_project_state /\
    agents o' = agents (__init__ []) /\
    length (log o') = 7.
Proof.
  eexists. split.
  - eapply (idle_cycle_only_logs Example.attribute_text Example.uuid4 Example.completes
              (__init__ [])); [reflexivity|reflexivity| |reflexivity|reflexivity].
    intros a Ha. cbn in Ha.
    repeat (destruct Ha as [<-|Ha]; [reflexivity|]). contradiction.
  - repeat split.
Defined.

(** A notice in the inbox of the Code Sage is dropped without a reply. *)
Lemma other_messages_get_no_reply_witness :
  exists o',
    process_pending_tasks Example.uuid4 Example.completes "Code Sage" Sample.noted
    = Ok (tt, o') /\
    internal_message_queue o' = [] /\
    exists a', find_agent "Code Sage" (agents o') = Some a' /\ inbox a' = [].
Proof.
  destruct (other_messages_get_no_reply Example.uuid4 Example.completes Sample.noted
              Sample.noted_sage Sample.notice [] eq_refl eq_refl ltac:(discriminate))
    as [Hreturns Hplain].
  specialize (Hplain ltac:(discriminate)).
  eexists. split; [exact Hplain|].
  destruct (Hreturns _ Hplain) as (Hq & _ & _ & Ha). split; [exact Hq|exact Ha].
Defined.

(** An answer for a context nobody waits for leaves the marker alone. *)
Lemma answers_and_the_pending_marker_witness :
  exists o',
    get_human_input Example.attribute_text Example.uuid4 (VStr "yes") (VStr "ctx-1")
      (__init__ []) = Ok (tt, o') /\
    project_state o' = initial_project_state /\
    agents o' = agents (__init__ []).
Proof.
  destruct (answers_and_the_pending_marker Example.attribute_text Example.uuid4
              (__init__ []) _ VNone (VStr "yes") (VStr "ctx-1") eq_refl eq_refl eq_refl
              (or_intror (ex_intro _ "ctx-1" eq_refl)))
    as (o' & Hrun & Hstate & Hagents & _).
  exists o'. repeat split; assumption.
Defined.

(** No configuration file: the start of a project prescribes nothing. *)
Lemma unusable_config_prescribes_nothing_witness :
  process_event (_load_config None) "start"
    (VDict [("user_idea", VStr "A todo app.")], initial_project_state)
  = Ok ([], (VDict [("user_idea", VStr "A todo app.")], initial_project_state)).
Proof.
  apply (unusable_config_prescribes_nothing None). exact I.
Defined.

(** The concept a fresh agent stores is the one it gets back. *)
Lemma knowledge_is_kept_witness :
  exists a',
    update_knowledge_base (new_agent "Dream Weaver") "current_concept" (VStr "A todo app")
    = Ok a' /\
    get_knowledge a' "current_concept" = Ok (VStr "A todo app") /\
    get_knowledge (new_agent "Dream Weaver") "current_concept" = Ok VNone.
Proof.
  destruct (knowledge_is_kept (new_agent "Dream Weaver") [] "current_concept"
              (VStr "A todo app") eq_refl)
    as (a' & Hrun & Hget & _ & Hnone & _).
  exists a'. repeat split; auto.
Defined.


